(** * pw-ci: the series/build synchronisation engine

    A shallow embedding of [src/pwci/database.py] (the state store),
    [src/pwci/ci_providers.py] (the CI providers) and the discovery pass
    of [src/pwci/patchwork.py], with the properties of the specification
    stated and settled against it.

    Modelling conventions.
    - A table is the list of its rows in insertion (rowid) order; an
      [INSERT] appends, an [UPDATE] maps over the rows, a [SELECT]
      filters them.  Duplicate rows are kept: no table of the schema
      declares a key.
    - An [INTEGER] column is a [Z], a text column a [string], a column
      that an insert may leave [NULL] an [option].  The columns of
      [git_builds] declared [STRING] have numeric affinity in SQLite,
      which stores a text that is a well-formed number as that number.
      [Sqlite] and [Stored] embed the table with that: a cell is a text
      or an integer, and [insert_build], [get_unsynced_builds] and
      [get_patch_id_by_series_and_sha] are stated there.  The engine
      is modelled on rows whose cells hold text; [insert_build_on_text]
      and [get_unsynced_builds_on_text] show that the store on such
      rows, given text that cannot be a number and ids that fit 64
      bits, is the store of the engine's model.
    - A generator is run to exhaustion: its result is the list of the
      values it yielded, the store it leaves behind and the exception
      that ended it, if any.
    - A backend is a function from the request to the outcome of the
      request: either [requests.RequestException] or the decoded body.
      A JSON object is a record whose fields are [option]al where the
      code's behaviour depends on their presence. *)

From Stdlib Require Import ZArith List String Ascii Bool Lia.
From Stdlib Require Import Sorted Permutation DecimalString.
Import ListNotations.

Open Scope Z_scope.
Open Scope string_scope.

Set Implicit Arguments.

(* ================================================================== *)
(** * Rows of the two tables the engine reads and writes *)

(** The [series] table of [_ensure_schema]. *)
Module Series.
Record row := {
  series_id : Z;
  series_project : string;
  series_url : string;
  series_submitter : string;
  series_email : string;
  series_submitted : Z;
  series_completed : Z;
  series_instance : string;
  series_downloaded : Z;
  series_branch : option string;
  series_repo : option string;
  series_sha : option string
}.
End Series.

(** The [git_builds] table of [_ensure_schema]. *)
Module Build.
Record row := {
  series_id : Z;
  patch_id : Z;
  patch_url : string;
  patch_name : string;
  sha : string;
  patchwork_instance : string;
  patchwork_project : string;
  repo_name : string;
  gap_sync : Z;
  obs_sync : Z;
  cirrus_sync : Z
}.
End Build.

(** The three sync columns of [git_builds]. *)
Inductive sync_col := GapSync | ObsSync | CirrusSync.

Definition column_name (c : sync_col) : string :=
  match c with
  | GapSync => "gap_sync"
  | ObsSync => "obs_sync"
  | CirrusSync => "cirrus_sync"
  end.

(** [ci_type] is spliced into the SQL text as a column name.  The model
    resolves the names of the sync columns; any other name a provider
    builds ([f"{name}_sync"]) names no column of [git_builds], and the
    statement fails with [sqlite3.OperationalError]. *)
Definition column_of_name (ci_type : string) : option sync_col :=
  if ci_type =? "gap_sync" then Some GapSync
  else if ci_type =? "obs_sync" then Some ObsSync
  else if ci_type =? "cirrus_sync" then Some CirrusSync
  else None.

Definition sync_flag (c : sync_col) (b : Build.row) : Z :=
  match c with
  | GapSync => Build.gap_sync b
  | ObsSync => Build.obs_sync b
  | CirrusSync => Build.cirrus_sync b
  end.

(** [UPDATE git_builds SET {ci_type} = 1] on one row. *)
Definition mark_synced (c : sync_col) (b : Build.row) : Build.row :=
  match c with
  | GapSync =>
      {| Build.series_id := Build.series_id b;
         Build.patch_id := Build.patch_id b;
         Build.patch_url := Build.patch_url b;
         Build.patch_name := Build.patch_name b;
         Build.sha := Build.sha b;
         Build.patchwork_instance := Build.patchwork_instance b;
         Build.patchwork_project := Build.patchwork_project b;
         Build.repo_name := Build.repo_name b;
         Build.gap_sync := 1;
         Build.obs_sync := Build.obs_sync b;
         Build.cirrus_sync := Build.cirrus_sync b |}
  | ObsSync =>
      {| Build.series_id := Build.series_id b;
         Build.patch_id := Build.patch_id b;
         Build.patch_url := Build.patch_url b;
         Build.patch_name := Build.patch_name b;
         Build.sha := Build.sha b;
         Build.patchwork_instance := Build.patchwork_instance b;
         Build.patchwork_project := Build.patchwork_project b;
         Build.repo_name := Build.repo_name b;
         Build.gap_sync := Build.gap_sync b;
         Build.obs_sync := 1;
         Build.cirrus_sync := Build.cirrus_sync b |}
  | CirrusSync =>
      {| Build.series_id := Build.series_id b;
         Build.patch_id := Build.patch_id b;
         Build.patch_url := Build.patch_url b;
         Build.patch_name := Build.patch_name b;
         Build.sha := Build.sha b;
         Build.patchwork_instance := Build.patchwork_instance b;
         Build.patchwork_project := Build.patchwork_project b;
         Build.repo_name := Build.repo_name b;
         Build.gap_sync := Build.gap_sync b;
         Build.obs_sync := Build.obs_sync b;
         Build.cirrus_sync := 1 |}
  end.

(* ================================================================== *)
(** * The state store: [SeriesDatabase] *)

(** The tables [travis_build], [recheck_requests], [check_id_scanned]
    and [series_schema_version] are created by [_ensure_schema] and
    touched by no method; they are left out. *)
Record database := {
  series : list Series.row;
  git_builds : list Build.row
}.

(** The store right after [_ensure_schema] on a fresh file. *)
Definition empty_database : database :=
  {| series := []; git_builds := [] |}.

(** The [WHERE series_id = ? AND series_instance = ?] clause. *)
Definition series_matches (instance : string) (series_id : Z)
           (r : Series.row) : bool :=
  (Series.series_id r =? series_id)%Z
  && (Series.series_instance r =? instance).

(** An [UPDATE ... WHERE p] over a table. *)
Definition update_where {A} (p : A -> bool) (f : A -> A) (l : list A)
  : list A :=
  map (fun r => if p r then f r else r) l.

Definition with_series (db : database) (l : list Series.row) : database :=
  {| series := l; git_builds := git_builds db |}.

Definition with_git_builds (db : database) (l : list Build.row)
  : database :=
  {| series := series db; git_builds := l |}.

Definition series_exists (db : database) (instance : string)
           (series_id : Z) : bool :=
  existsb (series_matches instance series_id) (series db).

(** [add_series]: the columns the [INSERT] does not name stay [NULL]. *)
Definition new_series_row (instance project : string) (series_id : Z)
           (url submitter_name submitter_email : string) (completed : bool)
  : Series.row :=
  {| Series.series_id := series_id;
     Series.series_project := project;
     Series.series_url := url;
     Series.series_submitter := submitter_name;
     Series.series_email := submitter_email;
     Series.series_submitted := 0;
     Series.series_completed := if completed then 1 else 0;
     Series.series_instance := instance;
     Series.series_downloaded := 0;
     Series.series_branch := None;
     Series.series_repo := None;
     Series.series_sha := None |}.

Definition add_series (db : database) (instance project : string)
           (series_id : Z) (url submitter_name submitter_email : string)
           (completed : bool) : database :=
  with_series db
    (series db ++
     [new_series_row instance project series_id url submitter_name
                     submitter_email completed]).

(** The four columns both lifecycle queries select. *)
Definition series_summary (r : Series.row) : Z * string * string * string :=
  (Series.series_id r, Series.series_url r, Series.series_submitter r,
   Series.series_email r).

Definition get_unsubmitted_series (db : database) (instance project : string)
  : list (Z * string * string * string) :=
  map series_summary
    (filter (fun r =>
               (Series.series_instance r =? instance)
               && (Series.series_project r =? project)
               && (Series.series_completed r =? 1)%Z
               && (Series.series_submitted r =? 0)%Z)
            (series db)).

Definition uncompleted (instance project : string) (r : Series.row) : bool :=
  (Series.series_instance r =? instance)
  && (Series.series_project r =? project)
  && (Series.series_completed r =? 0)%Z
  && (Series.series_submitted r =? 0)%Z
  && (Series.series_downloaded r =? 0)%Z.

Definition get_uncompleted_series (db : database) (instance project : string)
  : list (Z * string * string * string) :=
  map series_summary (filter (uncompleted instance project) (series db)).

Definition mark_submitted (r : Series.row) : Series.row :=
  {| Series.series_id := Series.series_id r;
     Series.series_project := Series.series_project r;
     Series.series_url := Series.series_url r;
     Series.series_submitter := Series.series_submitter r;
     Series.series_email := Series.series_email r;
     Series.series_submitted := 1;
     Series.series_completed := Series.series_completed r;
     Series.series_instance := Series.series_instance r;
     Series.series_downloaded := Series.series_downloaded r;
     Series.series_branch := Series.series_branch r;
     Series.series_repo := Series.series_repo r;
     Series.series_sha := Series.series_sha r |}.

Definition mark_completed (r : Series.row) : Series.row :=
  {| Series.series_id := Series.series_id r;
     Series.series_project := Series.series_project r;
     Series.series_url := Series.series_url r;
     Series.series_submitter := Series.series_submitter r;
     Series.series_email := Series.series_email r;
     Series.series_submitted := Series.series_submitted r;
     Series.series_completed := 1;
     Series.series_instance := Series.series_instance r;
     Series.series_downloaded := Series.series_downloaded r;
     Series.series_branch := Series.series_branch r;
     Series.series_repo := Series.series_repo r;
     Series.series_sha := Series.series_sha r |}.

Definition set_series_submitted (db : database) (instance : string)
           (series_id : Z) : database :=
  with_series db
    (update_where (series_matches instance series_id) mark_submitted
                  (series db)).

Definition set_series_completed (db : database) (instance : string)
           (series_id : Z) : database :=
  with_series db
    (update_where (series_matches instance series_id) mark_completed
                  (series db)).

(** [series_branch IS NOT NULL AND series_branch != ''], with the branch
    it holds. *)
Definition active_branch (r : Series.row) : option string :=
  match Series.series_branch r with
  | Some b => if b =? "" then None else Some b
  | None => None
  end.

(** One row of [get_active_branches]:
    [(series_id, series_project, series_url, series_branch, series_repo)]. *)
Definition branch_row : Type := Z * string * string * string * option string.

Definition branch_series_id (a : branch_row) : Z :=
  let '(series_id, _, _, _, _) := a in series_id.

Fixpoint active_rows (instance : string) (l : list Series.row)
  : list branch_row :=
  match l with
  | [] => []
  | r :: rest =>
      if Series.series_instance r =? instance then
        match active_branch r with
        | Some b =>
            (Series.series_id r, Series.series_project r,
             Series.series_url r, b, Series.series_repo r)
            :: active_rows instance rest
        | None => active_rows instance rest
        end
      else active_rows instance rest
  end.

Definition get_active_branches (db : database) (instance : string)
  : list branch_row :=
  active_rows instance (series db).

Definition put_branch (branch repo : option string) (r : Series.row)
  : Series.row :=
  {| Series.series_id := Series.series_id r;
     Series.series_project := Series.series_project r;
     Series.series_url := Series.series_url r;
     Series.series_submitter := Series.series_submitter r;
     Series.series_email := Series.series_email r;
     Series.series_submitted := Series.series_submitted r;
     Series.series_completed := Series.series_completed r;
     Series.series_instance := Series.series_instance r;
     Series.series_downloaded := Series.series_downloaded r;
     Series.series_branch := branch;
     Series.series_repo := repo;
     Series.series_sha := Series.series_sha r |}.

(** [UPDATE series SET series_branch = ?, series_repo = ?]. *)
Definition set_series_branch (db : database) (instance : string)
           (series_id : Z) (repo branch : string) : database :=
  with_series db
    (update_where (series_matches instance series_id)
                  (put_branch (Some branch) (Some repo))
                  (series db)).

(** [UPDATE series SET series_branch = '']: the statement names the
    branch column only. *)
Definition clear_series_branch (db : database) (instance : string)
           (series_id : Z) : database :=
  with_series db
    (update_where (series_matches instance series_id)
                  (fun r => put_branch (Some "") (Series.series_repo r) r)
                  (series db)).

(** [ORDER BY series_id]: rows with equal keys keep their rowid order. *)
Fixpoint insert_by_series_id (b : Build.row) (l : list Build.row)
  : list Build.row :=
  match l with
  | [] => [b]
  | x :: rest =>
      if (Build.series_id b <=? Build.series_id x)%Z then b :: l
      else x :: insert_by_series_id b rest
  end.

Fixpoint order_by_series_id (l : list Build.row) : list Build.row :=
  match l with
  | [] => []
  | b :: rest => insert_by_series_id b (order_by_series_id rest)
  end.

Definition unsynced (instance : string) (c : sync_col) (b : Build.row)
  : bool :=
  (Build.patchwork_instance b =? instance) && (sync_flag c b =? 0)%Z.

(** [None] stands for [sqlite3.OperationalError] (no such column). *)
Definition get_unsynced_builds (db : database) (instance ci_type : string)
  : option (list Build.row) :=
  match column_of_name ci_type with
  | Some c =>
      Some (order_by_series_id (filter (unsynced instance c) (git_builds db)))
  | None => None
  end.

(** The [WHERE patchwork_instance = ? AND patch_id = ?] clause. *)
Definition build_matches (instance : string) (patch_id : Z) (b : Build.row)
  : bool :=
  (Build.patchwork_instance b =? instance)
  && (Build.patch_id b =? patch_id)%Z.

Definition set_build_synced (db : database) (instance : string)
           (patch_id : Z) (ci_type : string) : option database :=
  match column_of_name ci_type with
  | Some c =>
      Some (with_git_builds db
              (update_where (build_matches instance patch_id) (mark_synced c)
                            (git_builds db)))
  | None => None
  end.

Definition new_build_row (series_id patch_id : Z)
           (patch_url patch_name sha instance project repo_name : string)
  : Build.row :=
  {| Build.series_id := series_id;
     Build.patch_id := patch_id;
     Build.patch_url := patch_url;
     Build.patch_name := patch_name;
     Build.sha := sha;
     Build.patchwork_instance := instance;
     Build.patchwork_project := project;
     Build.repo_name := repo_name;
     Build.gap_sync := 0;
     Build.obs_sync := 0;
     Build.cirrus_sync := 0 |}.

(** [insert_build] on the rows the engine is modelled with: ids that fit
    64 bits and text that cannot be a number, which the [STRING]
    columns keep as given ([Stored.insert_build] has the other cases). *)
Definition insert_build (db : database) (series_id patch_id : Z)
           (patch_url patch_name sha instance project repo_name : string)
  : database :=
  with_git_builds db
    (git_builds db ++
     [new_build_row series_id patch_id patch_url patch_name sha instance
                    project repo_name]).

(** Every mutating method of [SeriesDatabase], as data. *)
Inductive store_op :=
| AddSeries (instance project : string) (series_id : Z)
            (url submitter_name submitter_email : string) (completed : bool)
| SetSeriesSubmitted (instance : string) (series_id : Z)
| SetSeriesCompleted (instance : string) (series_id : Z)
| SetSeriesBranch (instance : string) (series_id : Z) (repo branch : string)
| ClearSeriesBranch (instance : string) (series_id : Z)
| SetBuildSynced (instance : string) (patch_id : Z) (ci_type : string)
| InsertBuild (series_id patch_id : Z)
              (patch_url patch_name sha instance project repo_name : string).

(** A statement that fails changes nothing. *)
Definition apply_op (op : store_op) (db : database) : database :=
  match op with
  | AddSeries i p s u n e c => add_series db i p s u n e c
  | SetSeriesSubmitted i s => set_series_submitted db i s
  | SetSeriesCompleted i s => set_series_completed db i s
  | SetSeriesBranch i s r b => set_series_branch db i s r b
  | ClearSeriesBranch i s => clear_series_branch db i s
  | SetBuildSynced i p c =>
      match set_build_synced db i p c with
      | Some db' => db'
      | None => db
      end
  | InsertBuild s p u n h i pr rn => insert_build db s p u n h i pr rn
  end.

Definition apply_ops (ops : list store_op) (db : database) : database :=
  fold_left (fun d op => apply_op op d) ops db.

(* ================================================================== *)
(** * Python values and control the providers rely on *)

(** The exceptions the modelled code can raise. *)
Inductive exn :=
| RequestException      (* requests: connection failure, HTTP error status *)
| KeyError              (* [d[k]] on a dict without the key [k] *)
| AttributeError        (* [.get] on [None] *)
| IndexError            (* [l[0]] on an empty list *)
| OperationalError      (* sqlite3: no such column *)
| OverflowError.        (* sqlite3: an [int] beyond 64 bits is bound *)

(** What a request gives back: [session.get]/[session.post] followed by
    [raise_for_status()] and [json()].  [Failed] stands for any
    [requests.RequestException] of the three calls (a body that is not
    JSON raises one too, as of requests 2.27). *)
Inductive response (A : Type) :=
| Failed
| Body (a : A).

Arguments Failed {A}.
Arguments Body {A} a.

(** A JSON field that the backend may leave out, send as [null], or
    send with a value. *)
Inductive field (A : Type) :=
| Absent
| Null
| Value (a : A).

Arguments Absent {A}.
Arguments Null {A}.
Arguments Value {A} a.

(** [str(n)] for an int, as an f-string prints it. *)
Definition str_of_int (n : Z) : string :=
  NilZero.string_of_int (Z.to_int n).

(** An f-string prints [None] as the text [None]. *)
Definition str_of_text (o : option string) : string :=
  match o with
  | Some s => s
  | None => "None"
  end.

(** [s.split(sep)] for a one-character separator. *)
Fixpoint split (sep : ascii) (s : string) : list string :=
  match s with
  | EmptyString => [""]
  | String c rest =>
      if Ascii.eqb c sep then "" :: split sep rest
      else match split sep rest with
           | h :: t => String c h :: t
           | [] => [String c ""]
           end
  end.

(** [x in l] for a list of strings. *)
Definition is_in (x : string) (l : list string) : bool :=
  existsb (String.eqb x) l.

Definition eqb_opt_Z (a : option Z) (b : Z) : bool :=
  match a with
  | Some x => (x =? b)%Z
  | None => false
  end.

Definition eqb_opt_string (a : option string) (b : string) : bool :=
  match a with
  | Some x => x =? b
  | None => false
  end.

(** The canonical record every provider yields. *)
Module Outcome.
Record t := {
  pw_instance : string;
  series_id : Z;
  sha : string;
  result : string;
  build_url : string;
  patch_name : string;
  repo_name : option string;
  test_name : string;
  patch_id : option Z
}.
End Outcome.

(** A call of a generator, consumed to its end. *)
Record run := {
  yielded : list Outcome.t;
  store : database;
  raised : option exn
}.

(** One pass through the body of a provider's [for] loop: what it
    yielded, the store and the loop variables it leaves, and the
    exception it let through, if any. *)
Record step (S : Type) := {
  emitted : list Outcome.t;
  after : database;
  carried : S;
  failure : option exn
}.

(** [continue], and falling off the end of the body. *)
Definition proceed {S} (s : S) (db : database) (os : list Outcome.t)
  : step S :=
  {| emitted := os; after := db; carried := s; failure := None |}.

(** An exception that no [except] clause of the body catches. *)
Definition throw {S} (s : S) (db : database) (os : list Outcome.t) (e : exn)
  : step S :=
  {| emitted := os; after := db; carried := s; failure := Some e |}.

(** The [for] loop of a generator: an uncaught exception ends the call;
    what was yielded before it has reached the consumer. *)
Fixpoint for_each {U S} (body : S -> U -> database -> step S)
         (s : S) (units : list U) (db : database) : run :=
  match units with
  | [] => {| yielded := []; store := db; raised := None |}
  | u :: rest =>
      let st := body s u db in
      match failure st with
      | Some e =>
          {| yielded := emitted st; store := after st; raised := Some e |}
      | None =>
          let r := for_each body (carried st) rest (after st) in
          {| yielded := (emitted st ++ yielded r)%list;
             store := store r;
             raised := raised r |}
      end
  end.

(** [if pw_project and pw_project != project: continue]. *)
Definition filtered_out (pw_project : option string) (project : string)
  : bool :=
  match pw_project with
  | Some p => negb (p =? "") && negb (p =? project)
  | None => false
  end.

(** [CIProvider.__init__]: [self.sync_column = f"{name}_sync"]. *)
Definition sync_column_of (name : string) : string := name ++ "_sync".

(** [self.db.set_build_synced(...)] inside a loop body, after the body
    yielded [os]. *)
Definition mark_build {S} (s : S) (db : database) (os : list Outcome.t)
           (pw_instance : string) (patch_id : Z) (sync_column : string)
  : step S :=
  match set_build_synced db pw_instance patch_id sync_column with
  | Some db' => proceed s db' os
  | None => throw s db os OperationalError
  end.

(* ================================================================== *)
(** * [GitHubActionsProvider] *)

Module GitHub.

(** One element of [workflow_runs]. *)
Record workflow_run := {
  name : option string;
  run_started_at : option string;
  status : option string;
  conclusion : field string;
  html_url : option string
}.

(** The body of [GET {api_base}/repos/{repo}/actions/runs].  An empty
    object and an object without the key read the same to the code. *)
Record runs_page := {
  workflow_runs : option (list workflow_run)
}.

(** The backend, asked with the URL and the [branch] parameter. *)
Definition backend := string -> string -> response runs_page.

(** The loop variables [prev_series], [all_runs] and [prev_url]. *)
Record cache := {
  prev_series : option Z;
  all_runs : option runs_page;
  prev_url : option string
}.

Definition no_cache : cache :=
  {| prev_series := None; all_runs := None; prev_url := None |}.

(** [workflow_groups]: a dict in insertion order. *)
Definition groups := list (string * list workflow_run).

Fixpoint add_run (workflow_name : string) (r : workflow_run) (g : groups)
  : groups :=
  match g with
  | [] => [(workflow_name, [r])]
  | (n, rs) :: rest =>
      if n =? workflow_name then (n, (rs ++ [r])%list) :: rest
      else (n, rs) :: add_run workflow_name r rest
  end.

Fixpoint group_runs (runs : list workflow_run) (g : groups) : exn + groups :=
  match runs with
  | [] => inr g
  | r :: rest =>
      match name r with
      | Some workflow_name => group_runs rest (add_run workflow_name r g)
      | None => inl KeyError
      end
  end.

(** The sort keys [x['run_started_at']], computed for every run before
    any comparison. *)
Fixpoint started_keys (runs : list workflow_run)
  : exn + list (string * workflow_run) :=
  match runs with
  | [] => inr []
  | r :: rest =>
      match run_started_at r with
      | None => inl KeyError
      | Some k =>
          match started_keys rest with
          | inl e => inl e
          | inr ks => inr ((k, r) :: ks)
          end
      end
  end.

(** [sort(key=..., reverse=True)]: newest first, runs with equal keys in
    their original order. *)
Fixpoint insert_newest_first (x : string * workflow_run)
         (l : list (string * workflow_run)) : list (string * workflow_run) :=
  match l with
  | [] => [x]
  | y :: rest =>
      if String.leb (fst y) (fst x) then x :: l
      else y :: insert_newest_first x rest
  end.

Fixpoint newest_first (l : list (string * workflow_run))
  : list (string * workflow_run) :=
  match l with
  | [] => []
  | x :: rest => insert_newest_first x (newest_first rest)
  end.

Fixpoint sort_groups (g : groups) : exn + groups :=
  match g with
  | [] => inr []
  | (n, rs) :: rest =>
      match started_keys rs with
      | inl e => inl e
      | inr ks =>
          match sort_groups rest with
          | inl e => inl e
          | inr rest' => inr ((n, map snd (newest_first ks)) :: rest')
          end
      end
  end.

Definition outcome_of (pw_instance : string) (build : Build.row)
           (workflow_name result build_url : string) : Outcome.t :=
  {| Outcome.pw_instance := pw_instance;
     Outcome.series_id := Build.series_id build;
     Outcome.sha := Build.sha build;
     Outcome.result := result;
     Outcome.build_url := build_url;
     Outcome.patch_name := Build.patch_name build;
     Outcome.repo_name := Some (Build.repo_name build);
     Outcome.test_name := workflow_name;
     Outcome.patch_id := Some (Build.patch_id build) |}.

(** The loop over [workflow_groups.items()]: what it yields, and the
    exception that ends it early. *)
Fixpoint workflow_results (pw_instance : string) (build : Build.row)
         (g : groups) : list Outcome.t * option exn :=
  match g with
  | [] => ([], None)
  | (workflow_name, runs) :: rest =>
      match runs with
      | [] => ([], Some IndexError)
      | latest_run :: _ =>
          match status latest_run with
          | None => ([], Some KeyError)
          | Some st =>
              match conclusion latest_run with
              | Absent => ([], Some KeyError)
              | concl =>
                  match html_url latest_run with
                  | None => ([], Some KeyError)
                  | Some build_url =>
                      if negb (st =? "completed") then
                        workflow_results pw_instance build rest
                      else
                        let result :=
                          match concl with
                          | Value c =>
                              if c =? "success" then "passed" else "failed"
                          | _ => "failed"
                          end in
                        let '(os, e) :=
                          workflow_results pw_instance build rest in
                        (outcome_of pw_instance build workflow_name result
                                    build_url :: os, e)
                  end
              end
          end
      end
  end.

(** The part of the body after the fetch: from [if not all_runs ...] to
    [set_build_synced]. *)
Definition report (pw_instance sync_column : string) (c : cache)
           (build : Build.row) (db : database) : step cache :=
  match all_runs c with
  | None => proceed c db []
  | Some page =>
      match workflow_runs page with
      | None => proceed c db []
      | Some [] => proceed c db []
      | Some runs =>
          match group_runs runs [] with
          | inl e => throw c db [] e
          | inr g =>
              match sort_groups g with
              | inl e => throw c db [] e
              | inr sorted =>
                  match workflow_results pw_instance build sorted with
                  | (os, Some e) => throw c db os e
                  | (os, None) =>
                      mark_build c db os pw_instance (Build.patch_id build)
                                 sync_column
                  end
              end
          end
      end
  end.

Definition api_url (api_base : string) (build : Build.row) : string :=
  api_base ++ "/repos/" ++ Build.repo_name build ++ "/actions/runs".

Definition branch_of (series_id : Z) : string :=
  "series_" ++ str_of_int series_id.

(** The body of [for build in unsynced_builds]. *)
Definition body (api_base : string) (be : backend)
           (pw_instance : string) (pw_project : option string)
           (sync_column : string)
           (c : cache) (build : Build.row) (db : database) : step cache :=
  if filtered_out pw_project (Build.patchwork_project build) then
    proceed c db []
  else if eqb_opt_Z (prev_series c) (Build.series_id build) then
    report pw_instance sync_column c build db
  else
    let c1 := {| prev_series := Some (Build.series_id build);
                 all_runs := all_runs c;
                 prev_url := prev_url c |} in
    if eqb_opt_string (prev_url c) (api_url api_base build) then
      report pw_instance sync_column c1 build db
    else
      match be (api_url api_base build)
               (branch_of (Build.series_id build)) with
      | Failed =>
          proceed {| prev_series := Some (Build.series_id build);
                     all_runs := all_runs c;
                     prev_url := Some (api_url api_base build) |} db []
      | Body page =>
          report pw_instance sync_column
                 {| prev_series := Some (Build.series_id build);
                    all_runs := Some page;
                    prev_url := Some (api_url api_base build) |} build db
      end.

Definition get_build_results (api_base : string) (be : backend)
           (db : database) (pw_instance : string)
           (pw_project : option string) : run :=
  match get_unsynced_builds db pw_instance (sync_column_of "gap") with
  | None => {| yielded := []; store := db; raised := Some OperationalError |}
  | Some unsynced_builds =>
      for_each (body api_base be pw_instance pw_project
                     (sync_column_of "gap"))
               no_cache unsynced_builds db
  end.

End GitHub.

(* ================================================================== *)
(** * [TravisProvider] *)

Module Travis.

(** The [commit] object of a build. *)
Record commit := {
  commit_sha : option string        (* key [sha] *)
}.

(** One element of [builds]. *)
Record build := {
  state : option string;
  id : option Z;
  commit_of : option commit         (* key [commit] *)
}.

(** The body of [GET {api_base}/repos/{repo}/builds]. *)
Record builds_page := {
  builds : option (list build)
}.

(** The backend, asked with the URL and the [branch.name] parameter. *)
Definition backend := string -> string -> response builds_page.

Definition api_base : string := "https://api.travis-ci.com".

(** [data.get('builds', [])] of the decoded body; a failed request
    raises through. *)
Definition _get_builds_for_branch (be : backend) (repo : option string)
           (branch : string) : response (list build) :=
  match be (api_base ++ "/repos/" ++ str_of_text repo ++ "/builds") branch with
  | Failed => Failed
  | Body data =>
      Body (match builds data with
            | Some l => l
            | None => []
            end)
  end.

(** [build.get('commit', {}).get('sha', '')]. *)
Definition sha_of (b : build) : string :=
  match commit_of b with
  | Some c =>
      match commit_sha c with
      | Some s => s
      | None => ""
      end
  | None => ""
  end.

Definition finished (st : string) : bool :=
  is_in st ["failed"; "passed"; "errored"].

Definition result_of (st : string) : string :=
  if st =? "errored" then "failed" else st.

Definition outcome_of (pw_instance : string) (series_id : Z)
           (series_url : string) (travis_repo : option string)
           (b : build) (st : string) (build_id : Z) : Outcome.t :=
  {| Outcome.pw_instance := pw_instance;
     Outcome.series_id := series_id;
     Outcome.sha := sha_of b;
     Outcome.result := result_of st;
     Outcome.build_url :=
       "https://travis-ci.com/" ++ str_of_text travis_repo ++ "/builds/"
       ++ str_of_int build_id;
     Outcome.patch_name := series_url;
     Outcome.repo_name := travis_repo;
     Outcome.test_name := "";
     Outcome.patch_id := None |}.

(** The loop over [builds] up to its [break]: the outcome of the first
    build in a finished state, if the loop meets one. *)
Fixpoint first_finished (pw_instance : string) (series_id : Z)
         (series_url : string) (travis_repo : option string)
         (l : list build) : exn + option Outcome.t :=
  match l with
  | [] => inr None
  | b :: rest =>
      match state b with
      | None => inl KeyError
      | Some st =>
          if is_in st ["created"; "canceled"] then
            first_finished pw_instance series_id series_url travis_repo rest
          else if finished st then
            match id b with
            | None => inl KeyError
            | Some build_id =>
                inr (Some (outcome_of pw_instance series_id series_url
                                      travis_repo b st build_id))
            end
          else
            first_finished pw_instance series_id series_url travis_repo rest
      end
  end.

(** The body of [for ... in active_branches]. *)
Definition body (be : backend) (pw_instance : string)
           (pw_project : option string)
           (s : unit) (a : branch_row) (db : database) : step unit :=
  let '(series_id, project, series_url, branchname, travis_repo) := a in
  if filtered_out pw_project project then proceed s db []
  else
    match _get_builds_for_branch be travis_repo branchname with
    | Failed => proceed s db []
    | Body l =>
        match first_finished pw_instance series_id series_url travis_repo l
        with
        | inl e => throw s db [] e
        | inr None => proceed s db []
        | inr (Some o) =>
            proceed s (clear_series_branch db pw_instance series_id) [o]
        end
    end.

Definition get_build_results (be : backend) (db : database)
           (pw_instance : string) (pw_project : option string) : run :=
  for_each (body be pw_instance pw_project) tt
           (get_active_branches db pw_instance) db.

End Travis.

(* ================================================================== *)
(** * [CirrusProvider] *)

Module Cirrus.

(** One element of [tasks]. *)
Record task := {
  task_status : option string       (* key [status] *)
}.

(** The [node] of an edge. *)
Record node := {
  id : option string;
  status : option string;
  tasks : option (list task)
}.

Record edge := {
  node_of : option node             (* key [node] *)
}.

Record builds := {
  edges : option (list edge)
}.

Record repository := {
  builds_of : option builds         (* key [builds] *)
}.

Record data := {
  ownerRepository : field repository
}.

(** The body of the GraphQL reply. *)
Record reply := {
  data_of : field data              (* key [data] *)
}.

(** The backend, asked with the variables [owner], [name], [branch]. *)
Definition backend := string -> string -> string -> response reply.

(** [data.get('data', {}).get('ownerRepository', {}).get('builds', {})
    .get('edges', [])]: a default stands in for an absent key, not for a
    [null]. *)
Definition builds_data (r : reply) : exn + list edge :=
  match data_of r with
  | Null => inl AttributeError
  | Absent => inr []
  | Value d =>
      match ownerRepository d with
      | Null => inl AttributeError
      | Absent => inr []
      | Value repo =>
          match builds_of repo with
          | None => inr []
          | Some b =>
              match edges b with
              | None => inr []
              | Some l => inr l
              end
          end
      end
  end.

(** [[task for task in node.get('tasks', []) if task['status'] ==
    'FAILED']]. *)
Fixpoint failed_tasks (l : list task) : exn + list task :=
  match l with
  | [] => inr []
  | t :: rest =>
      match task_status t with
      | None => inl KeyError
      | Some s =>
          match failed_tasks rest with
          | inl e => inl e
          | inr fs => inr (if s =? "FAILED" then t :: fs else fs)
          end
      end
  end.

Definition outcome_of (pw_instance : string) (build : Build.row)
           (result node_id : string) : Outcome.t :=
  {| Outcome.pw_instance := pw_instance;
     Outcome.series_id := Build.series_id build;
     Outcome.sha := Build.sha build;
     Outcome.result := result;
     Outcome.build_url := "https://cirrus-ci.com/build/" ++ node_id;
     Outcome.patch_name := Build.patch_name build;
     Outcome.repo_name := Some (Build.repo_name build);
     Outcome.test_name := "cirrus-ci";
     Outcome.patch_id := Some (Build.patch_id build) |}.

(** The loop over [builds_data] up to its [break]. *)
Fixpoint first_completed (pw_instance : string) (build : Build.row)
         (l : list edge) : exn + option Outcome.t :=
  match l with
  | [] => inr None
  | e :: rest =>
      match node_of e with
      | None => inl KeyError
      | Some n =>
          match status n with
          | None => inl KeyError
          | Some st =>
              if st =? "COMPLETED" then
                match failed_tasks (match tasks n with
                                    | Some ts => ts
                                    | None => []
                                    end) with
                | inl x => inl x
                | inr fs =>
                    match id n with
                    | None => inl KeyError
                    | Some node_id =>
                        inr (Some (outcome_of pw_instance build
                                     (match fs with
                                      | [] => "passed"
                                      | _ :: _ => "failed"
                                      end)
                                     node_id))
                    end
                end
              else first_completed pw_instance build rest
          end
      end
  end.

Definition branch_of (series_id : Z) : string :=
  "series_" ++ str_of_int series_id.

(** The body of [for build in unsynced_builds]. *)
Definition body (be : backend) (pw_instance : string)
           (pw_project : option string) (sync_column : string)
           (s : unit) (build : Build.row) (db : database) : step unit :=
  if filtered_out pw_project (Build.patchwork_project build) then
    proceed s db []
  else
    match split "/" (Build.repo_name build) with
    | [owner; name] =>
        match be owner name (branch_of (Build.series_id build)) with
        | Failed => proceed s db []
        | Body r =>
            match builds_data r with
            | inl e => throw s db [] e
            | inr l =>
                match first_completed pw_instance build l with
                | inl e => throw s db [] e
                | inr None => proceed s db []
                | inr (Some o) =>
                    mark_build s db [o] pw_instance (Build.patch_id build)
                               sync_column
                end
            end
        end
    | _ => proceed s db []
    end.

Definition get_build_results (be : backend) (db : database)
           (pw_instance : string) (pw_project : option string) : run :=
  match get_unsynced_builds db pw_instance (sync_column_of "cirrus") with
  | None => {| yielded := []; store := db; raised := Some OperationalError |}
  | Some unsynced_builds =>
      for_each (body be pw_instance pw_project (sync_column_of "cirrus"))
               tt unsynced_builds db
  end.

End Cirrus.

(* ================================================================== *)
(** * [DummyProvider] *)

Module Dummy.

Definition outcome_of (pw_instance : string) (build : Build.row)
  : Outcome.t :=
  {| Outcome.pw_instance := pw_instance;
     Outcome.series_id := Build.series_id build;
     Outcome.sha := Build.sha build;
     Outcome.result := "passed";
     Outcome.build_url := "https://example.com/dummy-build";
     Outcome.patch_name := Build.patch_name build;
     Outcome.repo_name := Some (Build.repo_name build);
     Outcome.test_name := "dummy-test";
     Outcome.patch_id := Some (Build.patch_id build) |}.

(** The body of [for build in unsynced_builds]. *)
Definition body (pw_instance : string) (pw_project : option string)
           (sync_column : string)
           (s : unit) (build : Build.row) (db : database) : step unit :=
  if filtered_out pw_project (Build.patchwork_project build) then
    proceed s db []
  else
    mark_build s db [outcome_of pw_instance build] pw_instance
               (Build.patch_id build) sync_column.

Definition get_build_results (db : database) (pw_instance : string)
           (pw_project : option string) : run :=
  match get_unsynced_builds db pw_instance (sync_column_of "dummy") with
  | None => {| yielded := []; store := db; raised := Some OperationalError |}
  | Some unsynced_builds =>
      for_each (body pw_instance pw_project (sync_column_of "dummy"))
               tt unsynced_builds db
  end.

End Dummy.

(* ================================================================== *)
(** * The provider interface *)

(** The four variants [create_provider] builds; a GitHub provider
    carries its [api_base]. *)
Inductive provider :=
| GitHubActionsProvider (api_base : string)
| TravisProvider
| CirrusProvider
| DummyProvider.

Definition name (p : provider) : string :=
  match p with
  | GitHubActionsProvider _ => "gap"
  | TravisProvider => "travis"
  | CirrusProvider => "cirrus"
  | DummyProvider => "dummy"
  end.

Definition sync_column (p : provider) : string := sync_column_of (name p).

(** What the three CI services answer during one call. *)
Record backends := {
  github : GitHub.backend;
  travis : Travis.backend;
  cirrus : Cirrus.backend
}.

Definition get_build_results (p : provider) (be : backends) (db : database)
           (pw_instance : string) (pw_project : option string) : run :=
  match p with
  | GitHubActionsProvider api_base =>
      GitHub.get_build_results api_base (github be) db pw_instance pw_project
  | TravisProvider =>
      Travis.get_build_results (travis be) db pw_instance pw_project
  | CirrusProvider =>
      Cirrus.get_build_results (cirrus be) db pw_instance pw_project
  | DummyProvider =>
      Dummy.get_build_results db pw_instance pw_project
  end.

(** Successive calls of [get_build_results] on one provider and one
    instance, each against what the backends answer at that time and
    each starting from the store the previous call left. *)
Fixpoint poll (p : provider) (pw_instance : string)
         (cycles : list (backends * option string)) (db : database)
  : list run :=
  match cycles with
  | [] => []
  | (be, pw_project) :: rest =>
      let r := get_build_results p be db pw_instance pw_project in
      r :: poll p pw_instance rest (store r)
  end.

(* ================================================================== *)
(** * The discovery pass of [PatchworkMonitor] *)

Module Patchwork.

(** The [submitter] object of a series. *)
Record submitter := {
  name : option string;
  email : option string
}.

(** The body of [GET /api/series/{id}/], as far as the pass reads it. *)
Record series_data := {
  url : option string;
  submitter_of : option submitter;  (* key [submitter] *)
  received_all : option bool
}.

(** A [series-created] event: [event['payload']['series']['id']]. *)
Record event := {
  payload_series_id : option Z
}.

(** [PatchworkClient], as the pass uses it. *)
Record client := {
  get_series_events : string -> response (list event);
  get_series : Z -> response series_data
}.

(** [PatchworkMonitor]: the attributes [db], [project] and [instance]
    are passed explicitly. *)
Definition emit_series (db : database) (instance project : string)
           (series_id : Z) (url submitter_name submitter_email : string)
           (all_received : bool) : database :=
  if negb (series_exists db instance series_id) then
    add_series db instance project series_id url submitter_name
               submitter_email all_received
  else db.

(** [series_data.get('received_all', False)]. *)
Definition all_received_of (d : series_data) : bool :=
  match received_all d with
  | Some b => b
  | None => false
  end.

(** The body of [for event in events]: the store it leaves and the
    exception it lets through. *)
Definition on_event (c : client) (instance project : string)
           (db : database) (ev : event) : database * option exn :=
  match payload_series_id ev with
  | None => (db, Some KeyError)
  | Some series_id =>
      match get_series c series_id with
      | Failed => (db, None)
      | Body d =>
          match url d with
          | None => (db, Some KeyError)
          | Some u =>
              match submitter_of d with
              | None => (db, Some KeyError)
              | Some s =>
                  match name s with
                  | None => (db, Some KeyError)
                  | Some n =>
                      match email s with
                      | None => (db, Some KeyError)
                      | Some e =>
                          (emit_series db instance project series_id u n e
                                       (all_received_of d), None)
                      end
                  end
              end
          end
      end
  end.

Fixpoint on_events (c : client) (instance project : string)
         (db : database) (events : list event) : database * option exn :=
  match events with
  | [] => (db, None)
  | ev :: rest =>
      match on_event c instance project db ev with
      | (db', Some e) => (db', Some e)
      | (db', None) => on_events c instance project db' rest
      end
  end.

(** [check_new_series], without the timestamp file. *)
Definition check_new_series (c : client) (instance project : string)
           (db : database) : database * option exn :=
  match get_series_events c project with
  | Failed => (db, None)
  | Body events => on_events c instance project db events
  end.

End Patchwork.

(* ================================================================== *)
(** * Predicates the properties are stated with *)

(** A text column reads as empty when it is [NULL] or [''] . *)
Definition is_empty (o : option string) : bool :=
  match o with
  | None => true
  | Some s => s =? ""
  end.

(** [branch] and [repo] are both empty or both set. *)
Definition branch_repo_paired (r : Series.row) : bool :=
  Bool.eqb (is_empty (Series.series_branch r))
           (is_empty (Series.series_repo r)).

(** Ascending [series_id]. *)
Definition series_id_le (a b : Build.row) : Prop :=
  Build.series_id a <= Build.series_id b.

(** A pass of a body either leaves the build table as it is, or marks
    one patch of the instance in one column. *)
Definition marks_at_most (pw_instance : string) (db db' : database) : Prop :=
  git_builds db' = git_builds db
  \/ exists p ci_type, set_build_synced db pw_instance p ci_type = Some db'.

(** Every [git_builds] row of the patch carries the flag of column [c]. *)
Definition synced (c : sync_col) (instance : string) (patch_id : Z)
           (db : database) : Prop :=
  forall b, In b (git_builds db) ->
            Build.patchwork_instance b = instance ->
            Build.patch_id b = patch_id ->
            sync_flag c b = 1.

(** A call of a provider that reads the queue of column [c]: it keeps
    synced patches synced, it marks what it yields for when it ends
    normally, and it yields nothing for a patch that is synced. *)
Definition consumes_queue (p : provider) (c : sync_col) : Prop :=
  sync_column p = column_name c
  /\ forall be db pw_instance pw_project,
       let r := get_build_results p be db pw_instance pw_project in
       (forall patch_id,
           synced c pw_instance patch_id db ->
           synced c pw_instance patch_id (store r)
           /\ forall o, In o (yielded r) ->
                        Outcome.patch_id o <> Some patch_id)
       /\ (forall o patch_id,
              raised r = None -> In o (yielded r) ->
              Outcome.patch_id o = Some patch_id ->
              synced c pw_instance patch_id (store r)).

(* ================================================================== *)
(** * Concrete stores and backends

    The data of the repository's tests ([tests/test_database.py],
    [test_github_integration.py]), used to run the model. *)

Module Scenario.

Definition instance : string := "https://patchwork.example.com".

Definition project : string := "testproject".

(** Series 12345, recorded as incomplete. *)
Definition tracked : database :=
  add_series empty_database instance project 12345
             "https://patchwork.example.com/api/series/12345/"
             "Test User" "test@example.com" false.

(** ... with a branch under CI ... *)
Definition dispatched : database :=
  set_series_branch tracked instance 12345 "owner/repo" "series_12345".

(** ... and with the branch released again. *)
Definition released : database :=
  clear_series_branch dispatched instance 12345.

(** Series 12345, marked completed. *)
Definition complete : database :=
  set_series_completed tracked instance 12345.

(** A tracker that announces series 12345 with all patches received. *)
Definition tracker : Patchwork.client :=
  {| Patchwork.get_series_events :=
       fun _ => Body [{| Patchwork.payload_series_id := Some 12345 |}];
     Patchwork.get_series :=
       fun _ =>
         Body {| Patchwork.url :=
                   Some "https://patchwork.example.com/api/series/12345/";
                 Patchwork.submitter_of :=
                   Some {| Patchwork.name := Some "Test User";
                           Patchwork.email := Some "test@example.com" |};
                 Patchwork.received_all := Some true |} |}.

(** One build of series 1000 waiting for CI ... *)
Definition queued : database :=
  insert_build empty_database 1000 100001
               "https://patchwork.example.com/api/patches/100001/"
               "[PATCH 1/3] Test patch 1" "abc1001001" instance project
               "owner/repo".

(** ... and one of series 1001 after it. *)
Definition queued2 : database :=
  insert_build queued 1001 100101
               "https://patchwork.example.com/api/patches/100101/"
               "[PATCH 1/2] DPDK test patch 1" "abc1002001" instance project
               "dpdk/dpdk".

Definition patch_100001 : Build.row :=
  new_build_row 1000 100001
                "https://patchwork.example.com/api/patches/100001/"
                "[PATCH 1/3] Test patch 1" "abc1001001" instance project
                "owner/repo".

Definition patch_100101 : Build.row :=
  new_build_row 1001 100101
                "https://patchwork.example.com/api/patches/100101/"
                "[PATCH 1/2] DPDK test patch 1" "abc1002001" instance project
                "dpdk/dpdk".

Definition completed_run (workflow conclusion : string)
  : GitHub.workflow_run :=
  {| GitHub.name := Some workflow;
     GitHub.run_started_at := Some "2024-01-01T00:00:00Z";
     GitHub.status := Some "completed";
     GitHub.conclusion := Value conclusion;
     GitHub.html_url :=
       Some "https://github.com/owner/repo/actions/runs/1" |}.

Definition run_in_progress (workflow : string) : GitHub.workflow_run :=
  {| GitHub.name := Some workflow;
     GitHub.run_started_at := Some "2024-01-01T00:00:00Z";
     GitHub.status := Some "in_progress";
     GitHub.conclusion := Null;
     GitHub.html_url :=
       Some "https://github.com/owner/repo/actions/runs/2" |}.

(** A run object that lacks the key [status]. *)
Definition run_without_status (workflow : string) : GitHub.workflow_run :=
  {| GitHub.name := Some workflow;
     GitHub.run_started_at := Some "2024-01-01T00:00:00Z";
     GitHub.status := None;
     GitHub.conclusion := Null;
     GitHub.html_url :=
       Some "https://github.com/owner/repo/actions/runs/3" |}.

Definition github_answering (runs : list GitHub.workflow_run)
  : GitHub.backend :=
  fun _ _ => Body {| GitHub.workflow_runs := Some runs |}.

(** GitHub fails for the branch of series 1000 and answers for every
    other branch. *)
Definition github_failing_1000 : GitHub.backend :=
  fun _ branch =>
    if branch =? "series_1000" then Failed
    else Body {| GitHub.workflow_runs :=
                   Some [completed_run "Build" "success"] |}.

Definition travis_down : Travis.backend := fun _ _ => Failed.

Definition cirrus_down : Cirrus.backend := fun _ _ _ => Failed.

Definition github_down : GitHub.backend := fun _ _ => Failed.

Definition with_github (gh : GitHub.backend) : backends :=
  {| github := gh; travis := travis_down; cirrus := cirrus_down |}.

Definition with_travis (tr : Travis.backend) : backends :=
  {| github := github_down; travis := tr; cirrus := cirrus_down |}.

Definition with_cirrus (ci : Cirrus.backend) : backends :=
  {| github := github_down; travis := travis_down; cirrus := ci |}.

Definition travis_build (state : string) (id : Z) (sha : string)
  : Travis.build :=
  {| Travis.state := Some state;
     Travis.id := Some id;
     Travis.commit_of := Some {| Travis.commit_sha := Some sha |} |}.

(** Travis reports a build just created, then an errored one, then a
    passed one. *)
Definition travis_errored : Travis.backend :=
  fun _ _ =>
    Body {| Travis.builds :=
              Some [travis_build "created" 3 "abc3";
                    travis_build "errored" 2 "abc2";
                    travis_build "passed" 1 "abc1"] |}.

Definition cirrus_reply (l : list Cirrus.edge) : Cirrus.reply :=
  {| Cirrus.data_of :=
       Value {| Cirrus.ownerRepository :=
                  Value {| Cirrus.builds_of :=
                             Some {| Cirrus.edges := Some l |} |} |} |}.

Definition cirrus_completed : Cirrus.edge :=
  {| Cirrus.node_of :=
       Some {| Cirrus.id := Some "5000";
               Cirrus.status := Some "COMPLETED";
               Cirrus.tasks := Some [{| Cirrus.task_status :=
                                          Some "COMPLETED" |}] |} |}.

(** Cirrus does not know the repository of series 1000
    ([ownerRepository] is [null]) and reports a completed build for
    every other branch. *)
Definition cirrus_unknown_1000 : Cirrus.backend :=
  fun _ _ branch =>
    if branch =? "series_1000" then
      Body {| Cirrus.data_of := Value {| Cirrus.ownerRepository := Null |} |}
    else Body (cirrus_reply [cirrus_completed]).

(** Cirrus sends a node without [status] for series 1000. *)
Definition cirrus_partial_1000 : Cirrus.backend :=
  fun _ _ branch =>
    if branch =? "series_1000" then
      Body (cirrus_reply
              [{| Cirrus.node_of :=
                    Some {| Cirrus.id := Some "4999";
                            Cirrus.status := None;
                            Cirrus.tasks := None |} |}])
    else Body (cirrus_reply [cirrus_completed]).

(** Cirrus fails for series 1000 and reports a completed build for
    every other branch. *)
Definition cirrus_failing_1000 : Cirrus.backend :=
  fun _ _ branch =>
    if branch =? "series_1000" then Failed
    else Body (cirrus_reply [cirrus_completed]).

(** Cirrus reports a build that is still executing. *)
Definition cirrus_executing : Cirrus.backend :=
  fun _ _ _ =>
    Body (cirrus_reply
            [{| Cirrus.node_of :=
                  Some {| Cirrus.id := Some "5001";
                          Cirrus.status := Some "EXECUTING";
                          Cirrus.tasks := None |} |}]).

(** Series 1000 and 1001 both built in [owner/repo]. *)
Definition queued_same_repo : database :=
  insert_build queued 1001 100102
               "https://patchwork.example.com/api/patches/100102/"
               "[PATCH 2/2] DPDK test patch 2" "abc1002002" instance project
               "owner/repo".

(** GitHub reports a completed run on the branch of series 1000 and a
    run in progress on every other branch. *)
Definition github_1000_done : GitHub.backend :=
  fun _ branch =>
    if branch =? "series_1000" then
      Body {| GitHub.workflow_runs :=
                Some [completed_run "Build" "success"] |}
    else
      Body {| GitHub.workflow_runs := Some [run_in_progress "Build"] |}.

End Scenario.

(* ================================================================== *)
(** * The later passes of [PatchworkMonitor] *)

Module Monitor.

(** The body of [for ... in uncompleted] in [check_completed_series]:
    [get_series] is read for [received_all] only, and a failed request
    is skipped. *)
Definition on_uncompleted (c : Patchwork.client) (instance : string)
           (db : database) (t : Z * string * string * string) : database :=
  let '(series_id, _, _, _) := t in
  match Patchwork.get_series c series_id with
  | Failed => db
  | Body d =>
      if Patchwork.all_received_of d then
        set_series_completed db instance series_id
      else db
  end.

(** [check_completed_series]: the list is read once, before the loop. *)
Definition check_completed_series (c : Patchwork.client)
           (instance project : string) (db : database) : database :=
  fold_left (on_uncompleted c instance)
            (get_uncompleted_series db instance project) db.

(** One element of [series_data['patches']]. *)
Record patch_ref := {
  ref_id : option Z;                (* key [id] *)
  ref_url : option string           (* key [url] *)
}.

(** The body of [GET <patch url>], as far as the engine reads it. *)
Record patch_data := {
  id : option Z;
  url : option string;
  state : option string;
  submitter_email : option string;  (* [['submitter']['email']] *)
  email : option string;
  message_id : option string
}.

(** The body of [GET /api/series/{id}/], read for its patches. *)
Record series_data := {
  patches : option (list patch_ref)
}.

(** [PatchworkClient], as the branch pass and the CI monitor use it. *)
Record client := {
  get_series : Z -> response series_data;
  get_patch : string -> response patch_data
}.

(** The patch states that release a branch. *)
Definition final_states : list string :=
  ["superseded"; "rejected"; "accepted"; "changes-requested";
   "not-applicable"].

(** [patch_data.get('state', '')]. *)
Definition state_of (p : patch_data) : string :=
  match state p with
  | Some s => s
  | None => ""
  end.

(** The body of [for ... in active_branches] in
    [check_superseded_series]: the store it leaves and the exception it
    lets through. *)
Definition on_branch (c : client) (instance : string) (db : database)
           (a : branch_row) : database * option exn :=
  let '(series_id, _, _, _, _) := a in
  match get_series c series_id with
  | Failed => (db, None)
  | Body d =>
      match patches d with
      | None => (db, None)
      | Some [] => (db, None)
      | Some (p :: ps) =>
          match ref_url (last ps p) with
          | None => (db, Some KeyError)
          | Some u =>
              match get_patch c u with
              | Failed => (db, None)
              | Body pd =>
                  if is_in (state_of pd) final_states then
                    (clear_series_branch db instance series_id, None)
                  else (db, None)
              end
          end
      end
  end.

Fixpoint on_branches (c : client) (instance : string) (db : database)
         (l : list branch_row) : database * option exn :=
  match l with
  | [] => (db, None)
  | a :: rest =>
      match on_branch c instance db a with
      | (db', Some e) => (db', Some e)
      | (db', None) => on_branches c instance db' rest
      end
  end.

(** [check_superseded_series]: the list is read once, before the loop. *)
Definition check_superseded_series (c : client) (instance : string)
           (db : database) : database * option exn :=
  on_branches c instance db (get_active_branches db instance).

End Monitor.

(* ================================================================== *)
(** * [CIMonitor] and [EmailReporter] *)

Module CIMonitor.

(** The first loop of [get_patch_data]: the patches with the wanted id,
    in order, until one can be fetched. *)
Fixpoint by_id (c : Monitor.client) (patch_id : Z)
         (l : list Monitor.patch_ref) : exn + option Monitor.patch_data :=
  match l with
  | [] => inr None
  | p :: rest =>
      match Monitor.ref_id p with
      | None => inl KeyError
      | Some i =>
          if (i =? patch_id)%Z then
            match Monitor.ref_url p with
            | None => inl KeyError
            | Some u =>
                match Monitor.get_patch c u with
                | Body d => inr (Some d)
                | Failed => by_id c patch_id rest
                end
            end
          else by_id c patch_id rest
      end
  end.

(** The second part of [get_patch_data]: the last patch. *)
Definition last_patch (c : Monitor.client) (l : list Monitor.patch_ref)
  : exn + option Monitor.patch_data :=
  match l with
  | [] => inr None
  | p :: ps =>
      match Monitor.ref_url (last ps p) with
      | None => inl KeyError
      | Some u =>
          match Monitor.get_patch c u with
          | Body d => inr (Some d)
          | Failed => inr None
          end
      end
  end.

(** [get_patch_data]; [series_data] is [None] for a series that could
    not be fetched, and [shasum] is not read. *)
Definition get_patch_data (c : Monitor.client)
           (series_data : option Monitor.series_data) (patch_id : option Z)
  : exn + option Monitor.patch_data :=
  match series_data with
  | None => inr None
  | Some sd =>
      match Monitor.patches sd with
      | None => inr None
      | Some l =>
          match patch_id with
          | None => last_patch c l
          | Some wanted =>
              if (wanted =? 0)%Z then last_patch c l
              else
                match by_id c wanted l with
                | inl e => inl e
                | inr (Some d) => inr (Some d)
                | inr None => last_patch c l
                end
          end
      end
  end.

(** [EmailReporter.status_map.get(result, 'WARNING')]. *)
Definition status_of (result : string) : string :=
  if result =? "passed" then "SUCCESS"
  else if result =? "failed" then "FAILURE"
  else "WARNING".

(** How an f-string prints the [patch_id] of an outcome. *)
Definition str_of_patch_id (p : option Z) : string :=
  match p with
  | Some n => str_of_int n
  | None => "None"
  end.

(** A text that Python reads as true. *)
Definition truthy (o : option string) : bool := negb (is_empty o).

Definition text_or_empty (o : option string) : string :=
  match o with
  | Some s => s
  | None => ""
  end.

(** The lines of [generate_report_email] before they are joined; the
    build result is an outcome of a provider, and [date] stands for the
    formatted [datetime.now()]. *)
Definition report_lines (from_addr to_addr date : string)
           (build_result : Outcome.t) (patch_data : Monitor.patch_data)
           (cc_author : bool) : list string :=
  let result := Outcome.result build_result in
  let result_status := status_of result in
  let ci_name := Outcome.test_name build_result in
  let test_label :=
    if negb (ci_name =? "") then ci_name ++ "-robot" else ci_name in
  let to_line := "To: " ++ to_addr in
  let from_line := "From: " ++ from_addr in
  let cc_line := "Cc: " ++ text_or_empty (Monitor.email patch_data) in
  let subject_line :=
    "Subject: |" ++ result_status ++ "| pw"
    ++ str_of_patch_id (Outcome.patch_id build_result) ++ " "
    ++ Outcome.patch_name build_result in
  let date_line := "Date: " ++ date in
  let reply_line :=
    "In-Reply-To: " ++ text_or_empty (Monitor.message_id patch_data) in
  let references_line :=
    "References: " ++ text_or_empty (Monitor.message_id patch_data) in
  let label_line := "Test-Label: " ++ test_label in
  let status_line := "Test-Status: " ++ result_status in
  let build_line := "_" ++ ci_name ++ " build: " ++ result ++ "_" in
  let url_line := "Build URL: " ++ Outcome.build_url build_result in
  ([to_line; from_line]
   ++ (if cc_author && negb (result =? "passed")
          && truthy (Monitor.email patch_data)
       then [cc_line] else [])
   ++ [subject_line; date_line]
   ++ (if truthy (Monitor.message_id patch_data)
       then [reply_line; references_line] else [])
   ++ [""]
   ++ [label_line; status_line; text_or_empty (Monitor.url patch_data); "";
       build_line; url_line])%list.

(** ["\n".join(email_lines)]. *)
Definition generate_report_email (from_addr to_addr date : string)
           (build_result : Outcome.t) (patch_data : Monitor.patch_data)
           (cc_author : bool) : string :=
  String.concat (String "010"%char "")
                (report_lines from_addr to_addr date build_result patch_data
                              cc_author).

(** The command line [send_email_via_git] builds. *)
Definition send_email_command (dry_run : bool) (to_addr : string)
           (cc_recipients : option (list string)) : list string :=
  let to_arg := "--to=" ++ to_addr in
  (["git"; "send-email"]
   ++ (if dry_run then ["--dry-run"] else [])
   ++ ["--suppress-from"; to_arg]
   ++ match cc_recipients with
      | Some l => map (fun cc => String.append "--cc=" cc) l
      | None => []
      end
   ++ ["report.eml"])%list.

(** [process_build_result] from the URL filter to the first
    [send_email_via_git], with no [patch_url_filter] configured:
    the mail and the command that sends it.  [log_output] is what
    [get_log_output] returned. *)
Definition notification (from_addr to_addr date : string) (dry_run : bool)
           (log_output : string)
           (build_result : Outcome.t) (patch_data : Monitor.patch_data)
  : exn + string * list string :=
  match Monitor.url patch_data with
  | None => inl KeyError
  | Some _ =>
      match Monitor.id patch_data with
      | None => inl KeyError
      | Some _ =>
          let cc_author := negb (Outcome.result build_result =? "passed") in
          let report :=
            generate_report_email from_addr to_addr date build_result
                                  patch_data cc_author in
          let email_content :=
            if log_output =? "" then report
            else report ++ String "010"%char "" ++ log_output in
          if cc_author then
            match Monitor.submitter_email patch_data with
            | Some e =>
                inr (email_content,
                     send_email_command dry_run to_addr (Some [e]))
            | None => inl KeyError
            end
          else inr (email_content, send_email_command dry_run to_addr None)
      end
  end.

End CIMonitor.

(* ================================================================== *)
(** * Further predicates *)

(** The composite key of a series row. *)
Definition series_key (r : Series.row) : string * Z :=
  (Series.series_instance r, Series.series_id r).

(** The first of the four columns the lifecycle queries return. *)
Definition summary_series_id (t : Z * string * string * string) : Z :=
  let '(series_id, _, _, _) := t in series_id.

(** What the discovery pass may do to a store. *)
Definition grown (instance project : string) (db db' : database) : Prop :=
  git_builds db' = git_builds db
  /\ (exists added,
         series db' = (series db ++ added)%list
         /\ Forall (fun r => Series.series_instance r = instance
                             /\ Series.series_project r = project
                             /\ Series.series_submitted r = 0
                             /\ Series.series_downloaded r = 0
                             /\ Series.series_branch r = None
                             /\ Series.series_repo r = None) added)
  /\ (NoDup (map series_key (series db)) ->
      NoDup (map series_key (series db'))).

(** What the completion pass may do to a series row: nothing, or set
    [completed] on a row of the instance whose series the tracker
    reports as fully received. *)
Definition completed_by (c : Patchwork.client) (instance : string)
           (r r' : Series.row) : Prop :=
  r' = r
  \/ (r' = mark_completed r
      /\ Series.series_instance r = instance
      /\ exists d,
          Patchwork.get_series c (Series.series_id r) = Body d
          /\ Patchwork.all_received_of d = true).

(** The tracker shows the last patch of the series in a final state. *)
Definition last_patch_final (c : Monitor.client) (series_id : Z) : Prop :=
  exists d p ps u pd,
    Monitor.get_series c series_id = Body d
    /\ Monitor.patches d = Some (p :: ps)
    /\ Monitor.ref_url (last ps p) = Some u
    /\ Monitor.get_patch c u = Body pd
    /\ is_in (Monitor.state_of pd) Monitor.final_states = true.

(** What the branch pass may do to a series row: nothing, or empty the
    branch of a row of the instance whose last patch is final. *)
Definition released_by (c : Monitor.client) (instance : string)
           (r r' : Series.row) : Prop :=
  r' = r
  \/ (r' = put_branch (Some "") (Series.series_repo r) r
      /\ Series.series_instance r = instance
      /\ last_patch_final c (Series.series_id r)).

(** The outcome carries the identity of the build row it was made for. *)
Definition made_for (pw_instance : string) (build : Build.row)
           (o : Outcome.t) : Prop :=
  Outcome.pw_instance o = pw_instance
  /\ Outcome.series_id o = Build.series_id build
  /\ Outcome.patch_id o = Some (Build.patch_id build)
  /\ Outcome.sha o = Build.sha build
  /\ Outcome.patch_name o = Build.patch_name build
  /\ Outcome.repo_name o = Some (Build.repo_name build).

(** The canonical result vocabulary. *)
Definition binary_result (o : Outcome.t) : Prop :=
  Outcome.result o = "passed" \/ Outcome.result o = "failed".

(** What a provider may do to a build row: nothing, or set the flag of
    its column on a row of the instance. *)
Definition marked_by (c : sync_col) (pw_instance : string)
           (b b' : Build.row) : Prop :=
  b' = b
  \/ (b' = mark_synced c b /\ Build.patchwork_instance b = pw_instance).

(** What the Travis provider may do to a series row: nothing, or empty
    the branch of a row of the instance. *)
Definition branch_cleared (pw_instance : string) (r r' : Series.row)
  : Prop :=
  r' = r
  \/ (r' = put_branch (Some "") (Series.series_repo r) r
      /\ Series.series_instance r = pw_instance).

(** The store a pass of a queue body leaves: the one it found, or that
    one with the build's patch marked in the provider's column. *)
Definition body_store (c : sync_col) (pw_instance : string)
           (build : Build.row) (db db' : database) : Prop :=
  db' = db
  \/ set_build_synced db pw_instance (Build.patch_id build) (column_name c)
     = Some db'.

(** A grouping of [runs] by workflow name, as [workflow_groups] holds
    it: one group per name, every group non-empty and made of runs of
    that name, every named run in the group of its name. *)
Definition grouped (runs : list GitHub.workflow_run) (g : GitHub.groups)
  : Prop :=
  NoDup (map fst g)
  /\ (forall n rs r, In (n, rs) g -> In r rs ->
                     GitHub.name r = Some n /\ In r runs)
  /\ (forall r n, In r runs -> GitHub.name r = Some n ->
                  exists rs, In (n, rs) g /\ In r rs).

(** Newest first. *)
Definition not_older (a b : string * GitHub.workflow_run) : Prop :=
  String.leb (fst b) (fst a) = true.

(** A patch of the series that does not serve a request for patch
    [wanted]: it has an id, and if that is the wanted one, it has a URL
    and the request for it fails. *)
Definition passed_over (c : Monitor.client) (wanted : Z)
           (p : Monitor.patch_ref) : Prop :=
  exists i,
    Monitor.ref_id p = Some i
    /\ (i = wanted ->
        exists u, Monitor.ref_url p = Some u
                  /\ Monitor.get_patch c u = Failed).

(** [PatchworkMonitor.run_full_check] with no recheck filters: the
    three passes in order, an exception of one ending the cycle.  The
    two clients are the two readings of the one [PatchworkClient]. *)
Definition run_full_check (c : Patchwork.client) (m : Monitor.client)
           (instance project : string) (db : database)
  : database * option exn :=
  match Patchwork.check_new_series c instance project db with
  | (db1, Some e) => (db1, Some e)
  | (db1, None) =>
      Monitor.check_superseded_series
        m instance (Monitor.check_completed_series c instance project db1)
  end.

(* ================================================================== *)
(** * The [STRING] columns of [git_builds], as SQLite holds them *)

Module Sqlite.

(** A cell of a column declared [STRING].  Declared so, the column has
    NUMERIC affinity: it keeps a text that is not a well-formed number
    and stores the number otherwise.  Python reads a [Text] back as a
    [str] and an [Integer] as an [int]. *)
Inductive cell :=
| Text (s : string)
| Integer (z : Z).

Definition cell_eqb (a b : cell) : bool :=
  match a, b with
  | Text s, Text t => s =? t
  | Integer x, Integer y => (x =? y)%Z
  | _, _ => false
  end.

Definition is_digit (c : ascii) : bool :=
  (48 <=? N_of_ascii c)%N && (N_of_ascii c <=? 57)%N.

(** Space, tab, line feed, vertical tab, form feed, carriage return. *)
Definition is_space (c : ascii) : bool :=
  (N_of_ascii c =? 32)%N
  || ((9 <=? N_of_ascii c)%N && (N_of_ascii c <=? 13)%N).

(** The characters a number, its sign, its fraction, its exponent and
    the blanks around it are written with. *)
Definition numeric_char (c : ascii) : bool :=
  is_digit c || is_space c
  || (N_of_ascii c =? 43)%N         (* + *)
  || (N_of_ascii c =? 45)%N         (* - *)
  || (N_of_ascii c =? 46)%N         (* . *)
  || (N_of_ascii c =? 101)%N        (* e *)
  || (N_of_ascii c =? 69)%N.        (* E *)

Fixpoint any (p : ascii -> bool) (s : string) : bool :=
  match s with
  | EmptyString => false
  | String c rest => p c || any p rest
  end.

(** A text that cannot be a number: it has no digit, or it has a
    character no number is written with. *)
Definition plain_text (s : string) : bool :=
  negb (any is_digit s) || any (fun c => negb (numeric_char c)) s.

Fixpoint digits (acc : Z) (s : string) : option Z :=
  match s with
  | EmptyString => Some acc
  | String c rest =>
      if is_digit c then
        digits (10 * acc + (Z.of_N (N_of_ascii c) - 48)) rest
      else None
  end.

(** A plain integer literal: digits, after a minus sign or not. *)
Definition integer_literal (s : string) : option Z :=
  match s with
  | EmptyString => None
  | String c rest =>
      if (N_of_ascii c =? 45)%N then
        match rest with
        | EmptyString => None
        | _ => option_map Z.opp (digits 0 rest)
        end
      else digits 0 s
  end.

(** What a 64-bit signed integer holds. *)
Definition int64 (z : Z) : bool :=
  (- 2 ^ 63 <=? z)%Z && (z <? 2 ^ 63)%Z.

(** The cell a [STRING] column stores for a text, where this
    development places it: the text itself when it cannot be a number,
    the integer when it is a plain integer literal that fits 64 bits.
    [None] stands for every other text (a literal with a fraction, an
    exponent, a plus sign, blanks, or too many digits): SQLite stores a
    number or the text for it, by rules that are not embedded here. *)
Definition numeric_affinity (s : string) : option cell :=
  if plain_text s then Some (Text s)
  else
    match integer_literal s with
    | Some z => if int64 z then Some (Integer z) else None
    | None => None
    end.

(** What a statement of the store gives: its result, the exception the
    binding or the preparation raises, or [Unplaced] when it is given a
    text that [numeric_affinity] does not place. *)
Inductive answer (A : Type) :=
| Answer (a : A)
| Raises (e : exn)
| Unplaced.

Arguments Raises {A} e.
Arguments Unplaced {A}.

End Sqlite.

(** Stable sort by an integer key, as [ORDER BY] on an unindexed
    table. *)
Fixpoint insert_by {A} (key : A -> Z) (x : A) (l : list A) : list A :=
  match l with
  | [] => [x]
  | y :: rest =>
      if (key x <=? key y)%Z then x :: l
      else y :: insert_by key x rest
  end.

Fixpoint order_by {A} (key : A -> Z) (l : list A) : list A :=
  match l with
  | [] => []
  | x :: rest => insert_by key x (order_by key rest)
  end.

Module Stored.

(** A row of [git_builds]. *)
Record row := {
  series_id : Z;
  patch_id : Z;
  patch_url : Sqlite.cell;
  patch_name : Sqlite.cell;
  sha : Sqlite.cell;
  patchwork_instance : Sqlite.cell;
  patchwork_project : Sqlite.cell;
  repo_name : Sqlite.cell;
  gap_sync : Z;
  obs_sync : Z;
  cirrus_sync : Z
}.

Definition table := list row.

Definition sync_flag (c : sync_col) (r : row) : Z :=
  match c with
  | GapSync => gap_sync r
  | ObsSync => obs_sync r
  | CirrusSync => cirrus_sync r
  end.

Definition new_row (series_id patch_id : Z)
           (patch_url patch_name sha instance project repo_name : Sqlite.cell)
  : row :=
  {| series_id := series_id;
     patch_id := patch_id;
     patch_url := patch_url;
     patch_name := patch_name;
     sha := sha;
     patchwork_instance := instance;
     patchwork_project := project;
     repo_name := repo_name;
     gap_sync := 0;
     obs_sync := 0;
     cirrus_sync := 0 |}.

(** [insert_build]: an id that does not fit 64 bits raises
    [OverflowError] when it is bound, before the statement runs; each
    text goes through the affinity of its column. *)
Definition insert_build (t : table) (series_id patch_id : Z)
           (patch_url patch_name sha instance project repo_name : string)
  : Sqlite.answer table :=
  if negb (Sqlite.int64 series_id && Sqlite.int64 patch_id) then
    Sqlite.Raises OverflowError
  else
    match Sqlite.numeric_affinity patch_url,
          Sqlite.numeric_affinity patch_name,
          Sqlite.numeric_affinity sha,
          Sqlite.numeric_affinity instance,
          Sqlite.numeric_affinity project,
          Sqlite.numeric_affinity repo_name with
    | Some u, Some n, Some h, Some i, Some p, Some r =>
        Sqlite.Answer (t ++ [new_row series_id patch_id u n h i p r])%list
    | _, _, _, _, _, _ => Sqlite.Unplaced
    end.

(** [WHERE patchwork_instance = ? AND {ci_type} = 0]: the parameter is
    compared after it went through the affinity of the column. *)
Definition unsynced (instance : Sqlite.cell) (c : sync_col) (r : row)
  : bool :=
  Sqlite.cell_eqb (patchwork_instance r) instance && (sync_flag c r =? 0)%Z.

Definition get_unsynced_builds (t : table) (instance ci_type : string)
  : Sqlite.answer (list row) :=
  match column_of_name ci_type with
  | None => Sqlite.Raises OperationalError
  | Some c =>
      match Sqlite.numeric_affinity instance with
      | None => Sqlite.Unplaced
      | Some i => Sqlite.Answer (order_by series_id (filter (unsynced i c) t))
      end
  end.

(** The [WHERE] clause of [get_patch_id_by_series_and_sha]. *)
Definition found (instance : Sqlite.cell) (series : Z) (h : Sqlite.cell)
           (r : row) : bool :=
  Sqlite.cell_eqb (patchwork_instance r) instance
  && (series_id r =? series)%Z
  && Sqlite.cell_eqb (sha r) h.

Definition get_patch_id_by_series_and_sha (t : table) (series : Z)
           (sha instance : string) : Sqlite.answer (option Z) :=
  if negb (Sqlite.int64 series) then Sqlite.Raises OverflowError
  else
    match Sqlite.numeric_affinity instance, Sqlite.numeric_affinity sha with
    | Some i, Some h =>
        Sqlite.Answer
          match filter (found i series h) t with
          | r :: _ => Some (patch_id r)
          | [] => None
          end
    | _, _ => Sqlite.Unplaced
    end.

(** A row whose [STRING] cells all hold text. *)
Definition of_text (b : Build.row) : row :=
  {| series_id := Build.series_id b;
     patch_id := Build.patch_id b;
     patch_url := Sqlite.Text (Build.patch_url b);
     patch_name := Sqlite.Text (Build.patch_name b);
     sha := Sqlite.Text (Build.sha b);
     patchwork_instance := Sqlite.Text (Build.patchwork_instance b);
     patchwork_project := Sqlite.Text (Build.patchwork_project b);
     repo_name := Sqlite.Text (Build.repo_name b);
     gap_sync := Build.gap_sync b;
     obs_sync := Build.obs_sync b;
     cirrus_sync := Build.cirrus_sync b |}.

(** Ascending [series_id]. *)
Definition series_id_le (a b : row) : Prop := series_id a <= series_id b.

End Stored.

(** Travis lists one build, canceled. *)
Definition travis_canceled : Travis.backend :=
  fun _ _ =>
    Body {| Travis.builds :=
              Some [Scenario.travis_build "canceled" 7 "abc7"] |}.

(** Series 12345 and 12346, each with a branch under CI. *)
Definition two_dispatched : database :=
  set_series_branch
    (add_series Scenario.dispatched Scenario.instance Scenario.project 12346
                "https://patchwork.example.com/api/series/12346/"
                "Test User" "test@example.com" false)
    Scenario.instance 12346 "owner/repo" "series_12346".

(** Travis lists a build without [state] on the branch of series 12345
    and a passed build on every other branch. *)
Definition travis_stateless_12345 : Travis.backend :=
  fun _ branch =>
    if branch =? "series_12345" then
      Body {| Travis.builds :=
                Some [{| Travis.state := None;
                         Travis.id := Some 8;
                         Travis.commit_of := None |}] |}
    else
      Body {| Travis.builds :=
                Some [Scenario.travis_build "passed" 9 "abc9"] |}.

(* ================================================================== *)
(** * Facts about the store *)

Lemma column_of_name_column_name (c : sync_col) :
  column_of_name (column_name c) = Some c.
Proof. destruct c; reflexivity. Qed.

Lemma sync_flag_mark_synced (c : sync_col) (b : Build.row) :
  sync_flag c (mark_synced c b) = 1.
Proof. destruct c; reflexivity. Qed.

Lemma sync_flag_mark_other (c c' : sync_col) (b : Build.row) :
  c' <> c -> sync_flag c' (mark_synced c b) = sync_flag c' b.
Proof. destruct c, c'; simpl; congruence. Qed.

Lemma mark_synced_frame (c : sync_col) (b : Build.row) :
  Build.series_id (mark_synced c b) = Build.series_id b
  /\ Build.patch_id (mark_synced c b) = Build.patch_id b
  /\ Build.patch_url (mark_synced c b) = Build.patch_url b
  /\ Build.patch_name (mark_synced c b) = Build.patch_name b
  /\ Build.sha (mark_synced c b) = Build.sha b
  /\ Build.patchwork_instance (mark_synced c b) = Build.patchwork_instance b
  /\ Build.patchwork_project (mark_synced c b) = Build.patchwork_project b
  /\ Build.repo_name (mark_synced c b) = Build.repo_name b.
Proof. destruct c; simpl; repeat split. Qed.

Lemma nth_error_update_where {A} (p : A -> bool) (f : A -> A) (l : list A)
      (i : nat) :
  nth_error (update_where p f l) i
  = option_map (fun r => if p r then f r else r) (nth_error l i).
Proof. unfold update_where. apply nth_error_map. Qed.

Lemma in_update_where {A} (p : A -> bool) (f : A -> A) (l : list A) (y : A) :
  In y (update_where p f l) ->
  exists x, In x l /\ y = (if p x then f x else x).
Proof.
  unfold update_where. rewrite in_map_iff.
  intros (x & Hy & Hx). exists x. split; [exact Hx | symmetry; exact Hy].
Qed.

Lemma in_insert_by_series_id (b x : Build.row) (l : list Build.row) :
  In x (insert_by_series_id b l) <-> x = b \/ In x l.
Proof.
  induction l as [|y l IH]; simpl.
  - intuition.
  - destruct (Build.series_id b <=? Build.series_id y)%Z; simpl.
    + intuition.
    + rewrite IH. intuition.
Qed.

Lemma in_order_by_series_id (x : Build.row) (l : list Build.row) :
  In x (order_by_series_id l) <-> In x l.
Proof.
  induction l as [|y l IH]; simpl.
  - reflexivity.
  - rewrite in_insert_by_series_id, IH. intuition.
Qed.

Lemma insert_by_series_id_perm (b : Build.row) (l : list Build.row) :
  Permutation (insert_by_series_id b l) (b :: l).
Proof.
  induction l as [|y l IH]; simpl.
  - apply Permutation_refl.
  - destruct (Build.series_id b <=? Build.series_id y)%Z.
    + apply Permutation_refl.
    + eapply Permutation_trans.
      * apply perm_skip. exact IH.
      * apply perm_swap.
Qed.

Lemma order_by_series_id_perm (l : list Build.row) :
  Permutation (order_by_series_id l) l.
Proof.
  induction l as [|y l IH]; simpl.
  - apply Permutation_refl.
  - eapply Permutation_trans.
    + apply insert_by_series_id_perm.
    + apply perm_skip. exact IH.
Qed.

Lemma insert_by_series_id_sorted (b : Build.row) (l : list Build.row) :
  StronglySorted series_id_le l ->
  StronglySorted series_id_le (insert_by_series_id b l).
Proof.
  induction l as [|y l IH]; simpl; intros Hs.
  - constructor; constructor.
  - destruct (Build.series_id b <=? Build.series_id y)%Z eqn:E.
    + apply Z.leb_le in E.
      constructor; [exact Hs|].
      inversion Hs as [|? ? Hl Hy]; subst.
      constructor; [exact E|].
      rewrite Forall_forall in *. intros z Hz.
      unfold series_id_le in *. specialize (Hy z Hz). lia.
    + apply Z.leb_gt in E.
      inversion Hs as [|? ? Hl Hy]; subst.
      constructor; [apply IH; exact Hl|].
      rewrite Forall_forall in *. intros z Hz.
      apply in_insert_by_series_id in Hz. destruct Hz as [->|Hz].
      * unfold series_id_le. lia.
      * apply Hy. exact Hz.
Qed.

Lemma order_by_series_id_sorted (l : list Build.row) :
  StronglySorted series_id_le (order_by_series_id l).
Proof.
  induction l as [|y l IH]; simpl.
  - constructor.
  - apply insert_by_series_id_sorted. exact IH.
Qed.

Lemma unsynced_true (instance : string) (c : sync_col) (b : Build.row) :
  unsynced instance c b = true
  <-> Build.patchwork_instance b = instance /\ sync_flag c b = 0.
Proof.
  unfold unsynced. rewrite andb_true_iff, String.eqb_eq, Z.eqb_eq.
  reflexivity.
Qed.

Lemma build_matches_true (instance : string) (patch_id : Z) (b : Build.row) :
  build_matches instance patch_id b = true
  <-> Build.patchwork_instance b = instance /\ Build.patch_id b = patch_id.
Proof.
  unfold build_matches. rewrite andb_true_iff, String.eqb_eq, Z.eqb_eq.
  reflexivity.
Qed.

Lemma series_matches_true (instance : string) (series_id : Z)
      (r : Series.row) :
  series_matches instance series_id r = true
  <-> Series.series_id r = series_id /\ Series.series_instance r = instance.
Proof.
  unfold series_matches. rewrite andb_true_iff, String.eqb_eq, Z.eqb_eq.
  reflexivity.
Qed.

(** What [get_unsynced_builds] returns, row by row. *)
Lemma in_get_unsynced_builds (db : database) (instance : string)
      (c : sync_col) (l : list Build.row) (b : Build.row) :
  get_unsynced_builds db instance (column_name c) = Some l ->
  (In b l <->
   In b (git_builds db) /\ Build.patchwork_instance b = instance
   /\ sync_flag c b = 0).
Proof.
  unfold get_unsynced_builds. rewrite column_of_name_column_name.
  intros [= <-].
  rewrite in_order_by_series_id, filter_In, unsynced_true. reflexivity.
Qed.

(* ================================================================== *)
(** * Properties of the state store *)

(** C8: [set_build_synced] on a sync column of [git_builds] succeeds,
    leaves the [series] table alone and keeps every build row at its
    place.  A row of the given instance and [patch_id] gets the named
    flag set to 1; its other two flags and its eight data fields are
    unchanged.  A row of another instance or another [patch_id] is
    unchanged. *)
Theorem set_build_synced_frame
        (db : database) (instance : string) (patch_id : Z) (c : sync_col) :
  exists db',
    set_build_synced db instance patch_id (column_name c) = Some db'
    /\ series db' = series db
    /\ List.length (git_builds db') = List.length (git_builds db)
    /\ forall i b,
         nth_error (git_builds db) i = Some b ->
         exists b',
           nth_error (git_builds db') i = Some b'
           /\ Build.series_id b' = Build.series_id b
           /\ Build.patch_id b' = Build.patch_id b
           /\ Build.patch_url b' = Build.patch_url b
           /\ Build.patch_name b' = Build.patch_name b
           /\ Build.sha b' = Build.sha b
           /\ Build.patchwork_instance b' = Build.patchwork_instance b
           /\ Build.patchwork_project b' = Build.patchwork_project b
           /\ Build.repo_name b' = Build.repo_name b
           /\ (forall c', c' <> c -> sync_flag c' b' = sync_flag c' b)
           /\ (Build.patchwork_instance b = instance
               /\ Build.patch_id b = patch_id -> sync_flag c b' = 1)
           /\ (Build.patchwork_instance b <> instance
               \/ Build.patch_id b <> patch_id -> b' = b).
Proof.
  unfold set_build_synced. rewrite column_of_name_column_name.
  eexists. split; [reflexivity|]. simpl.
  split; [reflexivity|].
  split; [unfold update_where; apply length_map|].
  intros i b Hb.
  rewrite nth_error_update_where, Hb. simpl.
  destruct (build_matches instance patch_id b) eqn:E.
  - exists (mark_synced c b). split; [reflexivity|].
    destruct (mark_synced_frame c b) as (?&?&?&?&?&?&?&?).
    do 8 (split; [assumption|]).
    split; [intros c' Hc; apply sync_flag_mark_other; exact Hc|].
    split; [intros _; apply sync_flag_mark_synced|].
    apply build_matches_true in E. tauto.
  - exists b. split; [reflexivity|].
    do 8 (split; [reflexivity|]).
    split; [reflexivity|].
    split; [|reflexivity].
    intros H. apply build_matches_true in H. congruence.
Qed.

(** C10: [add_series] called twice with one [(instance, series_id)]
    (and [completed] false) appends two rows, one per call: nothing
    fails and nothing is merged.  Afterwards [series_exists] is true and
    [get_uncompleted_series] lists the series once for each of the two
    rows, after whatever it listed before. *)
Theorem add_series_twice
        (db : database) (instance project : string) (series_id : Z)
        (url1 name1 email1 url2 name2 email2 : string) :
  let db2 :=
    add_series
      (add_series db instance project series_id url1 name1 email1 false)
      instance project series_id url2 name2 email2 false in
  series db2
  = (series db ++
     [new_series_row instance project series_id url1 name1 email1 false;
      new_series_row instance project series_id url2 name2 email2 false])%list
  /\ series_exists db2 instance series_id = true
  /\ get_uncompleted_series db2 instance project
     = (get_uncompleted_series db instance project ++
        [(series_id, url1, name1, email1);
         (series_id, url2, name2, email2)])%list.
Proof.
  cbv zeta.
  assert (Hrows :
    series (add_series
              (add_series db instance project series_id url1 name1 email1
                          false)
              instance project series_id url2 name2 email2 false)
    = (series db ++
       [new_series_row instance project series_id url1 name1 email1 false;
        new_series_row instance project series_id url2 name2 email2 false])%list).
  { simpl. rewrite <- app_assoc. reflexivity. }
  split; [exact Hrows|]. split.
  - unfold series_exists. rewrite Hrows, existsb_app.
    apply orb_true_iff. right. simpl.
    unfold series_matches. simpl.
    rewrite Z.eqb_refl, String.eqb_refl. reflexivity.
  - unfold get_uncompleted_series. rewrite Hrows, filter_app, map_app.
    f_equal. simpl. unfold uncompleted. simpl.
    rewrite !String.eqb_refl. reflexivity.
Qed.

Lemma with_series_same (db : database) : with_series db (series db) = db.
Proof. destruct db; reflexivity. Qed.

Lemma update_where_fixed {A} (p : A -> bool) (f : A -> A) (l : list A) :
  (forall x, In x l -> p x = true -> f x = x) -> update_where p f l = l.
Proof.
  unfold update_where. intros H.
  induction l as [|x l IH]; simpl; [reflexivity|].
  rewrite IH by (intros y Hy; apply H; right; exact Hy).
  destruct (p x) eqn:E; [|reflexivity].
  rewrite (H x (or_introl eq_refl) E). reflexivity.
Qed.

Lemma update_where_twice {A} (p : A -> bool) (f : A -> A) (l : list A) :
  (forall x, p (f x) = p x) -> (forall x, f (f x) = f x) ->
  update_where p f (update_where p f l) = update_where p f l.
Proof.
  unfold update_where. intros Hp Hf. rewrite map_map.
  apply map_ext. intros x.
  destruct (p x) eqn:E.
  - rewrite Hp, E. apply Hf.
  - rewrite E. reflexivity.
Qed.

Lemma update_where_Forall {A} (P : A -> Prop) (p : A -> bool) (f : A -> A)
      (l : list A) :
  (forall x, P x -> p x = true -> P (f x)) ->
  Forall P l -> Forall P (update_where p f l).
Proof.
  intros H Hl. unfold update_where. apply Forall_map.
  rewrite Forall_forall in *. intros x Hx.
  destruct (p x) eqn:E; [apply H; auto | auto].
Qed.

Lemma mark_completed_fixed (r : Series.row) :
  Series.series_completed r = 1 -> mark_completed r = r.
Proof. destruct r; simpl; intros ->; reflexivity. Qed.

Lemma mark_submitted_fixed (r : Series.row) :
  Series.series_submitted r = 1 -> mark_submitted r = r.
Proof. destruct r; simpl; intros ->; reflexivity. Qed.

(** A series row keeps its place, its identity and a set [completed]
    flag through any one operation of the store. *)
Lemma apply_op_keeps_completed (op : store_op) (db : database) (i : nat)
      (r : Series.row) :
  nth_error (series db) i = Some r ->
  exists r',
    nth_error (series (apply_op op db)) i = Some r'
    /\ Series.series_id r' = Series.series_id r
    /\ Series.series_instance r' = Series.series_instance r
    /\ (Series.series_completed r = 1 -> Series.series_completed r' = 1).
Proof.
  intros Hr.
  assert (Hsame : exists r', nth_error (series db) i = Some r'
            /\ Series.series_id r' = Series.series_id r
            /\ Series.series_instance r' = Series.series_instance r
            /\ (Series.series_completed r = 1 ->
                Series.series_completed r' = 1)).
  { exists r. auto. }
  assert (Hupd : forall p f,
            (forall x, Series.series_id (f x) = Series.series_id x
                       /\ Series.series_instance (f x)
                          = Series.series_instance x
                       /\ (Series.series_completed x = 1 ->
                           Series.series_completed (f x) = 1)) ->
            exists r', nth_error (update_where p f (series db)) i = Some r'
              /\ Series.series_id r' = Series.series_id r
              /\ Series.series_instance r' = Series.series_instance r
              /\ (Series.series_completed r = 1 ->
                  Series.series_completed r' = 1)).
  { intros p f Hf. rewrite nth_error_update_where, Hr. simpl.
    destruct (p r); [|exists r; auto].
    exists (f r). split; [reflexivity|]. apply Hf. }
  destruct op; simpl.
  - exists r. split; [|auto].
    rewrite nth_error_app1; [exact Hr|].
    apply nth_error_Some. congruence.
  - apply Hupd. intros x. simpl. auto.
  - apply Hupd. intros x. simpl. auto.
  - apply Hupd. intros x. simpl. auto.
  - apply Hupd. intros x. simpl. auto.
  - destruct (set_build_synced db instance patch_id ci_type) as [db'|] eqn:E;
      [|exact Hsame].
    unfold set_build_synced in E.
    destruct (column_of_name ci_type); [|discriminate].
    injection E as <-. exact Hsame.
  - exact Hsame.
Qed.

(** C9: a [completed] flag that is set stays set.  Through any sequence
    of store operations a series row keeps its place in the table, its
    [series_id] and its instance, and if its [completed] column was 1
    it is 1 afterwards.  [set_series_completed] and
    [set_series_submitted] are idempotent: on a store where every row of
    the series already has the flag at 1 they change nothing, and a
    second call after a first changes nothing. *)
Theorem completed_is_monotone :
  (forall ops db i r,
      nth_error (series db) i = Some r ->
      Series.series_completed r = 1 ->
      exists r',
        nth_error (series (apply_ops ops db)) i = Some r'
        /\ Series.series_id r' = Series.series_id r
        /\ Series.series_instance r' = Series.series_instance r
        /\ Series.series_completed r' = 1)
  /\ (forall db instance series_id,
         (forall r, In r (series db) ->
                    series_matches instance series_id r = true ->
                    Series.series_completed r = 1) ->
         set_series_completed db instance series_id = db)
  /\ (forall db instance series_id,
         (forall r, In r (series db) ->
                    series_matches instance series_id r = true ->
                    Series.series_submitted r = 1) ->
         set_series_submitted db instance series_id = db)
  /\ (forall db instance series_id,
         set_series_completed
           (set_series_completed db instance series_id) instance series_id
         = set_series_completed db instance series_id)
  /\ (forall db instance series_id,
         set_series_submitted
           (set_series_submitted db instance series_id) instance series_id
         = set_series_submitted db instance series_id).
Proof.
  split; [|split; [|split; [|split]]].
  - unfold apply_ops. intros ops.
    induction ops as [|op ops IH]; intros db i r Hr Hc; simpl.
    + exists r. auto.
    + destruct (apply_op_keeps_completed op db i Hr)
        as (r1 & H1 & Hid & Hinst & Hkeep).
      destruct (IH (apply_op op db) i r1 H1 (Hkeep Hc))
        as (r2 & H2 & Hid2 & Hinst2 & Hc2).
      exists r2. repeat split; congruence.
  - intros db instance series_id H. unfold set_series_completed.
    rewrite update_where_fixed; [apply with_series_same|].
    intros x Hx Hm. apply mark_completed_fixed. apply H; assumption.
  - intros db instance series_id H. unfold set_series_submitted.
    rewrite update_where_fixed; [apply with_series_same|].
    intros x Hx Hm. apply mark_submitted_fixed. apply H; assumption.
  - intros db instance series_id. unfold set_series_completed. simpl.
    rewrite update_where_twice; reflexivity.
  - intros db instance series_id. unfold set_series_submitted. simpl.
    rewrite update_where_twice; reflexivity.
Qed.

(** The completed series 12345 stays completed when it is added a
    second time, dispatched, released and marked completed again; and
    marking it completed again leaves the store as it is. *)
Lemma completed_is_monotone_witness :
  (exists r',
      nth_error
        (series
           (apply_ops
              [AddSeries Scenario.instance Scenario.project 12345 "u" "n" "e"
                         false;
               SetSeriesBranch Scenario.instance 12345 "owner/repo"
                               "series_12345";
               ClearSeriesBranch Scenario.instance 12345;
               SetSeriesSubmitted Scenario.instance 12345]
              Scenario.complete)) 0
      = Some r'
      /\ Series.series_completed r' = 1)
  /\ set_series_completed Scenario.complete Scenario.instance 12345
     = Scenario.complete.
Proof.
  split.
  - destruct (proj1 completed_is_monotone
                [AddSeries Scenario.instance Scenario.project 12345 "u" "n"
                           "e" false;
                 SetSeriesBranch Scenario.instance 12345 "owner/repo"
                                 "series_12345";
                 ClearSeriesBranch Scenario.instance 12345;
                 SetSeriesSubmitted Scenario.instance 12345]
                Scenario.complete 0%nat
                (mark_completed
                   (new_series_row
                      Scenario.instance Scenario.project 12345
                      "https://patchwork.example.com/api/series/12345/"
                      "Test User" "test@example.com" false))
                eq_refl eq_refl) as (r' & H & _ & _ & Hc).
    exists r'. split; assumption.
  - apply (proj1 (proj2 completed_is_monotone)).
    intros r [<-|[]] _. reflexivity.
Defined.

Lemma branch_repo_paired_put (branch repo : option string) (r : Series.row) :
  branch_repo_paired (put_branch branch repo r)
  = Bool.eqb (is_empty branch) (is_empty repo).
Proof. reflexivity. Qed.

Lemma in_active_rows (instance : string) (l : list Series.row)
      (a : branch_row) :
  In a (active_rows instance l) ->
  exists r b,
    In r l /\ Series.series_instance r = instance
    /\ active_branch r = Some b
    /\ a = (Series.series_id r, Series.series_project r,
            Series.series_url r, b, Series.series_repo r).
Proof.
  induction l as [|x l IH]; simpl; [intros []|].
  destruct (Series.series_instance x =? instance) eqn:Ei.
  - destruct (active_branch x) as [b|] eqn:Eb.
    + intros [<-|Ha].
      * exists x, b. apply String.eqb_eq in Ei. auto.
      * destruct (IH Ha) as (r & b' & Hr & H). exists r, b'. auto.
    + intros Ha. destruct (IH Ha) as (r & b' & Hr & H). exists r, b'. auto.
  - intros Ha. destruct (IH Ha) as (r & b' & Hr & H). exists r, b'. auto.
Qed.

(** C5, as stated, fails: series 12345 with branch and repo set
    satisfies the pairing; after [clear_series_branch] its branch is the
    empty text and its repo is still ["owner/repo"]. *)
Lemma clear_series_branch_keeps_repo :
  map branch_repo_paired (series Scenario.dispatched) = [true]
  /\ map Series.series_branch (series Scenario.released) = [Some ""]
  /\ map Series.series_repo (series Scenario.released) = [Some "owner/repo"]
  /\ map branch_repo_paired (series Scenario.released) = [false].
Proof. repeat split. Qed.

(** C5, amended: every store operation other than [clear_series_branch]
    keeps [branch] and [repo] both empty or both set on every series
    row, given that [set_series_branch] is called with a repo and a
    branch that are both empty or both non-empty.  After
    [set_series_branch] every row of the series holds the given branch
    and the given repo.  After [clear_series_branch] every row of the
    series has the empty branch and the repo it had, and
    [get_active_branches] no longer returns the series. *)
Theorem branch_repo_pairing :
  (forall op db,
      (forall i s, op <> ClearSeriesBranch i s) ->
      (forall i s repo branch,
          op = SetSeriesBranch i s repo branch ->
          is_empty (Some branch) = is_empty (Some repo)) ->
      Forall (fun r => branch_repo_paired r = true) (series db) ->
      Forall (fun r => branch_repo_paired r = true)
             (series (apply_op op db)))
  /\ (forall db instance series_id repo branch r,
         In r (series (set_series_branch db instance series_id repo branch)) ->
         series_matches instance series_id r = true ->
         Series.series_branch r = Some branch
         /\ Series.series_repo r = Some repo)
  /\ (forall db instance series_id k r,
         nth_error (series db) k = Some r ->
         series_matches instance series_id r = true ->
         exists r',
           nth_error (series (clear_series_branch db instance series_id)) k
           = Some r'
           /\ Series.series_branch r' = Some ""
           /\ Series.series_repo r' = Series.series_repo r)
  /\ (forall db instance series_id a,
         In a (get_active_branches
                 (clear_series_branch db instance series_id) instance) ->
         branch_series_id a <> series_id).
Proof.
  split; [|split; [|split]].
  - intros op db Hclear Hset Hall.
    destruct op; simpl.
    + apply Forall_app. split; [exact Hall|].
      constructor; [reflexivity|constructor].
    + apply update_where_Forall; [|exact Hall]. intros x Hx _. exact Hx.
    + apply update_where_Forall; [|exact Hall]. intros x Hx _. exact Hx.
    + apply update_where_Forall; [|exact Hall]. intros x _ _.
      rewrite branch_repo_paired_put.
      rewrite (Hset instance series_id repo branch eq_refl).
      apply Bool.eqb_reflx.
    + exfalso. exact (Hclear instance series_id eq_refl).
    + destruct (set_build_synced db instance patch_id ci_type) as [db'|] eqn:E;
        [|exact Hall].
      unfold set_build_synced in E.
      destruct (column_of_name ci_type); [|discriminate].
      injection E as <-. exact Hall.
    + exact Hall.
  - intros db instance series_id repo branch r Hin Hm.
    simpl in Hin. apply in_update_where in Hin.
    destruct Hin as (x & _ & ->).
    destruct (series_matches instance series_id x) eqn:E.
    + split; reflexivity.
    + congruence.
  - intros db instance series_id k r Hk Hm. simpl.
    rewrite nth_error_update_where, Hk. simpl. rewrite Hm.
    eexists. split; [reflexivity|]. split; reflexivity.
  - intros db instance series_id a Ha.
    unfold get_active_branches in Ha. simpl in Ha.
    apply in_active_rows in Ha.
    destruct Ha as (r & b & Hr & Hinst & Hact & ->).
    apply in_update_where in Hr. destruct Hr as (x & _ & ->).
    simpl. intros Hid.
    destruct (series_matches instance series_id x) eqn:E.
    + discriminate Hact.
    + assert (series_matches instance series_id x = true); [|congruence].
      apply series_matches_true. split; assumption.
Qed.

(** Dispatching series 12345 keeps the pairing and stores the given
    branch and repo; releasing it empties the branch, keeps the repo and
    leaves no active branch. *)
Lemma branch_repo_pairing_witness :
  Forall (fun r => branch_repo_paired r = true) (series Scenario.dispatched)
  /\ (forall r, In r (series Scenario.dispatched) ->
                Series.series_branch r = Some "series_12345"
                /\ Series.series_repo r = Some "owner/repo")
  /\ (exists r',
         nth_error (series Scenario.released) 0 = Some r'
         /\ Series.series_branch r' = Some ""
         /\ Series.series_repo r' = Some "owner/repo")
  /\ (forall a, In a (get_active_branches Scenario.released
                                          Scenario.instance) ->
                branch_series_id a <> 12345).
Proof.
  destruct branch_repo_pairing as (Hinv & Hset & Hclear & Hact).
  split; [|split; [|split]].
  - apply (Hinv (SetSeriesBranch Scenario.instance 12345 "owner/repo"
                                 "series_12345")
                Scenario.tracked).
    + intros i s. discriminate.
    + intros i s repo branch [= _ _ <- <-]. reflexivity.
    + constructor; [reflexivity|constructor].
  - intros r Hr.
    apply (Hset Scenario.tracked Scenario.instance 12345 "owner/repo"
                "series_12345" r Hr).
    destruct Hr as [<-|[]]. reflexivity.
  - destruct (Hclear Scenario.dispatched Scenario.instance 12345 0%nat
                     (put_branch (Some "series_12345") (Some "owner/repo")
                        (new_series_row
                           Scenario.instance Scenario.project 12345
                           "https://patchwork.example.com/api/series/12345/"
                           "Test User" "test@example.com" false))
                     eq_refl eq_refl) as (r' & H1 & H2 & H3).
    exists r'. repeat split; assumption.
  - intros a Ha.
    exact (Hact Scenario.dispatched Scenario.instance 12345 a Ha).
Defined.

(** C6, as stated, fails: the tracker reports series 12345, which the
    store does not know, with [received_all] true, and the discovery
    pass inserts its row with [completed] at 1. *)
Lemma discovery_records_completed :
  series_exists empty_database Scenario.instance 12345 = false
  /\ snd (Patchwork.check_new_series Scenario.tracker Scenario.instance
                                     Scenario.project empty_database) = None
  /\ map (fun r => (Series.series_id r, Series.series_completed r,
                    Series.series_submitted r, Series.series_downloaded r))
         (series (fst (Patchwork.check_new_series
                         Scenario.tracker Scenario.instance Scenario.project
                         empty_database)))
     = [(12345, 1, 0, 0)].
Proof. repeat split. Qed.

(** C6, amended: when the discovery pass handles the event of a series
    whose [(instance, series_id)] the store does not hold, and the
    fetched detail has its [url] and its submitter's [name] and [email],
    it appends exactly one row for the series, with [submitted] 0,
    [downloaded] 0, no branch and no repo, and with [completed] 1 if
    the detail says [received_all] and 0 if it says not or does not say. *)
Theorem discovery_inserts_row
        (c : Patchwork.client) (instance project : string) (db : database)
        (ev : Patchwork.event) (series_id : Z) (d : Patchwork.series_data)
        (u n e : string) (s : Patchwork.submitter) :
  Patchwork.payload_series_id ev = Some series_id ->
  Patchwork.get_series c series_id = Body d ->
  Patchwork.url d = Some u ->
  Patchwork.submitter_of d = Some s ->
  Patchwork.name s = Some n ->
  Patchwork.email s = Some e ->
  series_exists db instance series_id = false ->
  exists r,
    Patchwork.on_event c instance project db ev
    = (with_series db (series db ++ [r]), None)
    /\ Series.series_id r = series_id
    /\ Series.series_instance r = instance
    /\ Series.series_project r = project
    /\ Series.series_url r = u
    /\ Series.series_submitter r = n
    /\ Series.series_email r = e
    /\ Series.series_submitted r = 0
    /\ Series.series_downloaded r = 0
    /\ Series.series_branch r = None
    /\ Series.series_repo r = None
    /\ Series.series_completed r
       = match Patchwork.received_all d with
         | Some true => 1
         | _ => 0
         end.
Proof.
  intros Hev Hget Hu Hs Hn He Hnew.
  exists (new_series_row instance project series_id u n e
                         (Patchwork.all_received_of d)).
  split.
  - unfold Patchwork.on_event.
    rewrite Hev, Hget, Hu, Hs, Hn, He.
    unfold Patchwork.emit_series. rewrite Hnew. reflexivity.
  - simpl. repeat (split; [reflexivity|]).
    unfold Patchwork.all_received_of.
    destruct (Patchwork.received_all d) as [[|]|]; reflexivity.
Qed.

(** The event of series 12345 on the empty store. *)
Lemma discovery_inserts_row_witness :
  exists r,
    Patchwork.on_event Scenario.tracker Scenario.instance Scenario.project
                       empty_database
                       {| Patchwork.payload_series_id := Some 12345 |}
    = (with_series empty_database [r], None)
    /\ Series.series_submitted r = 0
    /\ Series.series_downloaded r = 0
    /\ Series.series_completed r = 1.
Proof.
  destruct (@discovery_inserts_row
              Scenario.tracker Scenario.instance Scenario.project
              empty_database
              {| Patchwork.payload_series_id := Some 12345 |} 12345
              _ _ _ _ _
              eq_refl eq_refl eq_refl eq_refl eq_refl eq_refl eq_refl)
    as (r & Hrun & _ & _ & _ & _ & _ & _ & Hs & Hd & _ & _ & Hc).
  exists r. repeat split; assumption.
Defined.

(* ================================================================== *)
(** * Facts about the providers' loops *)

Lemma synced_set_build_synced (c : sync_col) (instance : string)
      (patch_id : Z) (db db' : database) :
  set_build_synced db instance patch_id (column_name c) = Some db' ->
  synced c instance patch_id db'.
Proof.
  unfold set_build_synced. rewrite column_of_name_column_name.
  intros [= <-] b Hb Hi Hp. simpl in Hb.
  apply in_update_where in Hb. destruct Hb as (x & _ & ->).
  destruct (build_matches instance patch_id x) eqn:E.
  - apply sync_flag_mark_synced.
  - assert (build_matches instance patch_id x = true); [|congruence].
    apply build_matches_true. split; assumption.
Qed.

Lemma synced_kept_by_set_build_synced (c : sync_col) (instance i : string)
      (patch_id p : Z) (ci_type : string) (db db' : database) :
  set_build_synced db i p ci_type = Some db' ->
  synced c instance patch_id db -> synced c instance patch_id db'.
Proof.
  unfold set_build_synced.
  destruct (column_of_name ci_type) as [c'|]; [|discriminate].
  intros [= <-] Hs b Hb Hi Hp. simpl in Hb.
  apply in_update_where in Hb. destruct Hb as (x & Hx & ->).
  destruct (build_matches i p x).
  - destruct (mark_synced_frame c' x) as (_ & Hpid & _ & _ & _ & Hinst & _).
    rewrite Hinst in Hi. rewrite Hpid in Hp.
    specialize (Hs x Hx Hi Hp).
    destruct c, c'; simpl in *; auto.
  - apply Hs; assumption.
Qed.

Lemma synced_same_builds (c : sync_col) (instance : string) (patch_id : Z)
      (db db' : database) :
  git_builds db' = git_builds db ->
  synced c instance patch_id db -> synced c instance patch_id db'.
Proof. unfold synced. intros ->. auto. Qed.

(** On a store where the patch is synced, the work queue of the column
    holds no row of the patch. *)
Lemma synced_not_queued (c : sync_col) (instance : string) (patch_id : Z)
      (db : database) (l : list Build.row) :
  synced c instance patch_id db ->
  get_unsynced_builds db instance (column_name c) = Some l ->
  forall b, In b l -> Build.patch_id b <> patch_id.
Proof.
  intros Hs Hl b Hb Hp.
  apply (in_get_unsynced_builds db instance c b Hl) in Hb.
  destruct Hb as (Hin & Hi & Hflag).
  specialize (Hs b Hin Hi Hp). lia.
Qed.

Section Loops.

Context {U S : Type}.
Variable body : S -> U -> database -> step S.

Lemma for_each_store_invariant (P : database -> Prop) :
  (forall s u db, P db -> P (after (body s u db))) ->
  forall units s db, P db -> P (store (for_each body s units db)).
Proof.
  intros Hstep units.
  induction units as [|u rest IH]; intros s db Hdb; simpl; [exact Hdb|].
  destruct (failure (body s u db)); simpl.
  - apply Hstep. exact Hdb.
  - apply IH. apply Hstep. exact Hdb.
Qed.

Lemma for_each_yielded (units : list U) :
  forall s db o,
    In o (yielded (for_each body s units db)) ->
    exists s' u db', In u units /\ In o (emitted (body s' u db')).
Proof.
  induction units as [|u rest IH]; intros s db o; simpl; [intros []|].
  destruct (failure (body s u db)); simpl.
  - intros Ho. exists s, u, db. auto.
  - intros Ho. apply in_app_or in Ho. destruct Ho as [Ho|Ho].
    + exists s, u, db. auto.
    + destruct (IH _ _ _ Ho) as (s' & u' & db' & Hu & He).
      exists s', u', db'. auto.
Qed.

(** If every pass that yields for a patch and ends normally leaves the
    patch in a state [Q] that later passes keep, then a call that ends
    normally leaves every patch it yielded for in [Q]. *)
Lemma for_each_settles (Q : Z -> database -> Prop) :
  (forall s u db p, Q p db -> Q p (after (body s u db))) ->
  (forall s u db o p,
      failure (body s u db) = None ->
      In o (emitted (body s u db)) -> Outcome.patch_id o = Some p ->
      Q p (after (body s u db))) ->
  forall units s db o p,
    raised (for_each body s units db) = None ->
    In o (yielded (for_each body s units db)) ->
    Outcome.patch_id o = Some p ->
    Q p (store (for_each body s units db)).
Proof.
  intros Hkeep Hset units.
  induction units as [|u rest IH]; intros s db o p; simpl; [intros _ []|].
  destruct (failure (body s u db)) eqn:Ef; simpl; [discriminate|].
  intros Hr Ho Hp. apply in_app_or in Ho. destruct Ho as [Ho|Ho].
  - apply (for_each_store_invariant (Q p)).
    + intros s0 u0 db0. apply Hkeep.
    + eapply Hset; eassumption.
  - eapply IH; eassumption.
Qed.

End Loops.

Lemma mark_build_after {S} (s : S) (db : database) (os : list Outcome.t)
      (pw_instance : string) (patch_id : Z) (c : sync_col) :
  exists db',
    set_build_synced db pw_instance patch_id (column_name c) = Some db'
    /\ mark_build s db os pw_instance patch_id (column_name c)
       = proceed s db' os.
Proof.
  unfold mark_build, set_build_synced.
  rewrite column_of_name_column_name. eexists. split; reflexivity.
Qed.

Lemma marks_at_most_keeps_synced (c : sync_col) (instance pw_instance : string)
      (patch_id : Z) (db db' : database) :
  marks_at_most pw_instance db db' ->
  synced c instance patch_id db -> synced c instance patch_id db'.
Proof.
  intros [Hsame|(p & ci & Hset)].
  - apply synced_same_builds. exact Hsame.
  - eapply synced_kept_by_set_build_synced. exact Hset.
Qed.

Lemma mark_build_marks_at_most {S} (s : S) (db : database)
      (os : list Outcome.t) (pw_instance : string) (patch_id : Z)
      (ci_type : string) :
  marks_at_most pw_instance db
                (after (mark_build s db os pw_instance patch_id ci_type)).
Proof.
  unfold mark_build.
  destruct (set_build_synced db pw_instance patch_id ci_type) as [db'|] eqn:E.
  - right. exists patch_id, ci_type. exact E.
  - left. reflexivity.
Qed.

(** ** GitHub Actions *)

Lemma github_workflow_results_patch (pw_instance : string)
      (build : Build.row) (g : GitHub.groups) (o : Outcome.t) :
  In o (fst (GitHub.workflow_results pw_instance build g)) ->
  Outcome.patch_id o = Some (Build.patch_id build)
  /\ Outcome.series_id o = Build.series_id build
  /\ Outcome.pw_instance o = pw_instance.
Proof.
  induction g as [|[workflow_name runs] rest IH]; simpl; [intros []|].
  destruct runs as [|latest_run ?]; [intros []|].
  destruct (GitHub.status latest_run) as [st|]; [|intros []].
  destruct (GitHub.conclusion latest_run) as [| |concl];
    [intros []| |];
    (destruct (GitHub.html_url latest_run) as [build_url|]; [|intros []];
     destruct (negb (st =? "completed")); [exact IH|];
     destruct (GitHub.workflow_results pw_instance build rest) as [os e];
     simpl in *; intros [<-|Ho]; [repeat split | auto]).
Qed.

(** The part of the body after the fetch: it touches at most the flag
    of the build's patch, yields only for this build, and when it ends
    normally after a yield the patch is marked. *)
Lemma github_report_spec (pw_instance : string) (c : GitHub.cache)
      (build : Build.row) (db : database) :
  let st := GitHub.report pw_instance (column_name GapSync) c build db in
  marks_at_most pw_instance db (after st)
  /\ (forall o, In o (emitted st) ->
                Outcome.patch_id o = Some (Build.patch_id build))
  /\ (failure st = None -> forall o, In o (emitted st) ->
      synced GapSync pw_instance (Build.patch_id build) (after st)).
Proof.
  cbv zeta. unfold GitHub.report.
  assert (Hskip : forall cc : GitHub.cache,
             marks_at_most pw_instance db (after (proceed cc db []))
             /\ (forall o, In o (emitted (proceed cc db [])) ->
                           Outcome.patch_id o = Some (Build.patch_id build))
             /\ (failure (proceed cc db []) = None ->
                 forall o, In o (emitted (proceed cc db [])) ->
                 synced GapSync pw_instance (Build.patch_id build)
                        (after (proceed cc db [])))).
  { intros cc. simpl. split; [left; reflexivity|]. split; intros; tauto. }
  destruct (GitHub.all_runs c) as [page|]; [|apply Hskip].
  destruct (GitHub.workflow_runs page) as [[|r runs]|];
    [apply Hskip| |apply Hskip].
  destruct (GitHub.group_runs (r :: runs) []) as [e|g].
  { simpl. split; [left; reflexivity|]. split; [tauto|discriminate]. }
  destruct (GitHub.sort_groups g) as [e|sorted].
  { simpl. split; [left; reflexivity|]. split; [tauto|discriminate]. }
  pose proof (github_workflow_results_patch pw_instance build sorted) as Hp.
  destruct (GitHub.workflow_results pw_instance build sorted) as [os [e|]].
  - simpl in *. split; [left; reflexivity|].
    split; [|discriminate]. intros o Ho. apply Hp. exact Ho.
  - split; [apply mark_build_marks_at_most|].
    destruct (mark_build_after c db os pw_instance (Build.patch_id build)
                               GapSync) as (db' & Hset & ->).
    simpl in *. split.
    + intros o Ho. apply Hp. exact Ho.
    + intros _ o _. eapply synced_set_build_synced. exact Hset.
Qed.

Lemma github_body_spec (api_base : string) (be : GitHub.backend)
      (pw_instance : string) (pw_project : option string)
      (c : GitHub.cache) (build : Build.row) (db : database) :
  let st := GitHub.body api_base be pw_instance pw_project
                        (column_name GapSync) c build db in
  marks_at_most pw_instance db (after st)
  /\ (forall o, In o (emitted st) ->
                Outcome.patch_id o = Some (Build.patch_id build))
  /\ (failure st = None -> forall o, In o (emitted st) ->
      synced GapSync pw_instance (Build.patch_id build) (after st)).
Proof.
  cbv zeta. unfold GitHub.body.
  assert (Hskip : forall cc : GitHub.cache,
             marks_at_most pw_instance db (after (proceed cc db []))
             /\ (forall o, In o (emitted (proceed cc db [])) ->
                           Outcome.patch_id o = Some (Build.patch_id build))
             /\ (failure (proceed cc db []) = None ->
                 forall o, In o (emitted (proceed cc db [])) ->
                 synced GapSync pw_instance (Build.patch_id build)
                        (after (proceed cc db [])))).
  { intros cc. simpl. split; [left; reflexivity|]. split; intros; tauto. }
  destruct (filtered_out pw_project (Build.patchwork_project build));
    [apply Hskip|].
  destruct (eqb_opt_Z (GitHub.prev_series c) (Build.series_id build));
    [apply github_report_spec|].
  destruct (eqb_opt_string (GitHub.prev_url c)
                           (GitHub.api_url api_base build));
    [apply github_report_spec|].
  destruct (be (GitHub.api_url api_base build)
               (GitHub.branch_of (Build.series_id build)));
    [apply Hskip | apply github_report_spec].
Qed.

(** ** Cirrus *)

Lemma cirrus_first_completed_patch (pw_instance : string)
      (build : Build.row) (l : list Cirrus.edge) (o : Outcome.t) :
  Cirrus.first_completed pw_instance build l = inr (Some o) ->
  Outcome.patch_id o = Some (Build.patch_id build)
  /\ Outcome.series_id o = Build.series_id build
  /\ Outcome.pw_instance o = pw_instance.
Proof.
  induction l as [|e rest IH]; simpl; [discriminate|].
  destruct (Cirrus.node_of e) as [n|]; [|discriminate].
  destruct (Cirrus.status n) as [st|]; [|discriminate].
  destruct (st =? "COMPLETED"); [|exact IH].
  destruct (Cirrus.failed_tasks _) as [x|fs]; [discriminate|].
  destruct (Cirrus.id n) as [node_id|]; [|discriminate].
  intros [= <-]. repeat split.
Qed.

Lemma cirrus_body_spec (be : Cirrus.backend) (pw_instance : string)
      (pw_project : option string) (s : unit) (build : Build.row)
      (db : database) :
  let st := Cirrus.body be pw_instance pw_project (column_name CirrusSync)
                        s build db in
  marks_at_most pw_instance db (after st)
  /\ (forall o, In o (emitted st) ->
                Outcome.patch_id o = Some (Build.patch_id build))
  /\ (failure st = None -> forall o, In o (emitted st) ->
      synced CirrusSync pw_instance (Build.patch_id build) (after st)).
Proof.
  cbv zeta. unfold Cirrus.body.
  assert (Hskip :
            marks_at_most pw_instance db (after (proceed s db []))
            /\ (forall o, In o (emitted (proceed s db [])) ->
                          Outcome.patch_id o = Some (Build.patch_id build))
            /\ (failure (proceed s db []) = None ->
                forall o, In o (emitted (proceed s db [])) ->
                synced CirrusSync pw_instance (Build.patch_id build)
                       (after (proceed s db [])))).
  { simpl. split; [left; reflexivity|]. split; intros; tauto. }
  assert (Hthrow : forall e,
            marks_at_most pw_instance db (after (throw s db [] e))
            /\ (forall o, In o (emitted (throw s db [] e)) ->
                          Outcome.patch_id o = Some (Build.patch_id build))
            /\ (failure (throw s db [] e) = None ->
                forall o, In o (emitted (throw s db [] e)) ->
                synced CirrusSync pw_instance (Build.patch_id build)
                       (after (throw s db [] e)))).
  { intros e. simpl. split; [left; reflexivity|]. split; intros; tauto. }
  destruct (filtered_out pw_project (Build.patchwork_project build));
    [exact Hskip|].
  destruct (split "/" (Build.repo_name build)) as [|owner [|name [|? ?]]];
    try exact Hskip.
  destruct (be owner name (Cirrus.branch_of (Build.series_id build)))
    as [|r]; [exact Hskip|].
  destruct (Cirrus.builds_data r) as [e|l]; [apply Hthrow|].
  destruct (Cirrus.first_completed pw_instance build l) as [e|[o|]] eqn:Ef;
    [apply Hthrow| |exact Hskip].
  split; [apply mark_build_marks_at_most|].
  destruct (mark_build_after s db [o] pw_instance (Build.patch_id build)
                             CirrusSync) as (db' & Hset & ->).
  simpl. split.
  - intros o' [<-|[]].
    apply (cirrus_first_completed_patch pw_instance build l Ef).
  - intros _ o' _. eapply synced_set_build_synced. exact Hset.
Qed.

(** ** Travis *)

Lemma travis_first_finished_patch (pw_instance : string) (series_id : Z)
      (series_url : string) (travis_repo : option string)
      (l : list Travis.build) (o : Outcome.t) :
  Travis.first_finished pw_instance series_id series_url travis_repo l
  = inr (Some o) ->
  Outcome.patch_id o = None /\ Outcome.series_id o = series_id.
Proof.
  induction l as [|b rest IH]; cbn [Travis.first_finished]; [discriminate|].
  destruct (Travis.state b) as [st|]; [|discriminate].
  destruct (is_in st ["created"; "canceled"]); [exact IH|].
  destruct (Travis.finished st); [|exact IH].
  destruct (Travis.id b) as [build_id|]; [|discriminate].
  intros [= <-]. split; reflexivity.
Qed.

Lemma travis_body_spec (be : Travis.backend) (pw_instance : string)
      (pw_project : option string) (s : unit) (a : branch_row)
      (db : database) :
  let st := Travis.body be pw_instance pw_project s a db in
  git_builds (after st) = git_builds db
  /\ (forall o, In o (emitted st) ->
                Outcome.patch_id o = None
                /\ Outcome.series_id o = branch_series_id a).
Proof.
  cbv zeta. unfold Travis.body.
  destruct a as [[[[series_id project] series_url] branchname] travis_repo].
  destruct (filtered_out pw_project project);
    [simpl; split; [reflexivity | intros o []]|].
  destruct (Travis._get_builds_for_branch be travis_repo branchname)
    as [|l]; [simpl; split; [reflexivity | intros o []]|].
  destruct (Travis.first_finished pw_instance series_id series_url
                                  travis_repo l) as [e|[o|]] eqn:Ef;
    [simpl; split; [reflexivity | intros o []]
    | |simpl; split; [reflexivity | intros o []]].
  simpl. split; [reflexivity|].
  intros o' [<-|[]].
  apply (travis_first_finished_patch _ _ _ _ _ Ef).
Qed.

(** ** Loops over the work queue of a sync column *)

Section QueueLoops.

Context {S : Type}.
Variable c : sync_col.
Variable pw_instance : string.
Variable body : S -> Build.row -> database -> step S.

Hypothesis body_spec :
  forall s build db,
    marks_at_most pw_instance db (after (body s build db))
    /\ (forall o, In o (emitted (body s build db)) ->
                  Outcome.patch_id o = Some (Build.patch_id build))
    /\ (failure (body s build db) = None ->
        forall o, In o (emitted (body s build db)) ->
        synced c pw_instance (Build.patch_id build) (after (body s build db))).

Lemma queue_keeps_synced (units : list Build.row) (s : S) (db : database)
      (instance : string) (patch_id : Z) :
  synced c instance patch_id db ->
  synced c instance patch_id (store (for_each body s units db)).
Proof.
  apply (for_each_store_invariant body (synced c instance patch_id)).
  intros s0 u db0. eapply marks_at_most_keeps_synced. apply body_spec.
Qed.

Lemma queue_settles (units : list Build.row) (s : S) (db : database)
      (o : Outcome.t) (patch_id : Z) :
  raised (for_each body s units db) = None ->
  In o (yielded (for_each body s units db)) ->
  Outcome.patch_id o = Some patch_id ->
  synced c pw_instance patch_id (store (for_each body s units db)).
Proof.
  apply (for_each_settles body (fun p => synced c pw_instance p)).
  - intros s0 u db0 p. eapply marks_at_most_keeps_synced. apply body_spec.
  - intros s0 u db0 o0 p Hf Ho Hp.
    destruct (body_spec s0 u db0) as (_ & Hpatch & Hmark).
    specialize (Hpatch o0 Ho). rewrite Hp in Hpatch.
    injection Hpatch as ->. apply (Hmark Hf o0 Ho).
Qed.

Lemma queue_quiet (units : list Build.row) (s : S) (db db0 : database)
      (o : Outcome.t) (patch_id : Z) :
  get_unsynced_builds db0 pw_instance (column_name c) = Some units ->
  synced c pw_instance patch_id db0 ->
  In o (yielded (for_each body s units db)) ->
  Outcome.patch_id o <> Some patch_id.
Proof.
  intros Hq Hs Ho Hp.
  destruct (for_each_yielded body units s db o Ho) as (s' & u & db' & Hu & He).
  destruct (body_spec s' u db') as (_ & Hpatch & _).
  specialize (Hpatch o He). rewrite Hp in Hpatch.
  injection Hpatch as Hpatch.
  apply (synced_not_queued Hs Hq u Hu). symmetry. exact Hpatch.
Qed.

End QueueLoops.

Lemma github_consumes_queue (api_base : string) :
  consumes_queue (GitHubActionsProvider api_base) GapSync.
Proof.
  split; [reflexivity|].
  intros be db pw_instance pw_project. cbv zeta.
  unfold get_build_results, GitHub.get_build_results.
  change (sync_column_of "gap") with (column_name GapSync).
  destruct (get_unsynced_builds db pw_instance (column_name GapSync))
    as [units|] eqn:Hq.
  - split.
    + intros patch_id Hs. split.
      * apply queue_keeps_synced with (pw_instance := pw_instance);
          [|exact Hs].
        intros s b d. apply github_body_spec.
      * intros o Ho.
        eapply queue_quiet with (c := GapSync); try eassumption.
        intros s b d. apply github_body_spec.
    + intros o patch_id Hr Ho Hp.
      eapply queue_settles; try eassumption.
      intros s b d. apply github_body_spec.
  - simpl. split.
    + intros patch_id Hs. split; [exact Hs | intros o []].
    + intros o patch_id; discriminate.
Qed.

Lemma cirrus_consumes_queue : consumes_queue CirrusProvider CirrusSync.
Proof.
  split; [reflexivity|].
  intros be db pw_instance pw_project. cbv zeta.
  unfold get_build_results, Cirrus.get_build_results.
  change (sync_column_of "cirrus") with (column_name CirrusSync).
  destruct (get_unsynced_builds db pw_instance (column_name CirrusSync))
    as [units|] eqn:Hq.
  - split.
    + intros patch_id Hs. split.
      * apply queue_keeps_synced with (pw_instance := pw_instance);
          [|exact Hs].
        intros s b d. apply cirrus_body_spec.
      * intros o Ho.
        eapply queue_quiet with (c := CirrusSync); try eassumption.
        intros s b d. apply cirrus_body_spec.
    + intros o patch_id Hr Ho Hp.
      eapply queue_settles; try eassumption.
      intros s b d. apply cirrus_body_spec.
  - simpl. split.
    + intros patch_id Hs. split; [exact Hs | intros o []].
    + intros o patch_id; discriminate.
Qed.

(** Once a patch is synced in the provider's column, no later call
    yields for it and no later queue holds it. *)
Lemma poll_quiet (p : provider) (c : sync_col) (pw_instance : string)
      (patch_id : Z) :
  consumes_queue p c ->
  forall later db,
    synced c pw_instance patch_id db ->
    Forall (fun r' =>
              (forall o', In o' (yielded r') ->
                          Outcome.patch_id o' <> Some patch_id)
              /\ exists l,
                  get_unsynced_builds (store r') pw_instance (sync_column p)
                  = Some l
                  /\ forall b, In b l -> Build.patch_id b <> patch_id)
           (poll p pw_instance later db).
Proof.
  intros [Hcol Hp] later.
  induction later as [|[be pw_project] rest IH]; intros db Hs; simpl;
    [constructor|].
  destruct (Hp be db pw_instance pw_project) as [Hkeep _].
  destruct (Hkeep patch_id Hs) as [Hs' Hquiet].
  constructor.
  - split; [exact Hquiet|].
    rewrite Hcol. unfold get_unsynced_builds.
    rewrite column_of_name_column_name. eexists. split; [reflexivity|].
    apply (synced_not_queued Hs').
    unfold get_unsynced_builds. rewrite column_of_name_column_name.
    reflexivity.
  - apply IH. exact Hs'.
Qed.

Lemma travis_yields_no_patch (be : Travis.backend) (db : database)
      (pw_instance : string) (pw_project : option string) (o : Outcome.t) :
  In o (yielded (Travis.get_build_results be db pw_instance pw_project)) ->
  Outcome.patch_id o = None.
Proof.
  unfold Travis.get_build_results. intros Ho.
  destruct (for_each_yielded _ _ _ _ _ Ho) as (s & a & db' & _ & He).
  apply (travis_body_spec be pw_instance pw_project s a db'). exact He.
Qed.

(** [git_builds] has no column [dummy_sync]: the query that opens
    [DummyProvider.get_build_results] fails, and the call ends before
    its loop starts. *)
Lemma dummy_yields_nothing (db : database) (pw_instance : string)
      (pw_project : option string) :
  Dummy.get_build_results db pw_instance pw_project
  = {| yielded := []; store := db; raised := Some OperationalError |}.
Proof. reflexivity. Qed.

(* ================================================================== *)
(** * Properties of the providers *)

(** C1, as stated, fails: GitHub reports two workflows for the branch of
    series 1000, and the run of the second lacks [status].  The call
    yields the outcome of the first workflow for patch 100001 and then
    ends with [KeyError]; the patch is still in the queue of [gap_sync],
    and the next call against the same answer yields the same outcome
    again. *)
Lemma yielded_but_not_synced :
  let be := Scenario.with_github
              (Scenario.github_answering
                 [Scenario.completed_run "Build" "success";
                  Scenario.run_without_status "Lint"]) in
  let p := GitHubActionsProvider "https://api.github.com" in
  let r := get_build_results p be Scenario.queued Scenario.instance None in
  map (fun o => (Outcome.series_id o, Outcome.patch_id o, Outcome.result o))
      (yielded r)
  = [(1000, Some 100001, "passed")]
  /\ raised r = Some KeyError
  /\ get_unsynced_builds (store r) Scenario.instance (sync_column p)
     = Some [Scenario.patch_100001]
  /\ yielded (get_build_results p be (store r) Scenario.instance None)
     = yielded r.
Proof. repeat split. Qed.

(** C1, amended: for every provider, if a call of [get_build_results]
    yields an outcome that carries a [patch_id] and the call runs to its
    end without raising, then afterwards [get_unsynced_builds] for the
    provider's sync column succeeds and holds no row of that patch, and
    in every later sequence of calls on the same provider and instance
    no call yields an outcome for that patch and no queue holds it
    again. *)
Theorem yielded_builds_are_synced
        (p : provider) (be : backends) (db : database)
        (pw_instance : string) (pw_project : option string)
        (o : Outcome.t) (patch_id : Z) :
  let r := get_build_results p be db pw_instance pw_project in
  raised r = None ->
  In o (yielded r) ->
  Outcome.patch_id o = Some patch_id ->
  (exists l,
      get_unsynced_builds (store r) pw_instance (sync_column p) = Some l
      /\ forall b, In b l -> Build.patch_id b <> patch_id)
  /\ forall later : list (backends * option string),
       Forall (fun r' =>
                 (forall o', In o' (yielded r') ->
                             Outcome.patch_id o' <> Some patch_id)
                 /\ exists l,
                     get_unsynced_builds (store r') pw_instance
                                         (sync_column p) = Some l
                     /\ forall b, In b l -> Build.patch_id b <> patch_id)
              (poll p pw_instance later (store r)).
Proof.
  cbv zeta. intros Hr Ho Hp.
  assert (Hq : forall c, consumes_queue p c ->
     (exists l,
         get_unsynced_builds
           (store (get_build_results p be db pw_instance pw_project))
           pw_instance (sync_column p) = Some l
         /\ forall b, In b l -> Build.patch_id b <> patch_id)
     /\ forall later : list (backends * option string),
       Forall (fun r' =>
                 (forall o', In o' (yielded r') ->
                             Outcome.patch_id o' <> Some patch_id)
                 /\ exists l,
                     get_unsynced_builds (store r') pw_instance
                                         (sync_column p) = Some l
                     /\ forall b, In b l -> Build.patch_id b <> patch_id)
              (poll p pw_instance later
                    (store (get_build_results p be db pw_instance
                                              pw_project)))).
  { intros c Hc.
    assert (Hs : synced c pw_instance patch_id
                   (store (get_build_results p be db pw_instance
                                             pw_project))).
    { destruct Hc as [_ Hc].
      destruct (Hc be db pw_instance pw_project) as [_ Hset].
      eapply Hset; eassumption. }
    split.
    - destruct Hc as [Hcol _]. rewrite Hcol.
      unfold get_unsynced_builds. rewrite column_of_name_column_name.
      eexists. split; [reflexivity|].
      apply (synced_not_queued Hs).
      unfold get_unsynced_builds. rewrite column_of_name_column_name.
      reflexivity.
    - intros later. apply (@poll_quiet p c pw_instance patch_id Hc). exact Hs. }
  destruct p as [api_base| | |].
  - apply (Hq GapSync). apply github_consumes_queue.
  - simpl in Ho. apply travis_yields_no_patch in Ho. congruence.
  - apply (Hq CirrusSync). apply cirrus_consumes_queue.
  - simpl in Ho. destruct Ho.
Qed.

(** Scenario B: GitHub reports one completed run with conclusion
    [success] for the branch of series 1000.  The call yields for patch
    100001 and ends normally; afterwards the queue holds no row of the
    patch, and two more calls against the same answer yield nothing for
    it. *)
Lemma yielded_builds_are_synced_witness :
  let be := Scenario.with_github
              (Scenario.github_answering
                 [Scenario.completed_run "Build" "success"]) in
  let p := GitHubActionsProvider "https://api.github.com" in
  let r := get_build_results p be Scenario.queued Scenario.instance None in
  (exists l,
      get_unsynced_builds (store r) Scenario.instance (sync_column p) = Some l
      /\ forall b, In b l -> Build.patch_id b <> 100001)
  /\ Forall (fun r' =>
               (forall o', In o' (yielded r') ->
                           Outcome.patch_id o' <> Some 100001)
               /\ exists l,
                   get_unsynced_builds (store r') Scenario.instance
                                       (sync_column p) = Some l
                   /\ forall b, In b l -> Build.patch_id b <> 100001)
            (poll p Scenario.instance [(be, None); (be, None)] (store r)).
Proof.
  cbv zeta.
  destruct (@yielded_builds_are_synced
              (GitHubActionsProvider "https://api.github.com")
              (Scenario.with_github
                 (Scenario.github_answering
                    [Scenario.completed_run "Build" "success"]))
              Scenario.queued Scenario.instance None
              (GitHub.outcome_of
                 Scenario.instance Scenario.patch_100001 "Build" "passed"
                 "https://github.com/owner/repo/actions/runs/1")
              100001 eq_refl (or_introl eq_refl) eq_refl) as [H1 H2].
  split; [exact H1|]. apply H2.
Defined.

(** C2: the GitHub provider marks a build whose only run is still in
    progress.  With patch 100001 of series 1000 in the queue and GitHub
    reporting one run with status [in_progress], the call yields
    nothing, ends normally and sets [gap_sync] of the patch to 1; a
    later call, made when the run has completed, finds the queue empty
    and yields nothing, so the result is never reported.  The Cirrus
    provider on the same build, with a build reported as executing,
    yields nothing and leaves [cirrus_sync] at 0.

    The runs fetched for one series also serve the next series of the
    same repository: with patches of series 1000 and 1001 queued for
    [owner/repo], a completed run on the branch of series 1000 and a
    run in progress on the branch of series 1001, the call asks for the
    first branch only, yields [passed] for both patches with the run of
    series 1000, and marks both. *)
Theorem github_marks_in_flight_build :
  let p := GitHubActionsProvider "https://api.github.com" in
  let r := get_build_results
             p (Scenario.with_github
                  (Scenario.github_answering
                     [Scenario.run_in_progress "Build"]))
             Scenario.queued Scenario.instance None in
  let r' := get_build_results
              p (Scenario.with_github
                   (Scenario.github_answering
                      [Scenario.completed_run "Build" "success"]))
              (store r) Scenario.instance None in
  let rc := get_build_results
              CirrusProvider (Scenario.with_cirrus Scenario.cirrus_executing)
              Scenario.queued Scenario.instance None in
  let r2 := get_build_results
              p (Scenario.with_github Scenario.github_1000_done)
              Scenario.queued_same_repo Scenario.instance None in
  (get_unsynced_builds Scenario.queued Scenario.instance (sync_column p)
   = Some [Scenario.patch_100001]
   /\ yielded r = []
   /\ raised r = None
   /\ map Build.gap_sync (git_builds (store r)) = [1]
   /\ get_unsynced_builds (store r) Scenario.instance (sync_column p)
      = Some []
   /\ yielded r' = [])
  /\ (yielded rc = []
      /\ raised rc = None
      /\ store rc = Scenario.queued)
  /\ (map (fun o => (Outcome.series_id o, Outcome.patch_id o,
                     Outcome.result o, Outcome.build_url o))
          (yielded r2)
      = [(1000, Some 100001, "passed",
          "https://github.com/owner/repo/actions/runs/1");
         (1001, Some 100102, "passed",
          "https://github.com/owner/repo/actions/runs/1")]
      /\ raised r2 = None
      /\ map Build.gap_sync (git_builds (store r2)) = [1; 1]).
Proof. repeat split. Qed.

(** ** The branch-keyed provider *)

Lemma travis_finished_not_pending (st : string) :
  Travis.finished st = true -> is_in st ["created"; "canceled"] = false.
Proof.
  unfold Travis.finished, is_in. simpl.
  destruct (st =? "failed") eqn:E1;
    [apply String.eqb_eq in E1; subst; reflexivity|].
  destruct (st =? "passed") eqn:E2;
    [apply String.eqb_eq in E2; subst; reflexivity|].
  destruct (st =? "errored") eqn:E3;
    [apply String.eqb_eq in E3; subst; reflexivity|].
  discriminate.
Qed.

Lemma travis_first_finished_skips (pw_instance : string) (series_id : Z)
      (series_url : string) (travis_repo : option string)
      (waiting l : list Travis.build) :
  Forall (fun w => exists s, Travis.state w = Some s
                             /\ Travis.finished s = false) waiting ->
  Travis.first_finished pw_instance series_id series_url travis_repo
                        (waiting ++ l)%list
  = Travis.first_finished pw_instance series_id series_url travis_repo l.
Proof.
  induction 1 as [|w ws (s & Hs & Hf) _ IH]; [reflexivity|].
  cbn [app Travis.first_finished]. rewrite Hs, Hf.
  destruct (is_in s ["created"; "canceled"]); exact IH.
Qed.

Lemma travis_first_finished_takes (pw_instance : string) (series_id : Z)
      (series_url : string) (travis_repo : option string)
      (b : Travis.build) (rest : list Travis.build) (st : string)
      (build_id : Z) :
  Travis.state b = Some st -> Travis.finished st = true ->
  Travis.id b = Some build_id ->
  Travis.first_finished pw_instance series_id series_url travis_repo
                        (b :: rest)
  = inr (Some (Travis.outcome_of pw_instance series_id series_url travis_repo
                                 b st build_id)).
Proof.
  intros Hs Hf Hi. cbn [Travis.first_finished].
  rewrite Hs, (travis_finished_not_pending st Hf), Hf, Hi. reflexivity.
Qed.

Lemma active_rows_cleared (instance : string) (x : Series.row)
      (l : list Series.row) :
  active_rows instance (put_branch (Some "") (Series.series_repo x) x :: l)
  = active_rows instance l.
Proof.
  cbn [active_rows]. simpl.
  destruct (Series.series_instance x =? instance); reflexivity.
Qed.

(** Clearing a branch adds no active branch, and the cleared series has
    none. *)
Lemma active_after_clear (db : database) (instance i : string)
      (series_id : Z) (a : branch_row) :
  In a (get_active_branches (clear_series_branch db i series_id) instance) ->
  In a (get_active_branches db instance)
  /\ (i = instance -> branch_series_id a <> series_id).
Proof.
  unfold get_active_branches, clear_series_branch, with_series.
  cbn [series].
  induction (series db) as [|x l IH]; [intros []|].
  change (update_where (series_matches i series_id)
            (fun r => put_branch (Some "") (Series.series_repo r) r)
            (x :: l))
    with ((if series_matches i series_id x
           then put_branch (Some "") (Series.series_repo x) x else x)
          :: update_where (series_matches i series_id)
               (fun r => put_branch (Some "") (Series.series_repo r) r) l).
  destruct (series_matches i series_id x) eqn:Em.
  - rewrite active_rows_cleared. intros Ha.
    destruct (IH Ha) as [H1 H2]. split; [|exact H2].
    cbn [active_rows].
    destruct (Series.series_instance x =? instance); [|exact H1].
    destruct (active_branch x); [apply in_cons|]; exact H1.
  - cbn [active_rows].
    destruct (Series.series_instance x =? instance) eqn:Ei; [|exact IH].
    destruct (active_branch x) as [b|]; [|exact IH].
    intros [<-|Ha].
    + split; [left; reflexivity|].
      intros -> Hid. simpl in Hid.
      apply String.eqb_eq in Ei.
      assert (series_matches instance series_id x = true); [|congruence].
      apply series_matches_true. split; assumption.
    + destruct (IH Ha) as [H1 H2].
      split; [apply in_cons; exact H1 | exact H2].
Qed.

Lemma travis_body_keeps_inactive (be : Travis.backend)
      (pw_instance : string) (pw_project : option string) (series_id : Z)
      (s : unit) (a : branch_row) (db : database) :
  (forall x, In x (get_active_branches db pw_instance) ->
             branch_series_id x <> series_id) ->
  forall x,
    In x (get_active_branches
            (after (Travis.body be pw_instance pw_project s a db))
            pw_instance) ->
    branch_series_id x <> series_id.
Proof.
  intros H x. unfold Travis.body.
  destruct a as [[[[sid project] series_url] branchname] travis_repo].
  destruct (filtered_out pw_project project); [apply H|].
  destruct (Travis._get_builds_for_branch be travis_repo branchname)
    as [|l]; [apply H|].
  destruct (Travis.first_finished pw_instance sid series_url travis_repo l)
    as [e|[o|]]; [apply H| |apply H].
  simpl. intros Hx. apply active_after_clear in Hx. apply H. apply Hx.
Qed.

Lemma travis_loop_other_series (be : Travis.backend) (pw_instance : string)
      (pw_project : option string) (series_id : Z)
      (units : list branch_row) (db : database) :
  (forall a, In a units -> branch_series_id a <> series_id) ->
  filter (fun o => (Outcome.series_id o =? series_id)%Z)
         (yielded (for_each (Travis.body be pw_instance pw_project) tt
                            units db))
  = [].
Proof.
  intros Hu.
  assert (H : forall o,
             In o (yielded (for_each (Travis.body be pw_instance pw_project)
                                     tt units db)) ->
             (Outcome.series_id o =? series_id)%Z = false).
  { intros o Ho.
    destruct (for_each_yielded _ _ _ _ _ Ho) as (s & a & db' & Ha & He).
    destruct (travis_body_spec be pw_instance pw_project s a db')
      as [_ Hs].
    destruct (Hs o He) as [_ ->]. apply Z.eqb_neq. apply Hu. exact Ha. }
  induction (yielded _) as [|o l IH]; [reflexivity|].
  simpl. rewrite (H o (or_introl eq_refl)). apply IH.
  intros o' Ho'. apply H. right. exact Ho'.
Qed.

Lemma travis_body_takes (be : Travis.backend) (pw_instance : string)
      (pw_project : option string) (db : database)
      (series_id : Z) (project series_url branchname : string)
      (travis_repo : option string)
      (waiting rest : list Travis.build) (b : Travis.build) (st : string)
      (build_id : Z) :
  filtered_out pw_project project = false ->
  Travis._get_builds_for_branch be travis_repo branchname
  = Body (waiting ++ b :: rest)%list ->
  Forall (fun w => exists s, Travis.state w = Some s
                             /\ Travis.finished s = false) waiting ->
  Travis.state b = Some st -> Travis.finished st = true ->
  Travis.id b = Some build_id ->
  Travis.body be pw_instance pw_project tt
              (series_id, project, series_url, branchname, travis_repo) db
  = proceed tt (clear_series_branch db pw_instance series_id)
            [Travis.outcome_of pw_instance series_id series_url travis_repo
                               b st build_id].
Proof.
  intros Hf Hget Hw Hs Hfin Hid. unfold Travis.body.
  rewrite Hf, Hget.
  rewrite travis_first_finished_skips by exact Hw.
  rewrite (@travis_first_finished_takes pw_instance series_id series_url
             travis_repo b rest st build_id Hs Hfin Hid).
  reflexivity.
Qed.

(** C3, amended: the Travis provider on an active branch with a
    finished build.
    Let the series have exactly one active branch on the instance, let
    the project filter, if any, admit it, let the loop reach it (no
    pass for a branch before it raises), and let the backend answer the
    request for its repo and branch with a list of builds in which [b]
    is the first whose state is [failed], [passed] or [errored], with
    an id, and every build before [b] has a state.  Then the call
    yields exactly one outcome for the series; it is built from [b]
    alone: its result is [failed] when the state of [b] is [errored]
    and the state of [b] otherwise, its build URL is made of the repo
    and the id of [b], its sha is that of [b]; it carries no patch id;
    and in the store the call leaves, [get_active_branches] returns no
    row of the series. *)
Theorem travis_first_finished_build
        (be : backends) (db : database) (pw_instance : string)
        (pw_project : option string)
        (series_id : Z) (project series_url branchname : string)
        (travis_repo : option string) (pre post : list branch_row)
        (waiting rest : list Travis.build) (b : Travis.build) (st : string)
        (build_id : Z) :
  let r := get_build_results TravisProvider be db pw_instance pw_project in
  get_active_branches db pw_instance
  = (pre ++ (series_id, project, series_url, branchname, travis_repo)
         :: post)%list ->
  (forall a, In a (pre ++ post)%list -> branch_series_id a <> series_id) ->
  raised (for_each (Travis.body (travis be) pw_instance pw_project) tt
                   pre db) = None ->
  filtered_out pw_project project = false ->
  Travis._get_builds_for_branch (travis be) travis_repo branchname
  = Body (waiting ++ b :: rest)%list ->
  Forall (fun w => exists s, Travis.state w = Some s
                             /\ Travis.finished s = false) waiting ->
  Travis.state b = Some st ->
  Travis.finished st = true ->
  Travis.id b = Some build_id ->
  (exists o,
      filter (fun o => (Outcome.series_id o =? series_id)%Z) (yielded r) = [o]
      /\ Outcome.pw_instance o = pw_instance
      /\ Outcome.series_id o = series_id
      /\ Outcome.result o = (if st =? "errored" then "failed" else st)
      /\ Outcome.build_url o
         = "https://travis-ci.com/" ++ str_of_text travis_repo ++ "/builds/"
           ++ str_of_int build_id
      /\ Outcome.sha o = Travis.sha_of b
      /\ Outcome.patch_name o = series_url
      /\ Outcome.repo_name o = travis_repo
      /\ Outcome.test_name o = ""
      /\ Outcome.patch_id o = None)
  /\ forall a, In a (get_active_branches (store r) pw_instance) ->
               branch_series_id a <> series_id.
Proof.
  cbv zeta. unfold get_build_results, Travis.get_build_results.
  intros Hact Huniq Hreach Hf Hget Hw Hs Hfin Hid.
  rewrite Hact. clear Hact.
  revert db Hreach.
  induction pre as [|x pre IH]; intros db Hreach.
  - cbn [app for_each] in *.
    rewrite (@travis_body_takes (travis be) pw_instance pw_project db
               series_id project series_url branchname travis_repo waiting
               rest b st build_id Hf Hget Hw Hs Hfin Hid) in *.
    cbn [failure proceed emitted after carried yielded store raised] in *.
    split.
    + exists (Travis.outcome_of pw_instance series_id series_url travis_repo
                                b st build_id).
      split; [|repeat split].
      cbn [app filter Travis.outcome_of Outcome.series_id].
      rewrite Z.eqb_refl. f_equal.
      apply travis_loop_other_series.
      intros a Ha. apply Huniq. exact Ha.
    + apply (for_each_store_invariant
               (Travis.body (travis be) pw_instance pw_project)
               (fun d => forall a, In a (get_active_branches d pw_instance) ->
                                   branch_series_id a <> series_id)).
      * intros s u d. apply travis_body_keeps_inactive.
      * intros a Ha. apply active_after_clear in Ha.
        apply Ha. reflexivity.
  - cbn [app for_each] in *.
    destruct (travis_body_spec (travis be) pw_instance pw_project tt x db)
      as [_ Hx].
    destruct (Travis.body (travis be) pw_instance pw_project tt x db)
      as [os db' [] [e|]]; cbn [failure emitted after carried] in *.
    { discriminate Hreach. }
    cbn [yielded store raised] in *.
    assert (Hrest : forall a, In a (pre ++ post)%list ->
                              branch_series_id a <> series_id).
    { intros a Ha. apply Huniq. right. exact Ha. }
    destruct (IH Hrest db' Hreach) as [(o & Ho & Hfields) Hstore].
    split; [|exact Hstore].
    exists o. split; [|exact Hfields].
    rewrite filter_app.
    assert (Hos : filter (fun o0 => (Outcome.series_id o0 =? series_id)%Z) os
                  = []).
    { assert (Hne : forall o0, In o0 os ->
                   (Outcome.series_id o0 =? series_id)%Z = false).
      { intros o0 Ho0. destruct (Hx o0 Ho0) as [_ ->].
        apply Z.eqb_neq. apply Huniq. left. reflexivity. }
      clear -Hne. induction os as [|o0 os IHos]; [reflexivity|].
      simpl. rewrite (Hne o0 (or_introl eq_refl)).
      apply IHos. intros o1 H1. apply Hne. right. exact H1. }
    rewrite Hos. exact Ho.
Qed.

(** Scenario D: series 12345 is under CI on branch [series_12345] of
    [owner/repo]; Travis reports a created build, then an errored one,
    then a passed one.  The call yields one outcome, [failed], for the
    errored build, and the series has no active branch afterwards. *)
Lemma travis_first_finished_build_witness :
  let r := get_build_results TravisProvider
                             (Scenario.with_travis Scenario.travis_errored)
                             Scenario.dispatched Scenario.instance None in
  (exists o,
      filter (fun o => (Outcome.series_id o =? 12345)%Z) (yielded r) = [o]
      /\ Outcome.result o = "failed"
      /\ Outcome.build_url o = "https://travis-ci.com/owner/repo/builds/2"
      /\ Outcome.sha o = "abc2")
  /\ forall a, In a (get_active_branches (store r) Scenario.instance) ->
               branch_series_id a <> 12345.
Proof.
  cbv zeta.
  assert (Hw : Forall (fun w => exists s, Travis.state w = Some s
                                          /\ Travis.finished s = false)
                      [Scenario.travis_build "created" 3 "abc3"]).
  { constructor; [exists "created"; split; reflexivity | constructor]. }
  destruct (@travis_first_finished_build
              (Scenario.with_travis Scenario.travis_errored)
              Scenario.dispatched Scenario.instance None
              12345 Scenario.project
              "https://patchwork.example.com/api/series/12345/"
              "series_12345" (Some "owner/repo") [] []
              [Scenario.travis_build "created" 3 "abc3"]
              [Scenario.travis_build "passed" 1 "abc1"]
              (Scenario.travis_build "errored" 2 "abc2")
              "errored" 2
              eq_refl
              (fun a (H : In a []) => match H with end)
              eq_refl eq_refl eq_refl Hw eq_refl eq_refl eq_refl)
    as [(o & Ho & _ & _ & Hres & Hurl & Hsha & _) Hstore].
  split; [|exact Hstore].
  exists o. repeat split; assumption.
Defined.

(** ** Failures *)

Lemma for_each_raised {U S} (body : S -> U -> database -> step S)
      (units : list U) :
  forall s db e,
    raised (for_each body s units db) = Some e ->
    exists s' u db', In u units /\ failure (body s' u db') = Some e.
Proof.
  induction units as [|u rest IH]; intros s db e; simpl; [discriminate|].
  destruct (failure (body s u db)) as [e'|] eqn:Ef; simpl.
  - intros [= <-]. exists s, u, db. auto.
  - intros Hr. destruct (IH _ _ _ Hr) as (s' & u' & db' & Hu & Hf).
    exists s', u', db'. auto.
Qed.

Lemma mark_build_failure {S} (s : S) (db : database) (os : list Outcome.t)
      (pw_instance : string) (patch_id : Z) (ci_type : string) (e : exn) :
  failure (mark_build s db os pw_instance patch_id ci_type) = Some e ->
  e = OperationalError.
Proof.
  unfold mark_build.
  destruct (set_build_synced db pw_instance patch_id ci_type); simpl;
    congruence.
Qed.

Lemma github_group_runs_error (runs : list GitHub.workflow_run) :
  forall g e, GitHub.group_runs runs g = inl e -> e = KeyError.
Proof.
  induction runs as [|r rest IH]; intros g e; simpl; [discriminate|].
  destruct (GitHub.name r); [apply IH | congruence].
Qed.

Lemma github_started_keys_error (runs : list GitHub.workflow_run) (e : exn) :
  GitHub.started_keys runs = inl e -> e = KeyError.
Proof.
  induction runs as [|r rest IH]; simpl; [discriminate|].
  destruct (GitHub.run_started_at r); [|congruence].
  destruct (GitHub.started_keys rest); [|discriminate].
  intros [= <-]. apply IH. reflexivity.
Qed.

Lemma github_sort_groups_error (g : GitHub.groups) (e : exn) :
  GitHub.sort_groups g = inl e -> e = KeyError.
Proof.
  induction g as [|[n rs] rest IH]; simpl; [discriminate|].
  destruct (GitHub.started_keys rs) eqn:Ek.
  - intros [= <-]. apply (github_started_keys_error rs). exact Ek.
  - destruct (GitHub.sort_groups rest); [|discriminate].
    intros [= <-]. apply IH. reflexivity.
Qed.

Lemma github_workflow_results_error (pw_instance : string)
      (build : Build.row) (g : GitHub.groups) (e : exn) :
  snd (GitHub.workflow_results pw_instance build g) = Some e ->
  e = KeyError \/ e = IndexError.
Proof.
  induction g as [|[workflow_name runs] rest IH]; simpl; [discriminate|].
  destruct runs as [|latest_run ?]; [simpl; intros [= <-]; auto|].
  destruct (GitHub.status latest_run) as [st|];
    [|simpl; intros [= <-]; auto].
  destruct (GitHub.conclusion latest_run) as [| |concl];
    [simpl; intros [= <-]; auto| |];
    (destruct (GitHub.html_url latest_run) as [build_url|];
     [|simpl; intros [= <-]; auto];
     destruct (negb (st =? "completed")); [exact IH|];
     destruct (GitHub.workflow_results pw_instance build rest) as [os e'];
     exact IH).
Qed.

Lemma github_report_failure (pw_instance sync_column : string)
      (c : GitHub.cache) (build : Build.row) (db : database) (e : exn) :
  failure (GitHub.report pw_instance sync_column c build db) = Some e ->
  e <> RequestException.
Proof.
  unfold GitHub.report.
  destruct (GitHub.all_runs c) as [page|]; [|discriminate].
  destruct (GitHub.workflow_runs page) as [[|r runs]|]; try discriminate.
  destruct (GitHub.group_runs (r :: runs) []) as [e'|g] eqn:Eg.
  { simpl. intros [= <-].
    rewrite (github_group_runs_error _ _ Eg). discriminate. }
  destruct (GitHub.sort_groups g) as [e'|sorted] eqn:Es.
  { simpl. intros [= <-].
    rewrite (github_sort_groups_error _ Es). discriminate. }
  pose proof (github_workflow_results_error pw_instance build sorted) as Hw.
  destruct (GitHub.workflow_results pw_instance build sorted) as [os [e'|]].
  - simpl. intros [= <-].
    destruct (Hw e' eq_refl) as [-> | ->]; discriminate.
  - intros Hf. rewrite (mark_build_failure _ _ _ _ _ _ Hf). discriminate.
Qed.

Lemma github_body_failure (api_base : string) (be : GitHub.backend)
      (pw_instance : string) (pw_project : option string)
      (sync_column : string) (c : GitHub.cache) (build : Build.row)
      (db : database) (e : exn) :
  failure (GitHub.body api_base be pw_instance pw_project sync_column
                       c build db) = Some e ->
  e <> RequestException.
Proof.
  unfold GitHub.body.
  destruct (filtered_out pw_project (Build.patchwork_project build));
    [discriminate|].
  destruct (eqb_opt_Z (GitHub.prev_series c) (Build.series_id build));
    [apply github_report_failure|].
  destruct (eqb_opt_string (GitHub.prev_url c)
                           (GitHub.api_url api_base build));
    [apply github_report_failure|].
  destruct (be (GitHub.api_url api_base build)
               (GitHub.branch_of (Build.series_id build)));
    [discriminate | apply github_report_failure].
Qed.

Lemma travis_first_finished_error (pw_instance : string) (series_id : Z)
      (series_url : string) (travis_repo : option string)
      (l : list Travis.build) (e : exn) :
  Travis.first_finished pw_instance series_id series_url travis_repo l
  = inl e ->
  e = KeyError.
Proof.
  induction l as [|b rest IH]; cbn [Travis.first_finished]; [discriminate|].
  destruct (Travis.state b) as [st|]; [|congruence].
  destruct (is_in st ["created"; "canceled"]); [exact IH|].
  destruct (Travis.finished st); [|exact IH].
  destruct (Travis.id b); [discriminate | congruence].
Qed.

Lemma travis_body_failure (be : Travis.backend) (pw_instance : string)
      (pw_project : option string) (s : unit) (a : branch_row)
      (db : database) (e : exn) :
  failure (Travis.body be pw_instance pw_project s a db) = Some e ->
  e <> RequestException.
Proof.
  unfold Travis.body.
  destruct a as [[[[series_id project] series_url] branchname] travis_repo].
  destruct (filtered_out pw_project project); [discriminate|].
  destruct (Travis._get_builds_for_branch be travis_repo branchname)
    as [|l]; [discriminate|].
  destruct (Travis.first_finished pw_instance series_id series_url
                                  travis_repo l) as [e'|[o|]] eqn:Ef;
    try discriminate.
  simpl. intros [= <-].
  rewrite (travis_first_finished_error _ _ _ _ _ Ef). discriminate.
Qed.

Lemma cirrus_builds_data_error (r : Cirrus.reply) (e : exn) :
  Cirrus.builds_data r = inl e -> e = AttributeError.
Proof.
  unfold Cirrus.builds_data.
  destruct (Cirrus.data_of r) as [| |d]; try congruence.
  destruct (Cirrus.ownerRepository d) as [| |repo]; try congruence.
  destruct (Cirrus.builds_of repo) as [b|]; [|discriminate].
  destruct (Cirrus.edges b); discriminate.
Qed.

Lemma cirrus_failed_tasks_error (l : list Cirrus.task) (e : exn) :
  Cirrus.failed_tasks l = inl e -> e = KeyError.
Proof.
  induction l as [|t rest IH]; simpl; [discriminate|].
  destruct (Cirrus.task_status t); [|congruence].
  destruct (Cirrus.failed_tasks rest); [|discriminate].
  intros [= <-]. apply IH. reflexivity.
Qed.

Lemma cirrus_first_completed_error (pw_instance : string)
      (build : Build.row) (l : list Cirrus.edge) (e : exn) :
  Cirrus.first_completed pw_instance build l = inl e -> e = KeyError.
Proof.
  induction l as [|x rest IH]; simpl; [discriminate|].
  destruct (Cirrus.node_of x) as [n|]; [|congruence].
  destruct (Cirrus.status n) as [st|]; [|congruence].
  destruct (st =? "COMPLETED"); [|exact IH].
  destruct (Cirrus.failed_tasks _) as [x'|fs] eqn:Ef.
  - intros [= <-]. apply (cirrus_failed_tasks_error _ Ef).
  - destruct (Cirrus.id n); [discriminate | congruence].
Qed.

Lemma cirrus_body_failure (be : Cirrus.backend) (pw_instance : string)
      (pw_project : option string) (sync_column : string) (s : unit)
      (build : Build.row) (db : database) (e : exn) :
  failure (Cirrus.body be pw_instance pw_project sync_column s build db)
  = Some e ->
  e <> RequestException.
Proof.
  unfold Cirrus.body.
  destruct (filtered_out pw_project (Build.patchwork_project build));
    [discriminate|].
  destruct (split "/" (Build.repo_name build)) as [|owner [|name [|? ?]]];
    try discriminate.
  destruct (be owner name (Cirrus.branch_of (Build.series_id build)))
    as [|r]; [discriminate|].
  destruct (Cirrus.builds_data r) as [e'|l] eqn:Eb.
  { simpl. intros [= <-].
    rewrite (cirrus_builds_data_error _ Eb). discriminate. }
  destruct (Cirrus.first_completed pw_instance build l) as [e'|[o|]] eqn:Ef.
  - simpl. intros [= <-].
    rewrite (cirrus_first_completed_error _ _ _ Ef). discriminate.
  - intros Hf. rewrite (mark_build_failure _ _ _ _ _ _ Hf). discriminate.
  - discriminate.
Qed.

(** A pass that only [continue]s drops out of the loop's result. *)
Lemma for_each_skip {U S} (body : S -> U -> database -> step S)
      (s s' : S) (u : U) (rest : list U) (db : database) :
  body s u db = proceed s' db [] ->
  for_each body s (u :: rest) db = for_each body s' rest db.
Proof.
  intros H. cbn [for_each]. rewrite H. simpl.
  destruct (for_each body s' rest db). reflexivity.
Qed.

(** C4, as stated, fails: a response with an unexpected or missing field
    ends the whole call.  Patches 100001 (series 1000) and 100101
    (series 1001) are queued.  When Cirrus answers [ownerRepository:
    null] for series 1000 the call ends with [AttributeError], and when
    it answers a node without [status] the call ends with [KeyError];
    when GitHub answers a run without [status] the call ends with
    [KeyError].  In each case nothing is yielded for series 1001,
    although the same loop yields for it when the request for series
    1000 fails with a [RequestException] instead. *)
Lemma data_shape_error_escapes :
  let cirrus_on be :=
    get_build_results CirrusProvider (Scenario.with_cirrus be)
                      Scenario.queued2 Scenario.instance None in
  let github_on be :=
    get_build_results (GitHubActionsProvider "https://api.github.com")
                      (Scenario.with_github be)
                      Scenario.queued2 Scenario.instance None in
  get_unsynced_builds Scenario.queued2 Scenario.instance
                      (sync_column CirrusProvider)
  = Some [Scenario.patch_100001; Scenario.patch_100101]
  /\ raised (cirrus_on Scenario.cirrus_unknown_1000) = Some AttributeError
  /\ yielded (cirrus_on Scenario.cirrus_unknown_1000) = []
  /\ raised (cirrus_on Scenario.cirrus_partial_1000) = Some KeyError
  /\ yielded (cirrus_on Scenario.cirrus_partial_1000) = []
  /\ raised (github_on
               (Scenario.github_answering
                  [Scenario.run_without_status "Build"])) = Some KeyError
  /\ yielded (github_on
                (Scenario.github_answering
                   [Scenario.run_without_status "Build"])) = []
  /\ raised (cirrus_on Scenario.cirrus_failing_1000) = None
  /\ map (fun o => (Outcome.series_id o, Outcome.patch_id o))
         (yielded (cirrus_on Scenario.cirrus_failing_1000))
     = [(1001, Some 100101)].
Proof. repeat split. Qed.

(** C4, amended: a request that fails ([requests.RequestException]: a
    network error or an HTTP error status) aborts the unit of work it
    was made for and nothing else.  No call of [get_build_results], on
    any provider, ends with a [RequestException].  In each of the three
    providers that query a backend, when the request made for the unit
    at the head of the loop fails, the loop goes on with the remaining
    units from the same store and with nothing yielded: the call gives
    what it gives on the remaining units alone (for GitHub, with
    [prev_series] and [prev_url] set to the series and URL of the
    failed build). *)
Theorem request_failure_skips_unit :
  (forall p be db pw_instance pw_project,
      raised (get_build_results p be db pw_instance pw_project)
      <> Some RequestException)
  /\ (forall api_base be pw_instance pw_project sync_column c build rest db,
         filtered_out pw_project (Build.patchwork_project build) = false ->
         eqb_opt_Z (GitHub.prev_series c) (Build.series_id build) = false ->
         eqb_opt_string (GitHub.prev_url c) (GitHub.api_url api_base build)
         = false ->
         be (GitHub.api_url api_base build)
            (GitHub.branch_of (Build.series_id build)) = Failed ->
         for_each (GitHub.body api_base be pw_instance pw_project sync_column)
                  c (build :: rest) db
         = for_each (GitHub.body api_base be pw_instance pw_project
                                 sync_column)
                    {| GitHub.prev_series := Some (Build.series_id build);
                       GitHub.all_runs := GitHub.all_runs c;
                       GitHub.prev_url :=
                         Some (GitHub.api_url api_base build) |}
                    rest db)
  /\ (forall be pw_instance pw_project series_id project series_url
             branchname travis_repo rest db,
         Travis._get_builds_for_branch be travis_repo branchname = Failed ->
         for_each (Travis.body be pw_instance pw_project) tt
                  ((series_id, project, series_url, branchname, travis_repo)
                     :: rest) db
         = for_each (Travis.body be pw_instance pw_project) tt rest db)
  /\ (forall be pw_instance pw_project sync_column build owner name rest db,
         split "/" (Build.repo_name build) = [owner; name] ->
         be owner name (Cirrus.branch_of (Build.series_id build)) = Failed ->
         for_each (Cirrus.body be pw_instance pw_project sync_column) tt
                  (build :: rest) db
         = for_each (Cirrus.body be pw_instance pw_project sync_column) tt
                    rest db).
Proof.
  split; [|split; [|split]].
  - intros p be db pw_instance pw_project Hr.
    destruct p as [api_base| | |]; simpl in Hr.
    + unfold GitHub.get_build_results in Hr.
      destruct (get_unsynced_builds db pw_instance (sync_column_of "gap"));
        [|discriminate].
      destruct (for_each_raised _ _ _ _ Hr) as (s & u & d & _ & Hf).
      exact (github_body_failure _ _ _ _ _ _ _ _ Hf eq_refl).
    + unfold Travis.get_build_results in Hr.
      destruct (for_each_raised _ _ _ _ Hr) as (s & u & d & _ & Hf).
      exact (travis_body_failure _ _ _ _ _ _ Hf eq_refl).
    + unfold Cirrus.get_build_results in Hr.
      destruct (get_unsynced_builds db pw_instance (sync_column_of "cirrus"));
        [|discriminate].
      destruct (for_each_raised _ _ _ _ Hr) as (s & u & d & _ & Hf).
      exact (cirrus_body_failure _ _ _ _ _ _ _ Hf eq_refl).
    + discriminate.
  - intros api_base be pw_instance pw_project sync_column c build rest db
           Hflt Hser Hurl Hget.
    apply for_each_skip. unfold GitHub.body.
    rewrite Hflt, Hser, Hurl, Hget. reflexivity.
  - intros be pw_instance pw_project series_id project series_url
           branchname travis_repo rest db Hget.
    apply for_each_skip. unfold Travis.body. rewrite Hget.
    destruct (filtered_out pw_project project); reflexivity.
  - intros be pw_instance pw_project sync_column build owner name rest db
           Hsplit Hget.
    apply for_each_skip. unfold Cirrus.body. rewrite Hsplit, Hget.
    destruct (filtered_out pw_project (Build.patchwork_project build));
      reflexivity.
Qed.

(** Scenario E: the request for series 1000 fails and the one for series
    1001 does not.  In the Cirrus and GitHub loops over patches 100001
    and 100101 the first patch drops out and the loop runs on the
    second; in the Travis loop over the one active branch of series
    12345 nothing is left to do; and no call ends with a
    [RequestException]. *)
Lemma request_failure_skips_unit_witness :
  raised (get_build_results
            CirrusProvider
            (Scenario.with_cirrus Scenario.cirrus_failing_1000)
            Scenario.queued2 Scenario.instance None)
  <> Some RequestException
  /\ for_each (GitHub.body "https://api.github.com"
                           Scenario.github_failing_1000 Scenario.instance
                           None "gap_sync")
              GitHub.no_cache
              [Scenario.patch_100001; Scenario.patch_100101]
              Scenario.queued2
     = for_each (GitHub.body "https://api.github.com"
                             Scenario.github_failing_1000 Scenario.instance
                             None "gap_sync")
                {| GitHub.prev_series := Some 1000;
                   GitHub.all_runs := None;
                   GitHub.prev_url :=
                     Some "https://api.github.com/repos/owner/repo/actions/runs"
                |}
                [Scenario.patch_100101] Scenario.queued2
  /\ for_each (Travis.body Scenario.travis_down Scenario.instance None) tt
              [(12345, Scenario.project,
                "https://patchwork.example.com/api/series/12345/",
                "series_12345", Some "owner/repo")]
              Scenario.dispatched
     = for_each (Travis.body Scenario.travis_down Scenario.instance None) tt
                [] Scenario.dispatched
  /\ for_each (Cirrus.body Scenario.cirrus_failing_1000 Scenario.instance
                           None "cirrus_sync") tt
              [Scenario.patch_100001; Scenario.patch_100101]
              Scenario.queued2
     = for_each (Cirrus.body Scenario.cirrus_failing_1000 Scenario.instance
                             None "cirrus_sync") tt
                [Scenario.patch_100101] Scenario.queued2.
Proof.
  destruct request_failure_skips_unit as (Hnone & Hgh & Htr & Hci).
  split; [apply Hnone|].
  split; [|split].
  - apply (Hgh "https://api.github.com" Scenario.github_failing_1000
               Scenario.instance None "gap_sync" GitHub.no_cache
               Scenario.patch_100001 [Scenario.patch_100101]
               Scenario.queued2 eq_refl eq_refl eq_refl eq_refl).
  - apply (Htr Scenario.travis_down Scenario.instance None 12345
               Scenario.project
               "https://patchwork.example.com/api/series/12345/"
               "series_12345" (Some "owner/repo") [] Scenario.dispatched
               eq_refl).
  - apply (Hci Scenario.cirrus_failing_1000 Scenario.instance None
               "cirrus_sync" Scenario.patch_100001 "owner" "repo"
               [Scenario.patch_100101] Scenario.queued2 eq_refl eq_refl).
Defined.

(* ================================================================== *)
(** * Further properties of the state store *)

Lemma active_rows_intro (instance : string) (l : list Series.row)
      (r : Series.row) (b : string) :
  In r l -> Series.series_instance r = instance ->
  active_branch r = Some b ->
  In (Series.series_id r, Series.series_project r, Series.series_url r, b,
      Series.series_repo r)
     (active_rows instance l).
Proof.
  intros Hr Hi Hb.
  induction l as [|x l IH]; [destruct Hr|].
  cbn [active_rows].
  destruct Hr as [->|Hr].
  - rewrite Hi, String.eqb_refl, Hb. left. reflexivity.
  - destruct (Series.series_instance x =? instance); [|auto].
    destruct (active_branch x); [right|]; auto.
Qed.

Lemma active_rows_iff (instance : string) (l : list Series.row)
      (a : branch_row) :
  In a (active_rows instance l) <->
  exists r b,
    In r l /\ Series.series_instance r = instance
    /\ active_branch r = Some b
    /\ a = (Series.series_id r, Series.series_project r,
            Series.series_url r, b, Series.series_repo r).
Proof.
  split; [apply in_active_rows|].
  intros (r & b & Hr & Hi & Hb & ->). apply active_rows_intro; assumption.
Qed.

(** [set_series_branch] followed by [get_active_branches]: with a
    branch that is not the empty text, every row of the series is
    returned with its project and URL and with exactly the branch and
    the repo just given; no returned row of the series carries anything
    else; and the rows returned for other series are the ones returned
    before. *)
Theorem set_series_branch_activates
        (db : database) (instance : string) (series_id : Z)
        (repo branch : string) :
  branch <> "" ->
  let db' := set_series_branch db instance series_id repo branch in
  (forall r, In r (series db) ->
             series_matches instance series_id r = true ->
             In (series_id, Series.series_project r, Series.series_url r,
                 branch, Some repo)
                (get_active_branches db' instance))
  /\ (forall sid project url b rp,
         In (sid, project, url, b, rp) (get_active_branches db' instance) ->
         sid = series_id -> b = branch /\ rp = Some repo)
  /\ (forall a, branch_series_id a <> series_id ->
                (In a (get_active_branches db' instance)
                 <-> In a (get_active_branches db instance))).
Proof.
  intros Hb. cbv zeta.
  unfold get_active_branches, set_series_branch, with_series. cbn [series].
  assert (Hact : forall r, active_branch
                             (put_branch (Some branch) (Some repo) r)
                           = Some branch).
  { intros r. unfold active_branch. simpl.
    destruct (branch =? "") eqn:E; [|reflexivity].
    apply String.eqb_eq in E. contradiction. }
  split; [|split].
  - intros r Hr Hm.
    apply series_matches_true in Hm as Hm'. destruct Hm' as [Hid Hinst].
    apply active_rows_iff.
    exists (put_branch (Some branch) (Some repo) r), branch.
    split; [|split; [exact Hinst|split; [apply Hact|]]].
    + unfold update_where. apply in_map_iff. exists r.
      rewrite Hm. auto.
    + simpl. rewrite Hid. reflexivity.
  - intros sid project url b rp Ha ->.
    apply active_rows_iff in Ha.
    destruct Ha as (r & b' & Hr & Hinst & Hab & Heq).
    apply in_update_where in Hr. destruct Hr as (x & Hx & ->).
    destruct (series_matches instance series_id x) eqn:Em.
    + rewrite Hact in Hab. injection Hab as <-.
      injection Heq as _ _ _ -> ->. split; reflexivity.
    + exfalso. injection Heq as Hid _ _ _ _.
      assert (series_matches instance series_id x = true); [|congruence].
      apply series_matches_true. split; [symmetry; exact Hid | exact Hinst].
  - intros a Hne. rewrite !active_rows_iff. split.
    + intros (r & b & Hr & Hinst & Hab & ->).
      apply in_update_where in Hr. destruct Hr as (x & Hx & ->).
      destruct (series_matches instance series_id x) eqn:Em.
      * exfalso. apply Hne. simpl.
        apply series_matches_true in Em. apply Em.
      * exists x, b. auto.
    + intros (r & b & Hr & Hinst & Hab & ->).
      exists r, b. split; [|auto].
      unfold update_where. apply in_map_iff. exists r.
      destruct (series_matches instance series_id r) eqn:Em; [|auto].
      exfalso. apply Hne. simpl.
      apply series_matches_true in Em. apply Em.
Qed.

(** Dispatching series 12345 to [owner/repo], branch [series_12345]. *)
Lemma set_series_branch_activates_witness :
  In (12345, Scenario.project,
      "https://patchwork.example.com/api/series/12345/",
      "series_12345", Some "owner/repo")
     (get_active_branches Scenario.dispatched Scenario.instance).
Proof.
  assert (Hb : "series_12345" <> "") by discriminate.
  destruct (@set_series_branch_activates
              Scenario.tracked Scenario.instance 12345 "owner/repo"
              "series_12345" Hb) as [H _].
  apply (H (new_series_row
              Scenario.instance Scenario.project 12345
              "https://patchwork.example.com/api/series/12345/"
              "Test User" "test@example.com" false)).
  - left. reflexivity.
  - reflexivity.
Defined.

Lemma uncompleted_true (instance project : string) (r : Series.row) :
  uncompleted instance project r = true
  <-> Series.series_instance r = instance
      /\ Series.series_project r = project
      /\ Series.series_completed r = 0
      /\ Series.series_submitted r = 0
      /\ Series.series_downloaded r = 0.
Proof.
  unfold uncompleted.
  rewrite !andb_true_iff, !String.eqb_eq, !Z.eqb_eq. tauto.
Qed.

Lemma in_get_uncompleted_series (db : database) (instance project : string)
      (t : Z * string * string * string) :
  In t (get_uncompleted_series db instance project)
  <-> exists r, In r (series db) /\ uncompleted instance project r = true
                /\ t = series_summary r.
Proof.
  unfold get_uncompleted_series. rewrite in_map_iff. split.
  - intros (r & <- & Hr). apply filter_In in Hr. exists r. tauto.
  - intros (r & Hr & Hu & ->). exists r. rewrite filter_In. auto.
Qed.

Lemma in_get_unsubmitted_series (db : database) (instance project : string)
      (t : Z * string * string * string) :
  In t (get_unsubmitted_series db instance project)
  <-> exists r, In r (series db)
                /\ Series.series_instance r = instance
                /\ Series.series_project r = project
                /\ Series.series_completed r = 1
                /\ Series.series_submitted r = 0
                /\ t = series_summary r.
Proof.
  unfold get_unsubmitted_series. rewrite in_map_iff. split.
  - intros (r & <- & Hr). apply filter_In in Hr. destruct Hr as [Hr Hp].
    rewrite !andb_true_iff, !String.eqb_eq, !Z.eqb_eq in Hp.
    exists r. tauto.
  - intros (r & Hr & H1 & H2 & H3 & H4 & ->). exists r.
    rewrite filter_In, !andb_true_iff, !String.eqb_eq, !Z.eqb_eq. tauto.
Qed.

(** [set_series_completed] moves a series from the uncompleted list to
    the unsubmitted list: afterwards [get_uncompleted_series] lists no
    row of the series, every entry it listed for the series is listed
    by [get_unsubmitted_series], and the entries of the other series
    are listed as before. *)
Theorem set_series_completed_moves
        (db : database) (instance project : string) (series_id : Z) :
  let db' := set_series_completed db instance series_id in
  (forall t, In t (get_uncompleted_series db' instance project) ->
             summary_series_id t <> series_id)
  /\ (forall t, In t (get_uncompleted_series db instance project) ->
                summary_series_id t = series_id ->
                In t (get_unsubmitted_series db' instance project))
  /\ (forall t, summary_series_id t <> series_id ->
                (In t (get_uncompleted_series db' instance project)
                 <-> In t (get_uncompleted_series db instance project))).
Proof.
  cbv zeta. split; [|split].
  - intros t Ht Hid. apply in_get_uncompleted_series in Ht.
    destruct Ht as (r & Hr & Hu & ->).
    simpl in Hr. apply in_update_where in Hr. destruct Hr as (x & _ & ->).
    apply uncompleted_true in Hu. destruct Hu as (Hi & _ & Hc & _).
    destruct (series_matches instance series_id x) eqn:Em.
    + simpl in Hc. discriminate.
    + assert (series_matches instance series_id x = true); [|congruence].
      apply series_matches_true. split; assumption.
  - intros t Ht Hid. apply in_get_uncompleted_series in Ht.
    destruct Ht as (r & Hr & Hu & ->).
    apply uncompleted_true in Hu. destruct Hu as (Hi & Hp & Hc & Hs & Hd).
    apply in_get_unsubmitted_series.
    exists (mark_completed r). simpl.
    split; [|repeat split; assumption].
    unfold update_where. apply in_map_iff. exists r. split; [|exact Hr].
    assert (Hm : series_matches instance series_id r = true)
      by (apply series_matches_true; split; assumption).
    rewrite Hm. reflexivity.
  - intros t Hne. rewrite !in_get_uncompleted_series. split.
    + intros (r & Hr & Hu & ->).
      simpl in Hr. apply in_update_where in Hr. destruct Hr as (x & Hx & ->).
      destruct (series_matches instance series_id x) eqn:Em.
      * exfalso. apply Hne. simpl. apply series_matches_true in Em. apply Em.
      * exists x. auto.
    + intros (r & Hr & Hu & ->). exists r. split; [|auto].
      simpl. unfold update_where. apply in_map_iff. exists r.
      destruct (series_matches instance series_id r) eqn:Em; [|auto].
      exfalso. apply Hne. simpl. apply series_matches_true in Em. apply Em.
Qed.

(** [set_series_submitted] takes a series off both lifecycle lists: no
    entry of the series is listed as uncompleted or as unsubmitted
    afterwards, and the entries of the other series are listed as
    before in both. *)
Theorem set_series_submitted_retires
        (db : database) (instance project : string) (series_id : Z) :
  let db' := set_series_submitted db instance series_id in
  (forall t, In t (get_uncompleted_series db' instance project)
             \/ In t (get_unsubmitted_series db' instance project) ->
             summary_series_id t <> series_id)
  /\ (forall t, summary_series_id t <> series_id ->
                (In t (get_uncompleted_series db' instance project)
                 <-> In t (get_uncompleted_series db instance project))
                /\ (In t (get_unsubmitted_series db' instance project)
                    <-> In t (get_unsubmitted_series db instance project))).
Proof.
  cbv zeta.
  assert (Hsub : forall r,
             In r (series (set_series_submitted db instance series_id)) ->
             Series.series_instance r = instance ->
             Series.series_submitted r = 0 ->
             Series.series_id r <> series_id).
  { intros r Hr Hi Hs Hid. simpl in Hr.
    apply in_update_where in Hr. destruct Hr as (x & _ & ->).
    destruct (series_matches instance series_id x) eqn:Em.
    - simpl in Hs. discriminate.
    - assert (series_matches instance series_id x = true); [|congruence].
      apply series_matches_true. split; assumption. }
  assert (Hother : forall r,
             Series.series_id r <> series_id ->
             (In r (series (set_series_submitted db instance series_id))
              <-> In r (series db))).
  { intros r Hne. simpl. split.
    - intros Hr. apply in_update_where in Hr. destruct Hr as (x & Hx & ->).
      destruct (series_matches instance series_id x) eqn:Em; [|exact Hx].
      exfalso. apply Hne. simpl. apply series_matches_true in Em. apply Em.
    - intros Hr. unfold update_where. apply in_map_iff. exists r.
      destruct (series_matches instance series_id r) eqn:Em; [|auto].
      exfalso. apply Hne. apply series_matches_true in Em. apply Em. }
  split.
  - intros t [Ht|Ht].
    + apply in_get_uncompleted_series in Ht.
      destruct Ht as (r & Hr & Hu & ->).
      apply uncompleted_true in Hu. destruct Hu as (Hi & _ & _ & Hs & _).
      apply (Hsub r Hr Hi Hs).
    + apply in_get_unsubmitted_series in Ht.
      destruct Ht as (r & Hr & Hi & _ & _ & Hs & ->).
      apply (Hsub r Hr Hi Hs).
  - intros t Hne. split.
    + rewrite !in_get_uncompleted_series.
      split; intros (r & Hr & Hu & ->); exists r;
        (split; [apply (Hother r Hne); exact Hr | auto]).
    + rewrite !in_get_unsubmitted_series.
      split; intros (r & Hr & Hrest); exists r;
        (split; [|exact Hrest]);
        destruct Hrest as (_ & _ & _ & _ & ->);
        apply (Hother r Hne); exact Hr.
Qed.

Lemma insert_by_series_id_least (b : Build.row) (l : list Build.row) :
  Forall (series_id_le b) l -> insert_by_series_id b l = b :: l.
Proof.
  destruct l as [|x l]; [reflexivity|].
  intros H. inversion H as [|? ? Hx _]; subst. simpl.
  unfold series_id_le in Hx. apply Z.leb_le in Hx. rewrite Hx. reflexivity.
Qed.

Lemma filter_insert_by_series_id (p : Build.row -> bool) (b : Build.row)
      (l : list Build.row) :
  StronglySorted series_id_le l ->
  filter p (insert_by_series_id b l)
  = if p b then insert_by_series_id b (filter p l) else filter p l.
Proof.
  induction l as [|x l IH]; intros Hs.
  - simpl. destruct (p b); reflexivity.
  - inversion Hs as [|? ? Hl Hx]; subst.
    cbn [insert_by_series_id].
    destruct (Build.series_id b <=? Build.series_id x)%Z eqn:E.
    + cbn [filter]. destruct (p b); [|reflexivity].
      rewrite insert_by_series_id_least; [reflexivity|].
      apply Z.leb_le in E.
      assert (Hall : Forall (series_id_le b) (x :: l)).
      { constructor; [exact E|].
        rewrite Forall_forall in *. intros y Hy.
        specialize (Hx y Hy). unfold series_id_le in *. lia. }
      rewrite Forall_forall in *. intros y Hy.
      apply Hall. change (In y (filter p (x :: l))) in Hy.
      apply filter_In in Hy. apply Hy.
    + cbn [filter]. rewrite (IH Hl).
      destruct (p x), (p b); cbn [insert_by_series_id]; rewrite ?E;
        reflexivity.
Qed.

(** A [WHERE] clause can be applied before or after [ORDER BY]. *)
Lemma filter_order_by_series_id (p : Build.row -> bool)
      (l : list Build.row) :
  filter p (order_by_series_id l) = order_by_series_id (filter p l).
Proof.
  induction l as [|x l IH]; [reflexivity|].
  cbn [order_by_series_id filter].
  rewrite filter_insert_by_series_id by apply order_by_series_id_sorted.
  rewrite IH. destruct (p x); reflexivity.
Qed.

Lemma map_insert_by_series_id (f : Build.row -> Build.row) (b : Build.row)
      (l : list Build.row) :
  (forall x, Build.series_id (f x) = Build.series_id x) ->
  map f (insert_by_series_id b l) = insert_by_series_id (f b) (map f l).
Proof.
  intros Hf. induction l as [|x l IH]; [reflexivity|].
  cbn [insert_by_series_id map]. rewrite !Hf.
  destruct (Build.series_id b <=? Build.series_id x)%Z; [reflexivity|].
  cbn [map]. rewrite IH. reflexivity.
Qed.

Lemma map_order_by_series_id (f : Build.row -> Build.row)
      (l : list Build.row) :
  (forall x, Build.series_id (f x) = Build.series_id x) ->
  map f (order_by_series_id l) = order_by_series_id (map f l).
Proof.
  intros Hf. induction l as [|x l IH]; [reflexivity|].
  cbn [order_by_series_id map].
  rewrite map_insert_by_series_id by exact Hf. rewrite IH. reflexivity.
Qed.

Lemma filter_filter {A} (p q : A -> bool) (l : list A) :
  filter q (filter p l) = filter (fun x => p x && q x) l.
Proof.
  induction l as [|x l IH]; [reflexivity|].
  simpl. destruct (p x); simpl; [|exact IH].
  destruct (q x); rewrite IH; reflexivity.
Qed.

(** [set_build_synced] followed by [get_unsynced_builds] on the same
    column: the queue of any instance is the queue it was, in the same
    order, without the rows of the marked patch. *)
Theorem set_build_synced_dequeues
        (db : database) (instance : string) (patch_id : Z) (c : sync_col)
        (queue_of : string) :
  exists db' q,
    set_build_synced db instance patch_id (column_name c) = Some db'
    /\ get_unsynced_builds db queue_of (column_name c) = Some q
    /\ get_unsynced_builds db' queue_of (column_name c)
       = Some (filter (fun b => negb (build_matches instance patch_id b)) q).
Proof.
  unfold set_build_synced, get_unsynced_builds.
  rewrite column_of_name_column_name.
  eexists. eexists. split; [reflexivity|]. split; [reflexivity|].
  cbn [git_builds with_git_builds]. f_equal.
  rewrite filter_order_by_series_id, filter_filter. f_equal.
  unfold update_where.
  induction (git_builds db) as [|x l IH]; [reflexivity|].
  cbn [map filter]. rewrite IH.
  destruct (build_matches instance patch_id x) eqn:Em.
  - assert (Hu : unsynced queue_of c (mark_synced c x) = false).
    { unfold unsynced. rewrite sync_flag_mark_synced.
      apply andb_false_r. }
    rewrite Hu, andb_false_r. reflexivity.
  - rewrite andb_true_r. reflexivity.
Qed.

(** [set_build_synced] on one column and [get_unsynced_builds] on
    another: the queue of the other column holds the same rows at the
    same places; only the flag of the marked column has changed on the
    rows of the marked patch. *)
Theorem set_build_synced_other_column
        (db : database) (instance : string) (patch_id : Z)
        (c c' : sync_col) (queue_of : string) :
  c' <> c ->
  exists db' q,
    set_build_synced db instance patch_id (column_name c) = Some db'
    /\ get_unsynced_builds db queue_of (column_name c') = Some q
    /\ get_unsynced_builds db' queue_of (column_name c')
       = Some (update_where (build_matches instance patch_id)
                            (mark_synced c) q).
Proof.
  intros Hc.
  unfold set_build_synced, get_unsynced_builds.
  rewrite !column_of_name_column_name.
  eexists. eexists. split; [reflexivity|]. split; [reflexivity|].
  cbn [git_builds with_git_builds]. f_equal.
  unfold update_where.
  rewrite map_order_by_series_id.
  2:{ intros x. destruct (build_matches instance patch_id x);
        [apply mark_synced_frame | reflexivity]. }
  f_equal.
  induction (git_builds db) as [|x l IH]; [reflexivity|].
  cbn [map filter]. rewrite IH.
  assert (Hu : unsynced queue_of c'
                 (if build_matches instance patch_id x
                  then mark_synced c x else x)
               = unsynced queue_of c' x).
  { destruct (build_matches instance patch_id x); [|reflexivity].
    unfold unsynced. rewrite (sync_flag_mark_other x Hc).
    destruct (mark_synced_frame c x) as (_ & _ & _ & _ & _ & -> & _).
    reflexivity. }
  rewrite Hu. destruct (unsynced queue_of c' x); reflexivity.
Qed.

(** With patch 100001 marked for GitHub, the Cirrus queue still holds
    both patches. *)
Lemma set_build_synced_other_column_witness :
  exists db' q,
    set_build_synced Scenario.queued2 Scenario.instance 100001 "gap_sync"
    = Some db'
    /\ get_unsynced_builds Scenario.queued2 Scenario.instance "cirrus_sync"
       = Some q
    /\ get_unsynced_builds db' Scenario.instance "cirrus_sync"
       = Some (update_where (build_matches Scenario.instance 100001)
                            (mark_synced GapSync) q).
Proof.
  assert (Hc : CirrusSync <> GapSync) by discriminate.
  exact (@set_build_synced_other_column
           Scenario.queued2 Scenario.instance 100001 GapSync CirrusSync
           Scenario.instance Hc).
Defined.


(** Only [add_series] changes what [series_exists] answers, and only
    for the key it adds: after any store operation, a key exists if it
    existed before or the operation was [add_series] on that key. *)
Theorem series_exists_after_op
        (op : store_op) (db : database) (instance : string)
        (series_id : Z) :
  series_exists (apply_op op db) instance series_id
  = series_exists db instance series_id
    || match op with
       | AddSeries i _ s _ _ _ _ => (s =? series_id)%Z && (i =? instance)
       | _ => false
       end.
Proof.
  assert (Hupd : forall p f,
            (forall x, series_matches instance series_id (f x)
                       = series_matches instance series_id x) ->
            existsb (series_matches instance series_id)
                    (update_where p f (series db))
            = existsb (series_matches instance series_id) (series db)).
  { intros p f Hf. unfold update_where.
    induction (series db) as [|x l IH]; [reflexivity|].
    cbn [map existsb]. rewrite IH.
    destruct (p x); [rewrite Hf|]; reflexivity. }
  unfold series_exists.
  destruct op; cbn [apply_op]; rewrite ?orb_false_r.
  - unfold add_series. cbn [series with_series].
    rewrite existsb_app. cbn [existsb]. rewrite orb_false_r. reflexivity.
  - apply Hupd. reflexivity.
  - apply Hupd. reflexivity.
  - apply Hupd. reflexivity.
  - apply Hupd. reflexivity.
  - unfold set_build_synced.
    destruct (column_of_name ci_type); reflexivity.
  - reflexivity.
Qed.

(* ================================================================== *)
(** * Properties of the passes of [PatchworkMonitor] *)

Lemma series_exists_false (db : database) (instance : string)
      (series_id : Z) :
  series_exists db instance series_id = false ->
  ~ In (instance, series_id) (map series_key (series db)).
Proof.
  unfold series_exists. intros He Hin.
  apply in_map_iff in Hin. destruct Hin as (r & Hk & Hr).
  assert (Ht : existsb (series_matches instance series_id) (series db)
               = true).
  { apply existsb_exists. exists r. split; [exact Hr|].
    unfold series_key in Hk. injection Hk as Hi Hs.
    apply series_matches_true. split; assumption. }
  congruence.
Qed.

(** What one event of the discovery pass does to the store: nothing,
    or one row appended for a key the store did not hold. *)
Lemma on_event_effect (c : Patchwork.client) (instance project : string)
      (db : database) (ev : Patchwork.event) :
  let db' := fst (Patchwork.on_event c instance project db ev) in
  db' = db
  \/ exists series_id u n e b,
      series_exists db instance series_id = false
      /\ db' = add_series db instance project series_id u n e b.
Proof.
  cbv zeta. unfold Patchwork.on_event.
  destruct (Patchwork.payload_series_id ev) as [series_id|]; [|left; auto].
  destruct (Patchwork.get_series c series_id) as [|d]; [left; auto|].
  destruct (Patchwork.url d) as [u|]; [|left; auto].
  destruct (Patchwork.submitter_of d) as [s|]; [|left; auto].
  destruct (Patchwork.name s) as [n|]; [|left; auto].
  destruct (Patchwork.email s) as [e|]; [|left; auto].
  cbn [fst]. unfold Patchwork.emit_series.
  destruct (series_exists db instance series_id) eqn:Ex; [left; auto|].
  right. exists series_id, u, n, e, (Patchwork.all_received_of d). auto.
Qed.

Lemma grown_refl (instance project : string) (db : database) :
  grown instance project db db.
Proof.
  split; [reflexivity|]. split; [|auto].
  exists []. rewrite app_nil_r. split; [reflexivity | constructor].
Qed.

Lemma grown_trans (instance project : string) (d1 d2 d3 : database) :
  grown instance project d1 d2 -> grown instance project d2 d3 ->
  grown instance project d1 d3.
Proof.
  intros (Hb1 & (a1 & Hs1 & Hf1) & Hn1) (Hb2 & (a2 & Hs2 & Hf2) & Hn2).
  split; [congruence|]. split; [|auto].
  exists (a1 ++ a2)%list. split.
  - rewrite Hs2, Hs1, app_assoc. reflexivity.
  - apply Forall_app. split; assumption.
Qed.

Lemma on_event_grown (c : Patchwork.client) (instance project : string)
      (db : database) (ev : Patchwork.event) :
  grown instance project db
        (fst (Patchwork.on_event c instance project db ev)).
Proof.
  destruct (on_event_effect c instance project db ev)
    as [->|(series_id & u & n & e & b & Hnew & ->)];
    [apply grown_refl|].
  split; [reflexivity|]. split.
  - eexists. split; [reflexivity|].
    constructor; [simpl; repeat split | constructor].
  - intros Hnd. cbn [add_series series with_series].
    rewrite map_app. cbn [map].
    apply NoDup_app; [exact Hnd | constructor; [intros [] | constructor] |].
    intros k Hk [<-|[]].
    apply (series_exists_false _ _ _ Hnew). exact Hk.
Qed.

Lemma on_events_grown (c : Patchwork.client) (instance project : string)
      (events : list Patchwork.event) :
  forall db,
    grown instance project db
          (fst (Patchwork.on_events c instance project db events)).
Proof.
  induction events as [|ev rest IH]; intros db; cbn [Patchwork.on_events].
  - apply grown_refl.
  - pose proof (on_event_grown c instance project db ev) as H.
    destruct (Patchwork.on_event c instance project db ev) as [db' [e|]];
      cbn [fst] in *; [exact H|].
    eapply grown_trans; [exact H | apply IH].
Qed.

(** The discovery pass only appends series rows: it leaves the build
    table and every series row it found as they are, every row it adds
    belongs to the monitored instance and project and starts
    unsubmitted, not downloaded and without branch or repo, and if no
    two rows of the store shared an [(instance, series_id)] before the
    pass, none do after it, whatever the tracker announced and even
    when the pass ends with an exception. *)
Theorem discovery_only_appends
        (c : Patchwork.client) (instance project : string) (db : database) :
  let db' := fst (Patchwork.check_new_series c instance project db) in
  git_builds db' = git_builds db
  /\ (exists added,
         series db' = (series db ++ added)%list
         /\ Forall (fun r => Series.series_instance r = instance
                             /\ Series.series_project r = project
                             /\ Series.series_submitted r = 0
                             /\ Series.series_downloaded r = 0
                             /\ Series.series_branch r = None
                             /\ Series.series_repo r = None) added)
  /\ (NoDup (map series_key (series db)) ->
      NoDup (map series_key (series db'))).
Proof.
  cbv zeta. unfold Patchwork.check_new_series.
  destruct (Patchwork.get_series_events c project) as [|events].
  - apply (grown_refl instance project db).
  - apply (on_events_grown c instance project events db).
Qed.

Lemma series_exists_grown (instance project i : string) (series_id : Z)
      (db db' : database) :
  grown instance project db db' ->
  series_exists db i series_id = true ->
  series_exists db' i series_id = true.
Proof.
  intros (_ & (added & Hs & _) & _). unfold series_exists.
  rewrite Hs, existsb_app. intros ->. reflexivity.
Qed.

Lemma series_exists_emit_series (db : database) (instance project : string)
      (series_id : Z) (u n e : string) (b : bool) :
  series_exists (Patchwork.emit_series db instance project series_id u n e b)
                instance series_id = true.
Proof.
  unfold Patchwork.emit_series.
  destruct (series_exists db instance series_id) eqn:Ex; [exact Ex|].
  cbn [negb]. unfold series_exists, add_series. cbn [series with_series].
  rewrite existsb_app. apply orb_true_iff. right.
  cbn [existsb]. unfold series_matches. simpl.
  rewrite Z.eqb_refl, String.eqb_refl. reflexivity.
Qed.

(** An event that was handled once changes nothing in a store that
    holds every series the first handling left. *)
Lemma on_event_again (c : Patchwork.client) (instance project : string)
      (db d2 : database) (ev : Patchwork.event) :
  (forall s, series_exists
               (fst (Patchwork.on_event c instance project db ev))
               instance s = true ->
             series_exists d2 instance s = true) ->
  Patchwork.on_event c instance project d2 ev
  = (d2, snd (Patchwork.on_event c instance project db ev)).
Proof.
  unfold Patchwork.on_event.
  destruct (Patchwork.payload_series_id ev) as [series_id|]; [|reflexivity].
  destruct (Patchwork.get_series c series_id) as [|d]; [reflexivity|].
  destruct (Patchwork.url d) as [u|]; [|reflexivity].
  destruct (Patchwork.submitter_of d) as [s|]; [|reflexivity].
  destruct (Patchwork.name s) as [n|]; [|reflexivity].
  destruct (Patchwork.email s) as [e|]; [|reflexivity].
  cbn [fst snd]. intros Hsup.
  specialize (Hsup series_id (series_exists_emit_series _ _ _ _ _ _ _ _)).
  unfold Patchwork.emit_series at 1. rewrite Hsup. reflexivity.
Qed.

Lemma on_events_again (c : Patchwork.client) (instance project : string)
      (events : list Patchwork.event) :
  forall db d2,
    (forall s, series_exists
                 (fst (Patchwork.on_events c instance project db events))
                 instance s = true ->
               series_exists d2 instance s = true) ->
    Patchwork.on_events c instance project d2 events
    = (d2, snd (Patchwork.on_events c instance project db events)).
Proof.
  induction events as [|ev rest IH]; intros db d2 Hsup;
    cbn [Patchwork.on_events] in *; [reflexivity|].
  pose proof (@on_event_again c instance project db d2 ev) as Hev.
  destruct (Patchwork.on_event c instance project db ev) as [d1 [x|]] eqn:E1;
    cbn [fst snd] in *.
  - rewrite (Hev Hsup). reflexivity.
  - rewrite Hev; [apply (IH d1 d2 Hsup)|].
    intros s Hs. apply Hsup.
    eapply series_exists_grown; [apply on_events_grown | exact Hs].
Qed.

(** The discovery pass is idempotent: run again on the store it left,
    against a tracker that answers as before, it changes nothing and
    ends as it ended the first time. *)
Theorem discovery_is_idempotent
        (c : Patchwork.client) (instance project : string) (db : database) :
  let r := Patchwork.check_new_series c instance project db in
  Patchwork.check_new_series c instance project (fst r) = r.
Proof.
  cbv zeta. unfold Patchwork.check_new_series.
  destruct (Patchwork.get_series_events c project) as [|events];
    [reflexivity|].
  rewrite (@on_events_again c instance project events db); [|auto].
  destruct (Patchwork.on_events c instance project db events). reflexivity.
Qed.

Lemma Forall2_same {A} (R : A -> A -> Prop) (l : list A) :
  (forall x, R x x) -> Forall2 R l l.
Proof. intros H. induction l; constructor; auto. Qed.

Lemma Forall2_chain {A} (R : A -> A -> Prop) (l1 l2 l3 : list A) :
  (forall x y z, R x y -> R y z -> R x z) ->
  Forall2 R l1 l2 -> Forall2 R l2 l3 -> Forall2 R l1 l3.
Proof.
  intros Ht H12. revert l3.
  induction H12 as [|x y l1 l2 Hxy _ IH]; intros l3 H23.
  - inversion H23. constructor.
  - inversion H23 as [|? z ? l3' Hyz H23']; subst.
    constructor; [eapply Ht; eassumption | apply IH; exact H23'].
Qed.

Lemma Forall2_update_where {A} (R : A -> A -> Prop) (p : A -> bool)
      (f : A -> A) (l : list A) :
  (forall x, R x x) -> (forall x, p x = true -> R x (f x)) ->
  Forall2 R l (update_where p f l).
Proof.
  intros Hr Hf. unfold update_where.
  induction l as [|x l IH]; constructor; [|exact IH].
  destruct (p x) eqn:E; auto.
Qed.

Lemma Forall2_In_r {A} (R : A -> A -> Prop) (l l' : list A) (y : A) :
  Forall2 R l l' -> In y l' -> exists x, In x l /\ R x y.
Proof.
  induction 1 as [|x y' l l' Hxy _ IH]; [intros []|].
  intros [<-|Hy].
  - exists x. split; [left; reflexivity | exact Hxy].
  - destruct (IH Hy) as (x' & Hx' & HR). exists x'. split; [right|]; auto.
Qed.

Lemma completed_by_trans (c : Patchwork.client) (instance : string)
      (x y z : Series.row) :
  completed_by c instance x y -> completed_by c instance y z ->
  completed_by c instance x z.
Proof.
  intros [->|(-> & Hi & Hd)] [->|(-> & Hi' & Hd')];
    try (left; reflexivity); right; auto.
Qed.

Lemma on_uncompleted_effect (c : Patchwork.client) (instance : string)
      (db : database) (t : Z * string * string * string) :
  let db' := Monitor.on_uncompleted c instance db t in
  git_builds db' = git_builds db
  /\ Forall2 (completed_by c instance) (series db) (series db').
Proof.
  cbv zeta. unfold Monitor.on_uncompleted.
  destruct t as [[[series_id ?] ?] ?].
  assert (Hsame : git_builds db = git_builds db
                  /\ Forall2 (completed_by c instance) (series db)
                             (series db)).
  { split; [reflexivity|]. apply Forall2_same. intros x. left. reflexivity. }
  destruct (Patchwork.get_series c series_id) as [|d] eqn:Eg; [exact Hsame|].
  destruct (Patchwork.all_received_of d) eqn:Ea; [|exact Hsame].
  split; [reflexivity|]. cbn [set_series_completed series with_series].
  apply Forall2_update_where; [intros x; left; reflexivity|].
  intros x Hm. right. apply series_matches_true in Hm.
  destruct Hm as [Hid Hinst]. split; [reflexivity|]. split; [exact Hinst|].
  exists d. rewrite Hid. auto.
Qed.

Lemma completed_fold_effect (c : Patchwork.client) (instance : string)
      (l : list (Z * string * string * string)) :
  forall db,
    git_builds (fold_left (Monitor.on_uncompleted c instance) l db)
    = git_builds db
    /\ Forall2 (completed_by c instance) (series db)
               (series (fold_left (Monitor.on_uncompleted c instance) l db)).
Proof.
  induction l as [|t l IH]; intros db; cbn [fold_left].
  - split; [reflexivity|]. apply Forall2_same. intros x. left. reflexivity.
  - destruct (on_uncompleted_effect c instance db t) as [Hb Hs].
    destruct (IH (Monitor.on_uncompleted c instance db t)) as [Hb' Hs'].
    split; [congruence|].
    eapply Forall2_chain; [apply completed_by_trans | exact Hs | exact Hs'].
Qed.

Lemma completed_by_keeps (c : Patchwork.client) (instance i : string)
      (series_id : Z) (r r' : Series.row) :
  completed_by c instance r r' ->
  series_matches i series_id r' = series_matches i series_id r
  /\ (Series.series_completed r = 1 -> Series.series_completed r' = 1).
Proof.
  intros [->|(-> & _)]; [auto|]. split; [reflexivity|]. reflexivity.
Qed.

Lemma completed_fold_keeps (c : Patchwork.client) (instance : string)
      (series_id : Z) (l : list (Z * string * string * string))
      (db : database) :
  (forall r, In r (series db) ->
             series_matches instance series_id r = true ->
             Series.series_completed r = 1) ->
  forall r,
    In r (series (fold_left (Monitor.on_uncompleted c instance) l db)) ->
    series_matches instance series_id r = true ->
    Series.series_completed r = 1.
Proof.
  intros H r Hr Hm.
  destruct (completed_fold_effect c instance l db) as [_ Hs].
  destruct (@Forall2_In_r _ _ _ _ _ Hs Hr) as (x & Hx & HR).
  destruct (@completed_by_keeps c instance instance series_id _ _ HR)
    as [Hm' Hc].
  apply Hc. apply H; [exact Hx | congruence].
Qed.

Lemma completed_fold_flips (c : Patchwork.client) (instance : string)
      (l : list (Z * string * string * string)) :
  forall db t d,
    In t l ->
    Patchwork.get_series c (summary_series_id t) = Body d ->
    Patchwork.all_received_of d = true ->
    forall r,
      In r (series (fold_left (Monitor.on_uncompleted c instance) l db)) ->
      series_matches instance (summary_series_id t) r = true ->
      Series.series_completed r = 1.
Proof.
  induction l as [|x l IH]; intros db t d Ht Hg Ha; [destruct Ht|].
  cbn [fold_left]. destruct Ht as [->|Ht]; [|eapply IH; eassumption].
  apply completed_fold_keeps.
  intros r Hr Hm. unfold Monitor.on_uncompleted in Hr.
  destruct t as [[[series_id ?] ?] ?]. cbn [summary_series_id] in *.
  rewrite Hg, Ha in Hr. simpl in Hr.
  apply in_update_where in Hr. destruct Hr as (y & _ & ->).
  destruct (series_matches instance series_id y) eqn:Ey; [reflexivity|].
  congruence.
Qed.

(** The completion pass only sets [completed] flags, and only where the
    tracker says so: it leaves the build table alone; every series row
    keeps its place and is either unchanged or a row of the instance
    with [completed] set whose series the tracker reports as fully
    received; and a series that the pass leaves on the uncompleted list
    is one the tracker did not report as fully received (its request
    failed or said no). *)
Theorem check_completed_series_flips
        (c : Patchwork.client) (instance project : string) (db : database) :
  let db' := Monitor.check_completed_series c instance project db in
  git_builds db' = git_builds db
  /\ Forall2 (completed_by c instance) (series db) (series db')
  /\ (forall t d,
         In t (get_uncompleted_series db' instance project) ->
         Patchwork.get_series c (summary_series_id t) = Body d ->
         Patchwork.all_received_of d = false).
Proof.
  cbv zeta. unfold Monitor.check_completed_series.
  destruct (completed_fold_effect
              c instance (get_uncompleted_series db instance project) db)
    as [Hb Hs].
  split; [exact Hb|]. split; [exact Hs|].
  intros t d Ht Hg.
  destruct (Patchwork.all_received_of d) eqn:Ha; [|reflexivity].
  exfalso.
  apply in_get_uncompleted_series in Ht. destruct Ht as (r' & Hr' & Hu & ->).
  destruct (@Forall2_In_r _ _ _ _ _ Hs Hr') as (r & Hr & HR).
  apply uncompleted_true in Hu as Hu'.
  destruct Hu' as (Hi & Hp & Hc & Hsub & Hd).
  assert (Hrr : r' = r).
  { destruct HR as [->|(-> & _)]; [reflexivity|].
    simpl in Hc. discriminate. }
  subst r'.
  assert (Hone : Series.series_completed r = 1); [|lia].
  apply (@completed_fold_flips
           c instance (get_uncompleted_series db instance project) db
           (series_summary r) d); try assumption.
  - apply in_get_uncompleted_series. exists r. auto.
  - apply series_matches_true. split; [reflexivity | exact Hi].
Qed.

Lemma released_by_trans (c : Monitor.client) (instance : string)
      (x y z : Series.row) :
  released_by c instance x y -> released_by c instance y z ->
  released_by c instance x z.
Proof.
  intros [->|(-> & Hi & Hd)] [->|(-> & Hi' & Hd')];
    try (left; reflexivity); right; auto.
Qed.

(** One pass of the body of the branch pass: either nothing happens, or
    the last patch is final and the branch of the series is cleared. *)
Lemma on_branch_effect (c : Monitor.client) (instance : string)
      (db : database) (a : branch_row) :
  (fst (Monitor.on_branch c instance db a) = db
   /\ (snd (Monitor.on_branch c instance db a) = None ->
       ~ last_patch_final c (branch_series_id a)))
  \/ (Monitor.on_branch c instance db a
      = (clear_series_branch db instance (branch_series_id a), None)
      /\ last_patch_final c (branch_series_id a)).
Proof.
  unfold Monitor.on_branch.
  destruct a as [[[[series_id ?] ?] ?] ?]. cbn [branch_series_id].
  destruct (Monitor.get_series c series_id) as [|d] eqn:Eg.
  { left. split; [reflexivity|].
    intros _ (d' & p & ps & u & pd & H & _). congruence. }
  destruct (Monitor.patches d) as [[|p ps]|] eqn:Ep.
  { left. split; [reflexivity|].
    intros _ (d' & p & ps & u & pd & H & H' & _). congruence. }
  2:{ left. split; [reflexivity|].
      intros _ (d' & p & ps & u & pd & H & H' & _). congruence. }
  destruct (Monitor.ref_url (last ps p)) as [u|] eqn:Eu.
  2:{ left. split; [reflexivity | discriminate]. }
  destruct (Monitor.get_patch c u) as [|pd] eqn:Egp.
  { left. split; [reflexivity|].
    intros _ (d' & p' & ps' & u' & pd' & H1 & H2 & H3 & H4 & _).
    rewrite Eg in H1. injection H1 as <-.
    rewrite Ep in H2. injection H2 as <- <-.
    rewrite Eu in H3. injection H3 as <-. congruence. }
  destruct (is_in (Monitor.state_of pd) Monitor.final_states) eqn:Ef.
  - right. split; [reflexivity|].
    exists d, p, ps, u, pd. auto.
  - left. split; [reflexivity|].
    intros _ (d' & p' & ps' & u' & pd' & H1 & H2 & H3 & H4 & H5).
    rewrite Eg in H1. injection H1 as <-.
    rewrite Ep in H2. injection H2 as <- <-.
    rewrite Eu in H3. injection H3 as <-.
    rewrite Egp in H4. injection H4 as <-. congruence.
Qed.

Lemma clear_series_branch_released (c : Monitor.client) (instance : string)
      (series_id : Z) (db : database) :
  last_patch_final c series_id ->
  Forall2 (released_by c instance) (series db)
          (series (clear_series_branch db instance series_id)).
Proof.
  intros Hf. cbn [clear_series_branch series with_series].
  apply Forall2_update_where; [intros x; left; reflexivity|].
  intros x Hm. right. apply series_matches_true in Hm.
  destruct Hm as [Hid Hinst]. rewrite Hid. auto.
Qed.

Lemma on_branches_effect (c : Monitor.client) (instance : string)
      (l : list branch_row) :
  forall db,
    let db' := fst (Monitor.on_branches c instance db l) in
    git_builds db' = git_builds db
    /\ Forall2 (released_by c instance) (series db) (series db')
    /\ (forall a, In a (get_active_branches db' instance) ->
                  In a (get_active_branches db instance)).
Proof.
  induction l as [|a l IH]; intros db; cbv zeta;
    cbn [Monitor.on_branches].
  - split; [reflexivity|]. split; [|auto].
    apply Forall2_same. intros x. left. reflexivity.
  - destruct (on_branch_effect c instance db a) as [[Hsame _]|[Hclr Hfin]].
    + destruct (Monitor.on_branch c instance db a) as [d1 [e|]];
        cbn [fst snd] in *; subst d1.
      * split; [reflexivity|]. split; [|auto].
        apply Forall2_same. intros x. left. reflexivity.
      * apply IH.
    + rewrite Hclr.
      destruct (IH (clear_series_branch db instance (branch_series_id a)))
        as (Hb & Hs & Ha).
      split; [exact Hb|]. split.
      * eapply Forall2_chain;
          [apply released_by_trans
          | apply clear_series_branch_released; exact Hfin
          | exact Hs].
      * intros x Hx. apply Ha in Hx. apply active_after_clear in Hx.
        apply Hx.
Qed.

Lemma on_branches_releases (c : Monitor.client) (instance : string)
      (l : list branch_row) :
  forall db a,
    snd (Monitor.on_branches c instance db l) = None ->
    In a l -> last_patch_final c (branch_series_id a) ->
    forall x,
      In x (get_active_branches
              (fst (Monitor.on_branches c instance db l)) instance) ->
      branch_series_id x <> branch_series_id a.
Proof.
  induction l as [|y l IH]; intros db a Hn Ha Hf x Hx; [destruct Ha|].
  cbn [Monitor.on_branches] in *.
  destruct (on_branch_effect c instance db y) as [[Hsame Hnot]|[Hclr Hfin]].
  - destruct (Monitor.on_branch c instance db y) as [d1 [e|]];
      cbn [fst snd] in *; [discriminate|]. subst d1.
    destruct Ha as [->|Ha]; [exfalso; apply Hnot; auto|].
    eapply IH; eassumption.
  - rewrite Hclr in *.
    destruct Ha as [->|Ha]; [|eapply IH; eassumption].
    destruct (on_branches_effect
                c instance l
                (clear_series_branch db instance (branch_series_id a)))
      as (_ & _ & Hsub).
    apply Hsub in Hx. apply active_after_clear in Hx.
    apply Hx. reflexivity.
Qed.

(** The branch pass only releases branches, and only of series whose
    last patch is final: it leaves the build table alone; every series
    row keeps its place and is either unchanged or a row of the
    instance with its branch emptied whose last patch the tracker
    shows in a final state; it makes no branch active; and when it ends
    without an exception, no series that is still active has a final
    last patch. *)
Theorem check_superseded_series_releases
        (c : Monitor.client) (instance : string) (db : database) :
  let r := Monitor.check_superseded_series c instance db in
  git_builds (fst r) = git_builds db
  /\ Forall2 (released_by c instance) (series db) (series (fst r))
  /\ (forall a, In a (get_active_branches (fst r) instance) ->
                In a (get_active_branches db instance))
  /\ (snd r = None ->
      forall a, In a (get_active_branches (fst r) instance) ->
                ~ last_patch_final c (branch_series_id a)).
Proof.
  cbv zeta. unfold Monitor.check_superseded_series.
  destruct (on_branches_effect c instance (get_active_branches db instance)
                               db) as (Hb & Hs & Ha).
  split; [exact Hb|]. split; [exact Hs|]. split; [exact Ha|].
  intros Hn a Hin Hf.
  apply (@on_branches_releases
           c instance (get_active_branches db instance) db a Hn
           (Ha a Hin) Hf a Hin).
  reflexivity.
Qed.

(* ================================================================== *)
(** * Further properties of the providers *)

Lemma github_workflow_results_made_for (pw_instance : string)
      (build : Build.row) (g : GitHub.groups) (o : Outcome.t) :
  In o (fst (GitHub.workflow_results pw_instance build g)) ->
  made_for pw_instance build o /\ binary_result o.
Proof.
  induction g as [|[workflow_name runs] rest IH]; simpl; [intros []|].
  destruct runs as [|latest_run ?]; [intros []|].
  destruct (GitHub.status latest_run) as [st|]; [|intros []].
  destruct (GitHub.conclusion latest_run) as [| |concl];
    [intros []| |];
    (destruct (GitHub.html_url latest_run) as [build_url|]; [|intros []];
     destruct (negb (st =? "completed")); [exact IH|];
     destruct (GitHub.workflow_results pw_instance build rest) as [os e];
     simpl in *; intros [<-|Ho]; [|auto]).
  - split; [repeat split | right; reflexivity].
  - split; [repeat split|]. unfold binary_result. simpl.
    destruct (concl =? "success"); auto.
Qed.

Lemma github_body_made_for (api_base : string) (be : GitHub.backend)
      (pw_instance : string) (pw_project : option string)
      (sync_column : string) (c : GitHub.cache) (build : Build.row)
      (db : database) (o : Outcome.t) :
  In o (emitted (GitHub.body api_base be pw_instance pw_project sync_column
                             c build db)) ->
  filtered_out pw_project (Build.patchwork_project build) = false
  /\ made_for pw_instance build o /\ binary_result o.
Proof.
  assert (Hrep : forall cc,
             In o (emitted (GitHub.report pw_instance sync_column cc build
                                          db)) ->
             made_for pw_instance build o /\ binary_result o).
  { intros cc. unfold GitHub.report.
    destruct (GitHub.all_runs cc) as [page|]; [|intros []].
    destruct (GitHub.workflow_runs page) as [[|r runs]|]; try (intros []).
    destruct (GitHub.group_runs (r :: runs) []) as [e|g]; [intros []|].
    destruct (GitHub.sort_groups g) as [e|sorted]; [intros []|].
    pose proof (@github_workflow_results_made_for pw_instance build sorted o)
      as Hw.
    destruct (GitHub.workflow_results pw_instance build sorted)
      as [os [e|]]; [exact Hw|].
    unfold mark_build.
    destruct (set_build_synced db pw_instance (Build.patch_id build)
                               sync_column); exact Hw. }
  unfold GitHub.body.
  destruct (filtered_out pw_project (Build.patchwork_project build));
    [intros []|].
  destruct (eqb_opt_Z (GitHub.prev_series c) (Build.series_id build));
    [intros H; split; [reflexivity | exact (Hrep _ H)]|].
  destruct (eqb_opt_string (GitHub.prev_url c)
                           (GitHub.api_url api_base build));
    [intros H; split; [reflexivity | exact (Hrep _ H)]|].
  destruct (be (GitHub.api_url api_base build)
               (GitHub.branch_of (Build.series_id build)));
    [intros [] | intros H; split; [reflexivity | exact (Hrep _ H)]].
Qed.

Lemma cirrus_first_completed_made_for (pw_instance : string)
      (build : Build.row) (l : list Cirrus.edge) (o : Outcome.t) :
  Cirrus.first_completed pw_instance build l = inr (Some o) ->
  made_for pw_instance build o /\ binary_result o.
Proof.
  induction l as [|e rest IH]; simpl; [discriminate|].
  destruct (Cirrus.node_of e) as [n|]; [|discriminate].
  destruct (Cirrus.status n) as [st|]; [|discriminate].
  destruct (st =? "COMPLETED"); [|exact IH].
  destruct (Cirrus.failed_tasks _) as [x|fs]; [discriminate|].
  destruct (Cirrus.id n) as [node_id|]; [|discriminate].
  intros [= <-]. split; [repeat split|].
  unfold binary_result. simpl. destruct fs; auto.
Qed.

Lemma cirrus_body_made_for (be : Cirrus.backend) (pw_instance : string)
      (pw_project : option string) (sync_column : string) (s : unit)
      (build : Build.row) (db : database) (o : Outcome.t) :
  In o (emitted (Cirrus.body be pw_instance pw_project sync_column s build
                             db)) ->
  filtered_out pw_project (Build.patchwork_project build) = false
  /\ made_for pw_instance build o /\ binary_result o.
Proof.
  unfold Cirrus.body.
  destruct (filtered_out pw_project (Build.patchwork_project build));
    [intros []|].
  destruct (split "/" (Build.repo_name build)) as [|owner [|name [|? ?]]];
    try (intros []).
  destruct (be owner name (Cirrus.branch_of (Build.series_id build)))
    as [|r]; [intros []|].
  destruct (Cirrus.builds_data r) as [e|l]; [intros []|].
  destruct (Cirrus.first_completed pw_instance build l) as [e|[o'|]] eqn:Ef;
    [intros [] | | intros []].
  unfold mark_build.
  destruct (set_build_synced db pw_instance (Build.patch_id build)
                             sync_column);
    (intros [<-|[]]; split; [reflexivity|];
     apply (cirrus_first_completed_made_for _ _ _ Ef)).
Qed.

Lemma travis_first_finished_binary (pw_instance : string) (series_id : Z)
      (series_url : string) (travis_repo : option string)
      (l : list Travis.build) (o : Outcome.t) :
  Travis.first_finished pw_instance series_id series_url travis_repo l
  = inr (Some o) ->
  binary_result o
  /\ Outcome.pw_instance o = pw_instance
  /\ Outcome.series_id o = series_id
  /\ Outcome.patch_name o = series_url
  /\ Outcome.repo_name o = travis_repo
  /\ Outcome.patch_id o = None
  /\ Outcome.test_name o = "".
Proof.
  induction l as [|b rest IH]; cbn [Travis.first_finished]; [discriminate|].
  destruct (Travis.state b) as [st|]; [|discriminate].
  destruct (is_in st ["created"; "canceled"]); [exact IH|].
  destruct (Travis.finished st) eqn:Ef; [|exact IH].
  destruct (Travis.id b) as [build_id|]; [|discriminate].
  intros [= <-]. split; [|repeat split].
  unfold binary_result, Travis.outcome_of, Travis.result_of. simpl.
  unfold Travis.finished, is_in in Ef. simpl in Ef.
  destruct (st =? "errored") eqn:E3; [right; reflexivity|].
  destruct (st =? "failed") eqn:E1;
    [apply String.eqb_eq in E1; right; exact E1|].
  destruct (st =? "passed") eqn:E2;
    [apply String.eqb_eq in E2; left; exact E2|].
  discriminate.
Qed.

Lemma travis_body_made_for (be : Travis.backend) (pw_instance : string)
      (pw_project : option string) (s : unit) (a : branch_row)
      (db : database) (o : Outcome.t) :
  In o (emitted (Travis.body be pw_instance pw_project s a db)) ->
  let '(series_id, project, series_url, _, travis_repo) := a in
  filtered_out pw_project project = false
  /\ binary_result o
  /\ Outcome.pw_instance o = pw_instance
  /\ Outcome.series_id o = series_id
  /\ Outcome.patch_name o = series_url
  /\ Outcome.repo_name o = travis_repo
  /\ Outcome.patch_id o = None
  /\ Outcome.test_name o = "".
Proof.
  unfold Travis.body.
  destruct a as [[[[series_id project] series_url] branchname] travis_repo].
  destruct (filtered_out pw_project project); [intros []|].
  destruct (Travis._get_builds_for_branch be travis_repo branchname)
    as [|l]; [intros []|].
  destruct (Travis.first_finished pw_instance series_id series_url
                                  travis_repo l) as [e|[o'|]] eqn:Ef;
    [intros [] | | intros []].
  intros [<-|[]]. split; [reflexivity|].
  apply (travis_first_finished_binary _ _ _ _ _ Ef).
Qed.

(** Every outcome any provider yields is in the canonical vocabulary:
    its result is [passed] or [failed], and it names the instance the
    call was made for. *)
Theorem outcomes_are_binary
        (p : provider) (be : backends) (db : database)
        (pw_instance : string) (pw_project : option string)
        (o : Outcome.t) :
  In o (yielded (get_build_results p be db pw_instance pw_project)) ->
  (Outcome.result o = "passed" \/ Outcome.result o = "failed")
  /\ Outcome.pw_instance o = pw_instance.
Proof.
  destruct p as [api_base| | |]; cbn [get_build_results].
  - unfold GitHub.get_build_results.
    destruct (get_unsynced_builds db pw_instance (sync_column_of "gap"));
      [|intros []].
    intros Ho.
    destruct (for_each_yielded _ _ _ _ _ Ho) as (s & u & d & _ & He).
    apply github_body_made_for in He.
    destruct He as (_ & Hm & Hb). split; [exact Hb | apply Hm].
  - unfold Travis.get_build_results. intros Ho.
    destruct (for_each_yielded _ _ _ _ _ Ho) as (s & u & d & _ & He).
    apply travis_body_made_for in He.
    destruct u as [[[[? ?] ?] ?] ?]. destruct He as (_ & Hb & Hi & _).
    split; assumption.
  - unfold Cirrus.get_build_results.
    destruct (get_unsynced_builds db pw_instance (sync_column_of "cirrus"));
      [|intros []].
    intros Ho.
    destruct (for_each_yielded _ _ _ _ _ Ho) as (s & u & d & _ & He).
    apply cirrus_body_made_for in He.
    destruct He as (_ & Hm & Hb). split; [exact Hb | apply Hm].
  - intros [].
Qed.

(** Scenario B again: the one outcome GitHub's completed run gives. *)
Lemma outcomes_are_binary_witness :
  Outcome.result
    (GitHub.outcome_of Scenario.instance Scenario.patch_100001 "Build"
                       "passed"
                       "https://github.com/owner/repo/actions/runs/1")
  = "passed"
  \/ Outcome.result
       (GitHub.outcome_of Scenario.instance Scenario.patch_100001 "Build"
                          "passed"
                          "https://github.com/owner/repo/actions/runs/1")
     = "failed".
Proof.
  apply (@outcomes_are_binary
           (GitHubActionsProvider "https://api.github.com")
           (Scenario.with_github
              (Scenario.github_answering
                 [Scenario.completed_run "Build" "success"]))
           Scenario.queued Scenario.instance None _
           (or_introl eq_refl)).
Defined.

(** A provider yields only for work that is waiting and that the project
    filter admits.  For the providers that read the build queue, every
    outcome carries the series, patch, sha, patch name and repo of a row
    the queue of the provider's column held when the call began, and the
    filter admits that row's project.  For the Travis provider, every
    outcome carries the series, URL and repo of a branch that was active
    when the call began and whose project the filter admits; it has no
    patch id and an empty test name. *)
Theorem outcomes_come_from_the_queue
        (p : provider) (be : backends) (db : database)
        (pw_instance : string) (pw_project : option string)
        (o : Outcome.t) :
  In o (yielded (get_build_results p be db pw_instance pw_project)) ->
  match p with
  | TravisProvider =>
      exists series_id project series_url branchname travis_repo,
        In (series_id, project, series_url, branchname, travis_repo)
           (get_active_branches db pw_instance)
        /\ filtered_out pw_project project = false
        /\ Outcome.series_id o = series_id
        /\ Outcome.patch_name o = series_url
        /\ Outcome.repo_name o = travis_repo
        /\ Outcome.patch_id o = None
        /\ Outcome.test_name o = ""
  | _ =>
      exists l b,
        get_unsynced_builds db pw_instance (sync_column p) = Some l
        /\ In b l
        /\ filtered_out pw_project (Build.patchwork_project b) = false
        /\ made_for pw_instance b o
  end.
Proof.
  destruct p as [api_base| | |]; cbn [get_build_results].
  - unfold GitHub.get_build_results.
    change (sync_column (GitHubActionsProvider api_base))
      with (sync_column_of "gap").
    destruct (get_unsynced_builds db pw_instance (sync_column_of "gap"))
      as [l|]; [|intros []].
    intros Ho.
    destruct (for_each_yielded _ _ _ _ _ Ho) as (s & u & d & Hu & He).
    apply github_body_made_for in He.
    exists l, u. split; [reflexivity|]. split; [exact Hu|].
    split; apply He.
  - unfold Travis.get_build_results. intros Ho.
    destruct (for_each_yielded _ _ _ _ _ Ho) as (s & u & d & Hu & He).
    apply travis_body_made_for in He.
    destruct u as [[[[series_id project] series_url] branchname]
                     travis_repo].
    exists series_id, project, series_url, branchname, travis_repo.
    split; [exact Hu|]. tauto.
  - unfold Cirrus.get_build_results.
    change (sync_column CirrusProvider) with (sync_column_of "cirrus").
    destruct (get_unsynced_builds db pw_instance (sync_column_of "cirrus"))
      as [l|]; [|intros []].
    intros Ho.
    destruct (for_each_yielded _ _ _ _ _ Ho) as (s & u & d & Hu & He).
    apply cirrus_body_made_for in He.
    exists l, u. split; [reflexivity|]. split; [exact Hu|].
    split; apply He.
  - intros [].
Qed.

(** Scenario D again: the outcome of the errored Travis build belongs
    to the active branch of series 12345. *)
Lemma outcomes_come_from_the_queue_witness :
  exists series_id project series_url branchname travis_repo,
    In (series_id, project, series_url, branchname, travis_repo)
       (get_active_branches Scenario.dispatched Scenario.instance)
    /\ filtered_out (Some Scenario.project) project = false
    /\ series_id = 12345.
Proof.
  destruct (@outcomes_come_from_the_queue
              TravisProvider (Scenario.with_travis Scenario.travis_errored)
              Scenario.dispatched Scenario.instance
              (Some Scenario.project)
              (Travis.outcome_of
                 Scenario.instance 12345
                 "https://patchwork.example.com/api/series/12345/"
                 (Some "owner/repo")
                 (Scenario.travis_build "errored" 2 "abc2") "errored" 2)
              (or_introl eq_refl))
    as (series_id & project & series_url & branchname & travis_repo
        & Hin & Hf & Hs & _).
  exists series_id, project, series_url, branchname, travis_repo.
  split; [exact Hin|]. split; [exact Hf|]. symmetry. exact Hs.
Defined.

Lemma marked_by_trans (c : sync_col) (pw_instance : string)
      (x y z : Build.row) :
  marked_by c pw_instance x y -> marked_by c pw_instance y z ->
  marked_by c pw_instance x z.
Proof.
  intros [->|(-> & Hi)] [->|(-> & Hi')];
    try (left; reflexivity); try (right; auto; fail).
  right. split; [destruct c; reflexivity | exact Hi].
Qed.

Lemma branch_cleared_trans (pw_instance : string) (x y z : Series.row) :
  branch_cleared pw_instance x y -> branch_cleared pw_instance y z ->
  branch_cleared pw_instance x z.
Proof.
  intros [->|(-> & Hi)] [->|(-> & Hi')];
    try (left; reflexivity); right; auto.
Qed.

Lemma set_build_synced_marked (c : sync_col) (pw_instance : string)
      (patch_id : Z) (db db' : database) :
  set_build_synced db pw_instance patch_id (column_name c) = Some db' ->
  series db' = series db
  /\ Forall2 (marked_by c pw_instance) (git_builds db) (git_builds db').
Proof.
  unfold set_build_synced. rewrite column_of_name_column_name.
  intros [= <-]. split; [reflexivity|].
  cbn [git_builds with_git_builds].
  apply Forall2_update_where; [intros x; left; reflexivity|].
  intros x Hm. right. apply build_matches_true in Hm. tauto.
Qed.

Lemma mark_build_store {S} (s : S) (db : database) (os : list Outcome.t)
      (pw_instance : string) (build : Build.row) (c : sync_col) :
  body_store c pw_instance build db
             (after (mark_build s db os pw_instance (Build.patch_id build)
                                (column_name c))).
Proof.
  destruct (mark_build_after s db os pw_instance (Build.patch_id build) c)
    as (db' & Hset & ->).
  right. exact Hset.
Qed.

Lemma github_body_store (api_base : string) (be : GitHub.backend)
      (pw_instance : string) (pw_project : option string)
      (c : GitHub.cache) (build : Build.row) (db : database) :
  body_store GapSync pw_instance build db
             (after (GitHub.body api_base be pw_instance pw_project
                                 (column_name GapSync) c build db)).
Proof.
  assert (Hrep : forall cc,
             body_store GapSync pw_instance build db
               (after (GitHub.report pw_instance (column_name GapSync) cc
                                     build db))).
  { intros cc. unfold GitHub.report.
    destruct (GitHub.all_runs cc) as [page|]; [|left; reflexivity].
    destruct (GitHub.workflow_runs page) as [[|r runs]|];
      try (left; reflexivity).
    destruct (GitHub.group_runs (r :: runs) []) as [e|g];
      [left; reflexivity|].
    destruct (GitHub.sort_groups g) as [e|sorted]; [left; reflexivity|].
    destruct (GitHub.workflow_results pw_instance build sorted)
      as [os [e|]]; [left; reflexivity|].
    apply mark_build_store. }
  unfold GitHub.body.
  destruct (filtered_out pw_project (Build.patchwork_project build));
    [left; reflexivity|].
  destruct (eqb_opt_Z (GitHub.prev_series c) (Build.series_id build));
    [apply Hrep|].
  destruct (eqb_opt_string (GitHub.prev_url c)
                           (GitHub.api_url api_base build));
    [apply Hrep|].
  destruct (be (GitHub.api_url api_base build)
               (GitHub.branch_of (Build.series_id build)));
    [left; reflexivity | apply Hrep].
Qed.

Lemma cirrus_body_store (be : Cirrus.backend) (pw_instance : string)
      (pw_project : option string) (s : unit) (build : Build.row)
      (db : database) :
  body_store CirrusSync pw_instance build db
             (after (Cirrus.body be pw_instance pw_project
                                 (column_name CirrusSync) s build db)).
Proof.
  unfold Cirrus.body.
  destruct (filtered_out pw_project (Build.patchwork_project build));
    [left; reflexivity|].
  destruct (split "/" (Build.repo_name build)) as [|owner [|name [|? ?]]];
    try (left; reflexivity).
  destruct (be owner name (Cirrus.branch_of (Build.series_id build)))
    as [|r]; [left; reflexivity|].
  destruct (Cirrus.builds_data r) as [e|l]; [left; reflexivity|].
  destruct (Cirrus.first_completed pw_instance build l) as [e|[o|]];
    [left; reflexivity | apply mark_build_store | left; reflexivity].
Qed.

Lemma travis_body_store (be : Travis.backend) (pw_instance : string)
      (pw_project : option string) (s : unit) (a : branch_row)
      (db : database) :
  after (Travis.body be pw_instance pw_project s a db) = db
  \/ after (Travis.body be pw_instance pw_project s a db)
     = clear_series_branch db pw_instance (branch_series_id a).
Proof.
  unfold Travis.body.
  destruct a as [[[[series_id project] series_url] branchname] travis_repo].
  destruct (filtered_out pw_project project); [left; reflexivity|].
  destruct (Travis._get_builds_for_branch be travis_repo branchname)
    as [|l]; [left; reflexivity|].
  destruct (Travis.first_finished pw_instance series_id series_url
                                  travis_repo l) as [e|[o|]];
    [left; reflexivity | right; reflexivity | left; reflexivity].
Qed.

Lemma queue_loop_frame {S} (c : sync_col) (pw_instance : string)
      (body : S -> Build.row -> database -> step S) :
  (forall s b d, body_store c pw_instance b d (after (body s b d))) ->
  forall units s db,
    series (store (for_each body s units db)) = series db
    /\ Forall2 (marked_by c pw_instance) (git_builds db)
               (git_builds (store (for_each body s units db))).
Proof.
  intros Hbody units s db.
  apply (for_each_store_invariant
           body
           (fun d => series d = series db
                     /\ Forall2 (marked_by c pw_instance) (git_builds db)
                                (git_builds d))).
  - intros s0 u d [Hs Hf].
    destruct (Hbody s0 u d) as [->|Hset]; [auto|].
    apply set_build_synced_marked in Hset. destruct Hset as [Hs' Hf'].
    split; [congruence|].
    eapply Forall2_chain; [apply marked_by_trans | exact Hf | exact Hf'].
  - split; [reflexivity|].
    apply Forall2_same. intros x. left. reflexivity.
Qed.

(** What a call of a provider can change in the store.  The GitHub and
    Cirrus providers leave the series table alone and keep every build
    row at its place, either unchanged or, for a row of the instance,
    with their own flag set and nothing else changed.  The Travis
    provider leaves the build table alone and keeps every series row at
    its place, either unchanged or, for a row of the instance, with the
    branch emptied.  The Dummy provider changes nothing. *)
Theorem provider_frame
        (p : provider) (be : backends) (db : database)
        (pw_instance : string) (pw_project : option string) :
  let r := get_build_results p be db pw_instance pw_project in
  match p with
  | GitHubActionsProvider _ =>
      series (store r) = series db
      /\ Forall2 (marked_by GapSync pw_instance) (git_builds db)
                 (git_builds (store r))
  | CirrusProvider =>
      series (store r) = series db
      /\ Forall2 (marked_by CirrusSync pw_instance) (git_builds db)
                 (git_builds (store r))
  | TravisProvider =>
      git_builds (store r) = git_builds db
      /\ Forall2 (branch_cleared pw_instance) (series db) (series (store r))
  | DummyProvider => store r = db
  end.
Proof.
  cbv zeta. destruct p as [api_base| | |]; cbn [get_build_results].
  - unfold GitHub.get_build_results.
    change (sync_column_of "gap") with (column_name GapSync).
    destruct (get_unsynced_builds db pw_instance (column_name GapSync)).
    + apply queue_loop_frame. intros s b d. apply github_body_store.
    + split; [reflexivity|]. apply Forall2_same. intros x. left. reflexivity.
  - unfold Travis.get_build_results.
    apply (for_each_store_invariant
             (Travis.body (travis be) pw_instance pw_project)
             (fun d => git_builds d = git_builds db
                       /\ Forall2 (branch_cleared pw_instance) (series db)
                                  (series d))).
    + intros s u d [Hb Hs].
      destruct (travis_body_store (travis be) pw_instance pw_project s u d)
        as [->| ->]; [auto|].
      split; [exact Hb|].
      eapply Forall2_chain; [apply branch_cleared_trans | exact Hs |].
      cbn [clear_series_branch series with_series].
      apply Forall2_update_where; [intros x; left; reflexivity|].
      intros x Hm. right. apply series_matches_true in Hm.
      split; [reflexivity | apply Hm].
    + split; [reflexivity|].
      apply Forall2_same. intros x. left. reflexivity.
  - unfold Cirrus.get_build_results.
    change (sync_column_of "cirrus") with (column_name CirrusSync).
    destruct (get_unsynced_builds db pw_instance (column_name CirrusSync)).
    + apply queue_loop_frame. intros s b d. apply cirrus_body_store.
    + split; [reflexivity|]. apply Forall2_same. intros x. left. reflexivity.
  - reflexivity.
Qed.

(** ** GitHub Actions: one outcome per workflow, from its latest run *)

Lemma ascii_compare_lt_trans (a b c : ascii) :
  Ascii.compare a b = Lt -> Ascii.compare b c = Lt -> Ascii.compare a c = Lt.
Proof. unfold Ascii.compare. rewrite !N.compare_lt_iff. lia. Qed.

Lemma string_compare_trans (s1 : string) :
  forall s2 s3,
    String.compare s1 s2 <> Gt -> String.compare s2 s3 <> Gt ->
    String.compare s1 s3 <> Gt.
Proof.
  induction s1 as [|a s1 IH]; intros [|b s2] [|c s3]; simpl;
    try congruence.
  destruct (Ascii.compare a b) eqn:Eab; try congruence.
  - apply Ascii.compare_eq_iff in Eab. subst b.
    destruct (Ascii.compare a c) eqn:Eac; try congruence. apply IH.
  - destruct (Ascii.compare b c) eqn:Ebc; try congruence.
    + apply Ascii.compare_eq_iff in Ebc. subst c. rewrite Eab. congruence.
    + rewrite (ascii_compare_lt_trans _ _ _ Eab Ebc). congruence.
Qed.

Lemma string_leb_trans (s1 s2 s3 : string) :
  String.leb s1 s2 = true -> String.leb s2 s3 = true ->
  String.leb s1 s3 = true.
Proof.
  unfold String.leb. intros H1 H2.
  pose proof (@string_compare_trans s1 s2 s3) as H.
  destruct (String.compare s1 s2); try discriminate;
    destruct (String.compare s2 s3); try discriminate;
    destruct (String.compare s1 s3); try reflexivity;
    exfalso; apply H; congruence.
Qed.

Lemma in_insert_newest_first (x y : string * GitHub.workflow_run)
      (l : list (string * GitHub.workflow_run)) :
  In y (GitHub.insert_newest_first x l) <-> y = x \/ In y l.
Proof.
  induction l as [|z l IH]; simpl; [intuition|].
  destruct (String.leb (fst z) (fst x)); simpl; [intuition|].
  rewrite IH. intuition.
Qed.

Lemma in_newest_first (y : string * GitHub.workflow_run)
      (l : list (string * GitHub.workflow_run)) :
  In y (GitHub.newest_first l) <-> In y l.
Proof.
  induction l as [|z l IH]; simpl; [reflexivity|].
  rewrite in_insert_newest_first, IH. intuition.
Qed.

Lemma insert_newest_first_sorted (x : string * GitHub.workflow_run)
      (l : list (string * GitHub.workflow_run)) :
  StronglySorted not_older l ->
  StronglySorted not_older (GitHub.insert_newest_first x l).
Proof.
  induction l as [|z l IH]; simpl; intros Hs.
  - constructor; constructor.
  - inversion Hs as [|? ? Hl Hz]; subst.
    destruct (String.leb (fst z) (fst x)) eqn:E.
    + constructor; [exact Hs|].
      constructor; [exact E|].
      rewrite Forall_forall in *. intros y Hy. specialize (Hz y Hy).
      unfold not_older in *. eapply string_leb_trans; eassumption.
    + constructor; [apply IH; exact Hl|].
      rewrite Forall_forall in *. intros y Hy.
      apply in_insert_newest_first in Hy. destruct Hy as [->|Hy].
      * unfold not_older.
        destruct (String.leb_total (fst x) (fst z)) as [H|H];
          [exact H | congruence].
      * apply Hz. exact Hy.
Qed.

Lemma newest_first_sorted (l : list (string * GitHub.workflow_run)) :
  StronglySorted not_older (GitHub.newest_first l).
Proof.
  induction l as [|z l IH]; simpl; [constructor|].
  apply insert_newest_first_sorted. exact IH.
Qed.

(** The run at the head of a sorted group started no earlier than any
    run of the group. *)
Lemma newest_first_head (l : list (string * GitHub.workflow_run))
      (h : string * GitHub.workflow_run)
      (t : list (string * GitHub.workflow_run)) :
  GitHub.newest_first l = h :: t ->
  In h l /\ forall x, In x l -> String.leb (fst x) (fst h) = true.
Proof.
  intros E. split.
  - apply in_newest_first. rewrite E. left. reflexivity.
  - intros x Hx. apply in_newest_first in Hx. rewrite E in Hx.
    pose proof (newest_first_sorted l) as Hs. rewrite E in Hs.
    inversion Hs as [|? ? _ Hh]; subst.
    destruct Hx as [<-|Hx].
    + destruct (String.leb_total (fst h) (fst h)); assumption.
    + rewrite Forall_forall in Hh. apply (Hh x Hx).
Qed.

Lemma started_keys_spec (rs : list GitHub.workflow_run)
      (ks : list (string * GitHub.workflow_run)) :
  GitHub.started_keys rs = inr ks ->
  map snd ks = rs
  /\ Forall (fun kr => GitHub.run_started_at (snd kr) = Some (fst kr)) ks.
Proof.
  revert ks. induction rs as [|r rs IH]; intros ks; simpl.
  - intros [= <-]. split; [reflexivity | constructor].
  - destruct (GitHub.run_started_at r) as [k|] eqn:Ek; [|discriminate].
    destruct (GitHub.started_keys rs) as [e|ks']; [discriminate|].
    intros [= <-]. destruct (IH ks' eq_refl) as [Hm Hf].
    split; [simpl; rewrite Hm; reflexivity|].
    constructor; [exact Ek | exact Hf].
Qed.

Lemma sort_groups_spec (g g' : GitHub.groups) :
  GitHub.sort_groups g = inr g' ->
  Forall2 (fun x y =>
             fst y = fst x
             /\ exists ks, GitHub.started_keys (snd x) = inr ks
                           /\ snd y = map snd (GitHub.newest_first ks))
          g g'.
Proof.
  revert g'. induction g as [|[n rs] g IH]; intros g'; simpl.
  - intros [= <-]. constructor.
  - destruct (GitHub.started_keys rs) as [e|ks] eqn:Ek; [discriminate|].
    destruct (GitHub.sort_groups g) as [e|rest]; [discriminate|].
    intros [= <-]. constructor; [|apply IH; reflexivity].
    split; [reflexivity|]. exists ks. auto.
Qed.

Lemma Forall2_map_fst {A B} (R : A * B -> A * B -> Prop)
      (l l' : list (A * B)) :
  (forall x y, R x y -> fst y = fst x) ->
  Forall2 R l l' -> map fst l' = map fst l.
Proof.
  intros HR. induction 1 as [|x y l l' Hxy _ IH]; [reflexivity|].
  simpl. rewrite IH, (HR x y Hxy). reflexivity.
Qed.

Lemma in_add_run_keys (w : string) (r : GitHub.workflow_run)
      (g : GitHub.groups) (n : string) :
  In n (map fst (GitHub.add_run w r g)) <-> n = w \/ In n (map fst g).
Proof.
  induction g as [|[m rs] g IH]; simpl; [intuition|].
  destruct (m =? w) eqn:E; simpl.
  - apply String.eqb_eq in E. subst m. intuition.
  - rewrite IH. intuition.
Qed.

Lemma add_run_NoDup (w : string) (r : GitHub.workflow_run)
      (g : GitHub.groups) :
  NoDup (map fst g) -> NoDup (map fst (GitHub.add_run w r g)).
Proof.
  induction g as [|[m rs] g IH]; simpl; intros Hn.
  - constructor; [intros [] | constructor].
  - inversion Hn as [|? ? Hm Hg]; subst.
    destruct (m =? w) eqn:E; simpl.
    + constructor; assumption.
    + constructor; [|apply IH; exact Hg].
      rewrite in_add_run_keys. intros [->|H]; [|contradiction].
      rewrite String.eqb_refl in E. discriminate.
Qed.

Lemma in_add_run (w : string) (r : GitHub.workflow_run)
      (g : GitHub.groups) (n : string) (rs : list GitHub.workflow_run) :
  In (n, rs) (GitHub.add_run w r g) ->
  In (n, rs) g
  \/ (n = w /\ exists rs0, rs = (rs0 ++ [r])%list
                           /\ (rs0 = [] \/ In (n, rs0) g)).
Proof.
  induction g as [|[m ms] g IH]; simpl.
  - intros [[= <- <-]|[]]. right. split; [reflexivity|].
    exists []. auto.
  - destruct (m =? w) eqn:E; simpl.
    + apply String.eqb_eq in E. subst m.
      intros [[= <- <-]|H]; [|auto].
      right. split; [reflexivity|]. exists ms. auto.
    + intros [H|H]; [auto|].
      destruct (IH H) as [H'|(-> & rs0 & -> & [->|H'])]; [auto| |].
      * right. split; [reflexivity|]. exists []. auto.
      * right. split; [reflexivity|]. exists rs0. auto.
Qed.

Lemma add_run_keeps (w : string) (r : GitHub.workflow_run)
      (g : GitHub.groups) (n : string) (rs0 : list GitHub.workflow_run) :
  In (n, rs0) g ->
  exists rs, In (n, rs) (GitHub.add_run w r g)
             /\ forall x, In x rs0 -> In x rs.
Proof.
  induction g as [|[m ms] g IH]; simpl; [intros []|].
  destruct (m =? w) eqn:E; simpl.
  - intros [[= -> ->]|H].
    + exists (rs0 ++ [r])%list. split; [left; reflexivity|].
      intros x Hx. apply in_or_app. auto.
    + exists rs0. auto.
  - intros [[= -> ->]|H].
    + exists rs0. auto.
    + destruct (IH H) as (rs & Hin & Hsub). exists rs. auto.
Qed.

Lemma add_run_holds (w : string) (r : GitHub.workflow_run)
      (g : GitHub.groups) :
  exists rs, In (w, rs) (GitHub.add_run w r g) /\ In r rs.
Proof.
  induction g as [|[m ms] g IH]; simpl.
  - exists [r]. split; left; reflexivity.
  - destruct (m =? w) eqn:E; simpl.
    + apply String.eqb_eq in E. subst m.
      exists (ms ++ [r])%list. split; [left; reflexivity|].
      apply in_or_app. right. left. reflexivity.
    + destruct IH as (rs & Hin & Hr). exists rs. auto.
Qed.

Lemma group_runs_grouped (rest : list GitHub.workflow_run) :
  forall done g g',
    grouped done g -> GitHub.group_runs rest g = inr g' ->
    grouped (done ++ rest) g'.
Proof.
  induction rest as [|r rest IH]; intros done g g' Hg; simpl.
  - intros [= <-]. rewrite app_nil_r. exact Hg.
  - destruct (GitHub.name r) as [w|] eqn:En; [|discriminate].
    intros Hgr.
    replace (done ++ r :: rest)%list with ((done ++ [r]) ++ rest)%list
      by (rewrite <- app_assoc; reflexivity).
    apply (IH (done ++ [r])%list (GitHub.add_run w r g) g'); [|exact Hgr].
    destruct Hg as (Hn & Hsound & Hcomplete).
    split; [apply add_run_NoDup; exact Hn|]. split.
    + intros n rs x Hin Hx.
      destruct (@in_add_run w r g n rs Hin)
        as [H|(-> & rs0 & -> & [->|H])].
      * destruct (Hsound n rs x H Hx) as [H1 H2].
        split; [exact H1 | apply in_or_app; auto].
      * destruct Hx as [<-|[]].
        split; [exact En | apply in_or_app; right; left; reflexivity].
      * apply in_app_or in Hx. destruct Hx as [Hx|[<-|[]]].
        -- destruct (Hsound w rs0 x H Hx) as [H1 H2].
           split; [exact H1 | apply in_or_app; auto].
        -- split; [exact En | apply in_or_app; right; left; reflexivity].
    + intros x n Hx Hname.
      apply in_app_or in Hx. destruct Hx as [Hx|[<-|[]]].
      * destruct (Hcomplete x n Hx Hname) as (rs0 & Hin & Hxr).
        destruct (@add_run_keeps w r g n rs0 Hin) as (rs & Hin' & Hsub).
        exists rs. auto.
      * rewrite En in Hname. injection Hname as <-.
        apply add_run_holds.
Qed.

Lemma NoDup_keys_unique {A B} (l : list (A * B)) (k : A) (a b : B) :
  NoDup (map fst l) -> In (k, a) l -> In (k, b) l -> a = b.
Proof.
  induction l as [|[k' v] l IH]; simpl; [intros _ []|].
  intros Hn. inversion Hn as [|? ? Hk Hl]; subst.
  intros [[= -> ->]|Ha] [[= <-]|Hb]; try reflexivity.
  - exfalso. apply Hk. apply in_map_iff. exists (k, b). auto.
  - exfalso. apply Hk. apply in_map_iff. exists (k', a). auto.
  - apply IH; assumption.
Qed.

Lemma github_workflow_results_names (pw_instance : string)
      (build : Build.row) (g : GitHub.groups) :
  (forall o, In o (fst (GitHub.workflow_results pw_instance build g)) ->
             In (Outcome.test_name o) (map fst g))
  /\ (NoDup (map fst g) ->
      NoDup (map Outcome.test_name
                 (fst (GitHub.workflow_results pw_instance build g)))).
Proof.
  induction g as [|[workflow_name runs] rest [IHin IHnd]]; simpl.
  { split; [intros o [] | intros _; constructor]. }
  assert (Hskip :
            (forall o,
                In o (fst (GitHub.workflow_results pw_instance build rest)) ->
                workflow_name = Outcome.test_name o
                \/ In (Outcome.test_name o) (map fst rest))
            /\ (NoDup (workflow_name :: map fst rest) ->
                NoDup (map Outcome.test_name
                           (fst (GitHub.workflow_results pw_instance build
                                                         rest))))).
  { split; [intros o Ho; right; apply IHin; exact Ho|].
    intros Hn. inversion Hn; subst. apply IHnd. assumption. }
  assert (Hnone :
            (forall o, In o (@nil Outcome.t) ->
                       workflow_name = Outcome.test_name o
                       \/ In (Outcome.test_name o) (map fst rest))
            /\ (NoDup (workflow_name :: map fst rest) ->
                NoDup (map Outcome.test_name (@nil Outcome.t)))).
  { split; [intros o [] | intros _; constructor]. }
  destruct runs as [|latest_run ?]; [exact Hnone|].
  destruct (GitHub.status latest_run) as [st|]; [|exact Hnone].
  destruct (GitHub.conclusion latest_run) as [| |concl];
    [exact Hnone| |];
    (destruct (GitHub.html_url latest_run) as [build_url|]; [|exact Hnone];
     destruct (negb (st =? "completed")); [exact Hskip|];
     destruct (GitHub.workflow_results pw_instance build rest) as [os e];
     simpl in *; split;
     [intros o [<-|Ho]; [left; reflexivity | right; apply IHin; exact Ho]
     |intros Hn; inversion Hn as [|? ? Hw Hr]; subst;
      constructor; [|apply IHnd; exact Hr];
      intros Hin; apply in_map_iff in Hin;
      destruct Hin as (o & Ho1 & Ho2); apply Hw;
      rewrite <- Ho1; apply IHin; exact Ho2]).
Qed.

Lemma github_workflow_results_head (pw_instance : string)
      (build : Build.row) (g : GitHub.groups) (o : Outcome.t) :
  In o (fst (GitHub.workflow_results pw_instance build g)) ->
  exists r rs,
    In (Outcome.test_name o, r :: rs) g
    /\ GitHub.status r = Some "completed"
    /\ GitHub.html_url r = Some (Outcome.build_url o)
    /\ (Outcome.result o = "passed"
        <-> GitHub.conclusion r = Value "success").
Proof.
  induction g as [|[workflow_name runs] rest IH]; simpl; [intros []|].
  assert (Hskip :
            In o (fst (GitHub.workflow_results pw_instance build rest)) ->
            exists r rs,
              ((workflow_name, runs) = (Outcome.test_name o, r :: rs)
               \/ In (Outcome.test_name o, r :: rs) rest)
              /\ GitHub.status r = Some "completed"
              /\ GitHub.html_url r = Some (Outcome.build_url o)
              /\ (Outcome.result o = "passed"
                  <-> GitHub.conclusion r = Value "success")).
  { intros Ho. destruct (IH Ho) as (r & rs & Hin & H).
    exists r, rs. auto. }
  destruct runs as [|latest_run others]; [intros []|].
  destruct (GitHub.status latest_run) as [st|] eqn:Est; [|intros []].
  destruct (GitHub.conclusion latest_run) as [| |concl] eqn:Ec;
    [intros []| |];
    (destruct (GitHub.html_url latest_run) as [build_url|] eqn:Eu;
     [|intros []];
     destruct (negb (st =? "completed")) eqn:Ecomp; [exact Hskip|];
     destruct (GitHub.workflow_results pw_instance build rest) as [os e];
     simpl in *; intros [<-|Ho]; [|apply Hskip; exact Ho];
     exists latest_run, others; simpl;
     apply negb_false_iff in Ecomp; apply String.eqb_eq in Ecomp;
     subst st;
     split; [left; reflexivity|]; split; [exact Est|];
     split; [exact Eu|]).
  - rewrite Ec. split; discriminate.
  - rewrite Ec. destruct (concl =? "success") eqn:Es.
    + apply String.eqb_eq in Es. subst concl. split; reflexivity.
    + split; [discriminate|]. intros [= ->].
      rewrite String.eqb_refl in Es. discriminate.
Qed.

Lemma github_report_emitted (pw_instance sync_column : string)
      (c : GitHub.cache) (build : Build.row) (db : database)
      (page : GitHub.runs_page) (runs : list GitHub.workflow_run) :
  GitHub.all_runs c = Some page ->
  GitHub.workflow_runs page = Some runs ->
  emitted (GitHub.report pw_instance sync_column c build db) = []
  \/ exists g sorted,
      grouped runs g
      /\ GitHub.sort_groups g = inr sorted
      /\ emitted (GitHub.report pw_instance sync_column c build db)
         = fst (GitHub.workflow_results pw_instance build sorted).
Proof.
  intros Ha Hw. unfold GitHub.report. rewrite Ha, Hw.
  destruct runs as [|r runs]; [left; reflexivity|].
  destruct (GitHub.group_runs (r :: runs) []) as [e|g] eqn:Eg;
    [left; reflexivity|].
  destruct (GitHub.sort_groups g) as [e|sorted] eqn:Es;
    [left; reflexivity|].
  right. exists g, sorted. split; [|split; [exact Es|]].
  - apply (@group_runs_grouped (r :: runs) [] [] g); [|exact Eg].
    split; [constructor|]. split; [intros ? ? ? [] | intros ? ? []].
  - destruct (GitHub.workflow_results pw_instance build sorted)
      as [os [e|]]; [reflexivity|].
    unfold mark_build.
    destruct (set_build_synced db pw_instance (Build.patch_id build)
                               sync_column); reflexivity.
Qed.

Lemma github_report_latest_runs
        (pw_instance sync_column : string) (c : GitHub.cache)
        (build : Build.row) (db : database) (page : GitHub.runs_page)
        (runs : list GitHub.workflow_run) :
  GitHub.all_runs c = Some page ->
  GitHub.workflow_runs page = Some runs ->
  let os := emitted (GitHub.report pw_instance sync_column c build db) in
  NoDup (map Outcome.test_name os)
  /\ forall o,
      In o os ->
      exists r k,
        In r runs
        /\ GitHub.name r = Some (Outcome.test_name o)
        /\ GitHub.run_started_at r = Some k
        /\ GitHub.status r = Some "completed"
        /\ GitHub.html_url r = Some (Outcome.build_url o)
        /\ (Outcome.result o = "passed"
            <-> GitHub.conclusion r = Value "success")
        /\ forall r' k',
            In r' runs ->
            GitHub.name r' = Some (Outcome.test_name o) ->
            GitHub.run_started_at r' = Some k' ->
            String.leb k' k = true.
Proof.
  intros Ha Hw. cbv zeta.
  destruct (@github_report_emitted pw_instance sync_column c build db page
                                   runs Ha Hw)
    as [->|(g & sorted & (Hnd & Hsound & Hcomplete) & Hsort & ->)].
  { split; [constructor | intros o []]. }
  pose proof (@sort_groups_spec g sorted Hsort) as Hf2.
  assert (Hkeys : map fst sorted = map fst g).
  { refine (@Forall2_map_fst _ _ _ g sorted _ Hf2).
    intros x y [H _]. exact H. }
  destruct (github_workflow_results_names pw_instance build sorted)
    as [_ Hnames].
  split; [apply Hnames; rewrite Hkeys; exact Hnd|].
  intros o Ho.
  destruct (@github_workflow_results_head pw_instance build sorted o Ho)
    as (r & rs & Hin & Hst & Hurl & Hres).
  destruct (@Forall2_In_r _ _ g sorted _ Hf2 Hin)
    as ([n rs0] & Hin0 & Hn & ks & Hks & Hsorted).
  cbn [fst snd] in *. subst n.
  destruct (@started_keys_spec rs0 ks Hks) as [Hmap Hall].
  destruct (GitHub.newest_first ks) as [|[k r0] t] eqn:Enf;
    [discriminate|].
  cbn [map snd] in Hsorted. injection Hsorted as Hr _. subst r.
  destruct (@newest_first_head ks (k, r0) t Enf) as [Hhead Hdom].
  cbn [fst] in Hdom.
  assert (Hr0 : In r0 rs0).
  { rewrite <- Hmap. apply in_map_iff. exists (k, r0). auto. }
  destruct (Hsound _ _ _ Hin0 Hr0) as [Hname Hrun].
  rewrite Forall_forall in Hall.
  exists r0, k. split; [exact Hrun|]. split; [exact Hname|].
  split; [exact (Hall _ Hhead)|]. split; [exact Hst|].
  split; [exact Hurl|]. split; [exact Hres|].
  intros r' k' Hr' Hname' Hk'.
  destruct (Hcomplete r' _ Hr' Hname') as (rs' & Hin' & Hr'').
  rewrite (@NoDup_keys_unique _ _ g _ rs' rs0 Hnd Hin' Hin0) in Hr''.
  rewrite <- Hmap in Hr''. apply in_map_iff in Hr''.
  destruct Hr'' as ([k'' x] & Hx & Hxin). cbn [snd] in Hx. subst x.
  pose proof (Hall _ Hxin) as Hkk. cbn [fst snd] in Hkk.
  rewrite Hk' in Hkk. injection Hkk as ->.
  apply (Hdom _ Hxin).
Qed.

(** What the GitHub provider yields for one build, given the runs it
    holds for it: at most one outcome per workflow name, and each
    outcome is made from a run of that name that is completed, whose
    page is the build URL, whose conclusion is [success] exactly when
    the result is [passed], and that started no earlier than any other
    run of the same name. *)
Theorem github_latest_run_per_workflow
        (pw_instance sync_column : string) (c : GitHub.cache)
        (build : Build.row) (db : database) (page : GitHub.runs_page)
        (runs : list GitHub.workflow_run) :
  GitHub.all_runs c = Some page ->
  GitHub.workflow_runs page = Some runs ->
  let os := emitted (GitHub.report pw_instance sync_column c build db) in
  NoDup (map Outcome.test_name os)
  /\ forall o,
      In o os ->
      exists r k,
        In r runs
        /\ GitHub.name r = Some (Outcome.test_name o)
        /\ GitHub.run_started_at r = Some k
        /\ GitHub.status r = Some "completed"
        /\ GitHub.html_url r = Some (Outcome.build_url o)
        /\ (Outcome.result o = "passed"
            <-> GitHub.conclusion r = Value "success")
        /\ forall r' k',
            In r' runs ->
            GitHub.name r' = Some (Outcome.test_name o) ->
            GitHub.run_started_at r' = Some k' ->
            String.leb k' k = true.
Proof. apply github_report_latest_runs. Qed.

(** A page with a run of [Lint] in progress and a completed run of
    [Build], held for patch 100001. *)
Lemma github_latest_run_per_workflow_witness :
  NoDup (map Outcome.test_name
             (emitted
                (GitHub.report
                   Scenario.instance "gap_sync"
                   {| GitHub.prev_series := Some 1000;
                      GitHub.all_runs :=
                        Some {| GitHub.workflow_runs :=
                                  Some [Scenario.run_in_progress "Lint";
                                        Scenario.completed_run "Build"
                                                               "success"] |};
                      GitHub.prev_url := None |}
                   Scenario.patch_100001 Scenario.queued))).
Proof.
  exact (proj1 (@github_latest_run_per_workflow
                  Scenario.instance "gap_sync"
                  {| GitHub.prev_series := Some 1000;
                     GitHub.all_runs :=
                       Some {| GitHub.workflow_runs :=
                                 Some [Scenario.run_in_progress "Lint";
                                       Scenario.completed_run "Build"
                                                              "success"] |};
                     GitHub.prev_url := None |}
                  Scenario.patch_100001 Scenario.queued _ _
                  eq_refl eq_refl)).
Defined.

(** The GitHub provider marks a build on the strength of having seen
    runs, not of having reported any: whenever the page it holds for a
    build lists at least one run and the pass raises nothing, the patch
    is marked in the provider's column; and when none of the listed runs
    is completed, that pass yields nothing. *)
Theorem github_marks_without_reporting
        (pw_instance sync_column : string) (c : GitHub.cache)
        (build : Build.row) (db : database) (page : GitHub.runs_page)
        (runs : list GitHub.workflow_run) :
  GitHub.all_runs c = Some page ->
  GitHub.workflow_runs page = Some runs ->
  runs <> [] ->
  failure (GitHub.report pw_instance sync_column c build db) = None ->
  set_build_synced db pw_instance (Build.patch_id build) sync_column
  = Some (after (GitHub.report pw_instance sync_column c build db))
  /\ (Forall (fun r => GitHub.status r <> Some "completed") runs ->
      emitted (GitHub.report pw_instance sync_column c build db) = []).
Proof.
  intros Ha Hw Hne Hf. split.
  - revert Hf. unfold GitHub.report. rewrite Ha, Hw.
    destruct runs as [|r runs]; [congruence|].
    destruct (GitHub.group_runs (r :: runs) []) as [e|g];
      [discriminate|].
    destruct (GitHub.sort_groups g) as [e|sorted]; [discriminate|].
    destruct (GitHub.workflow_results pw_instance build sorted)
      as [os [e|]]; [discriminate|].
    unfold mark_build.
    destruct (set_build_synced db pw_instance (Build.patch_id build)
                               sync_column); [reflexivity|discriminate].
  - intros Hall.
    destruct (@github_report_latest_runs
                pw_instance sync_column c build db page runs Ha Hw)
      as [_ Hsrc].
    destruct (emitted (GitHub.report pw_instance sync_column c build db))
      as [|o os]; [reflexivity|].
    destruct (Hsrc o (or_introl eq_refl))
      as (r & k & Hin & _ & _ & Hst & _).
    rewrite Forall_forall in Hall. destruct (Hall r Hin Hst).
Qed.

(** Scenario B: the page lists one run, still in progress. *)
Lemma github_marks_without_reporting_witness :
  let c := {| GitHub.prev_series := Some 1000;
              GitHub.all_runs :=
                Some {| GitHub.workflow_runs :=
                          Some [Scenario.run_in_progress "Build"] |};
              GitHub.prev_url := None |} in
  set_build_synced Scenario.queued Scenario.instance 100001 "gap_sync"
  = Some (after (GitHub.report Scenario.instance "gap_sync" c
                               Scenario.patch_100001 Scenario.queued))
  /\ emitted (GitHub.report Scenario.instance "gap_sync" c
                            Scenario.patch_100001 Scenario.queued) = [].
Proof.
  cbv zeta.
  destruct (@github_marks_without_reporting
              Scenario.instance "gap_sync"
              {| GitHub.prev_series := Some 1000;
                 GitHub.all_runs :=
                   Some {| GitHub.workflow_runs :=
                             Some [Scenario.run_in_progress "Build"] |};
                 GitHub.prev_url := None |}
              Scenario.patch_100001 Scenario.queued _ _
              eq_refl eq_refl ltac:(discriminate) eq_refl) as [Hm He].
  split; [exact Hm|]. apply He.
  constructor; [discriminate | constructor].
Defined.

(** ** GitHub Actions: one request per repository *)

Lemma github_report_carried (pw_instance sync_column : string)
      (c : GitHub.cache) (build : Build.row) (db : database) :
  carried (GitHub.report pw_instance sync_column c build db) = c.
Proof.
  unfold GitHub.report.
  destruct (GitHub.all_runs c) as [page|]; [|reflexivity].
  destruct (GitHub.workflow_runs page) as [[|r runs]|]; try reflexivity.
  destruct (GitHub.group_runs (r :: runs) []) as [e|g]; [reflexivity|].
  destruct (GitHub.sort_groups g) as [e|sorted]; [reflexivity|].
  destruct (GitHub.workflow_results pw_instance build sorted)
    as [os [e|]]; [reflexivity|].
  unfold mark_build.
  destruct (set_build_synced db pw_instance (Build.patch_id build)
                             sync_column); reflexivity.
Qed.

(** Once a URL is in [prev_url], a build with that URL sends no
    request, and leaves the URL there. *)
Lemma github_body_cached (api_base : string) (be be' : GitHub.backend)
      (pw_instance : string) (pw_project : option string)
      (sync_column : string) (c : GitHub.cache) (build : Build.row)
      (db : database) :
  GitHub.prev_url c = Some (GitHub.api_url api_base build) ->
  GitHub.body api_base be pw_instance pw_project sync_column c build db
  = GitHub.body api_base be' pw_instance pw_project sync_column c build db
  /\ GitHub.prev_url
       (carried (GitHub.body api_base be pw_instance pw_project sync_column
                             c build db))
     = GitHub.prev_url c.
Proof.
  intros Hu. unfold GitHub.body.
  destruct (filtered_out pw_project (Build.patchwork_project build));
    [split; reflexivity|].
  destruct (eqb_opt_Z (GitHub.prev_series c) (Build.series_id build)).
  { split; [reflexivity|]. rewrite github_report_carried. reflexivity. }
  rewrite Hu. cbn [eqb_opt_string]. rewrite String.eqb_refl.
  split; [reflexivity|]. rewrite github_report_carried. reflexivity.
Qed.

Lemma github_loop_cached (api_base : string) (be be' : GitHub.backend)
      (pw_instance : string) (pw_project : option string)
      (sync_column url : string) (builds : list Build.row) :
  Forall (fun b => GitHub.api_url api_base b = url) builds ->
  forall c db,
    GitHub.prev_url c = Some url ->
    for_each (GitHub.body api_base be pw_instance pw_project sync_column)
             c builds db
    = for_each (GitHub.body api_base be' pw_instance pw_project sync_column)
               c builds db.
Proof.
  induction 1 as [|b rest Hb Hrest IH]; intros c db Hc; [reflexivity|].
  rewrite <- Hb in Hc.
  destruct (@github_body_cached api_base be be' pw_instance pw_project
                                sync_column c b db Hc) as [Heq Hcar].
  cbn [for_each]. rewrite <- Heq.
  destruct (failure (GitHub.body api_base be pw_instance pw_project
                                 sync_column c b db)); [reflexivity|].
  rewrite IH; [reflexivity|]. rewrite Hcar, Hc, Hb. reflexivity.
Qed.

Lemma api_url_same_repo (api_base : string) (a b : Build.row) :
  Build.repo_name a = Build.repo_name b ->
  GitHub.api_url api_base a = GitHub.api_url api_base b.
Proof. unfold GitHub.api_url. intros ->. reflexivity. Qed.

(** A call of the GitHub provider whose queue holds builds of one
    repository sends one request, for the branch of the first build the
    project filter admits: two backends that agree on that request give
    the same call, whatever they would answer for the branches of the
    later builds. *)
Theorem github_one_request_per_repo
        (api_base : string) (be be' : GitHub.backend) (db : database)
        (pw_instance : string) (pw_project : option string)
        (skipped rest : list Build.row) (first : Build.row) :
  get_unsynced_builds db pw_instance (sync_column_of "gap")
  = Some (skipped ++ first :: rest)%list ->
  Forall (fun b => filtered_out pw_project (Build.patchwork_project b)
                   = true) skipped ->
  filtered_out pw_project (Build.patchwork_project first) = false ->
  Forall (fun b => Build.repo_name b = Build.repo_name first) rest ->
  be (GitHub.api_url api_base first)
     (GitHub.branch_of (Build.series_id first))
  = be' (GitHub.api_url api_base first)
        (GitHub.branch_of (Build.series_id first)) ->
  GitHub.get_build_results api_base be db pw_instance pw_project
  = GitHub.get_build_results api_base be' db pw_instance pw_project.
Proof.
  intros Hq Hsk Hfirst Hrest Hbe. unfold GitHub.get_build_results.
  rewrite Hq. clear Hq.
  assert (Hurls : Forall (fun b => GitHub.api_url api_base b
                                   = GitHub.api_url api_base first) rest).
  { eapply Forall_impl; [|exact Hrest]. intros b Hb.
    apply api_url_same_repo. exact Hb. }
  assert (Hskip : forall (x : GitHub.backend) b,
             filtered_out pw_project (Build.patchwork_project b) = true ->
             GitHub.body api_base x pw_instance pw_project
                         (sync_column_of "gap") GitHub.no_cache b db
             = proceed GitHub.no_cache db []).
  { intros x b Hb. unfold GitHub.body. rewrite Hb. reflexivity. }
  induction Hsk as [|b sk Hb Hsk IH].
  - assert (Hsame :
              GitHub.body api_base be pw_instance pw_project
                          (sync_column_of "gap") GitHub.no_cache first db
              = GitHub.body api_base be' pw_instance pw_project
                            (sync_column_of "gap") GitHub.no_cache first db).
    { unfold GitHub.body. rewrite Hfirst.
      cbn [eqb_opt_Z eqb_opt_string GitHub.prev_series GitHub.prev_url
                     GitHub.no_cache].
      rewrite Hbe. reflexivity. }
    assert (Hcar :
              GitHub.prev_url
                (carried (GitHub.body api_base be pw_instance pw_project
                                      (sync_column_of "gap") GitHub.no_cache
                                      first db))
              = Some (GitHub.api_url api_base first)).
    { unfold GitHub.body. rewrite Hfirst.
      cbn [eqb_opt_Z eqb_opt_string GitHub.prev_series GitHub.prev_url
                     GitHub.no_cache].
      destruct (be (GitHub.api_url api_base first)
                   (GitHub.branch_of (Build.series_id first)));
        [reflexivity|].
      rewrite github_report_carried. reflexivity. }
    cbn [app for_each]. rewrite <- Hsame.
    destruct (failure (GitHub.body api_base be pw_instance pw_project
                                   (sync_column_of "gap") GitHub.no_cache
                                   first db)); [reflexivity|].
    rewrite (@github_loop_cached api_base be be' pw_instance pw_project
                                 (sync_column_of "gap") _ rest Hurls _ _
                                 Hcar).
    reflexivity.
  - cbn [app].
    rewrite (@for_each_skip _ _ _ _ _ b (sk ++ first :: rest)%list db
                            (Hskip be b Hb)).
    rewrite (@for_each_skip _ _ _ _ _ b (sk ++ first :: rest)%list db
                            (Hskip be' b Hb)).
    exact IH.
Qed.

(** Scenario B with two series built in [owner/repo]: a backend that
    reports a run in progress on the branch of series 1001 and one that
    reports a completed run there give the same call. *)
Lemma github_one_request_per_repo_witness :
  GitHub.get_build_results
    "https://api.github.com" Scenario.github_1000_done
    Scenario.queued_same_repo Scenario.instance None
  = GitHub.get_build_results
      "https://api.github.com"
      (Scenario.github_answering [Scenario.completed_run "Build" "success"])
      Scenario.queued_same_repo Scenario.instance None.
Proof.
  apply (@github_one_request_per_repo
           "https://api.github.com" Scenario.github_1000_done
           (Scenario.github_answering
              [Scenario.completed_run "Build" "success"])
           Scenario.queued_same_repo Scenario.instance None
           [] _ Scenario.patch_100001 eq_refl).
  - constructor.
  - reflexivity.
  - constructor; [reflexivity | constructor].
  - reflexivity.
Defined.

(** ** Cirrus: the first completed build decides *)

Lemma failed_tasks_spec (ts fs : list Cirrus.task) :
  Cirrus.failed_tasks ts = inr fs ->
  (fs <> [] <-> exists t, In t ts /\ Cirrus.task_status t = Some "FAILED").
Proof.
  revert fs. induction ts as [|t ts IH]; intros fs; cbn [Cirrus.failed_tasks].
  - intros [= <-]. split; [congruence | intros (t & [] & _)].
  - destruct (Cirrus.task_status t) as [st|] eqn:Et; [|discriminate].
    destruct (Cirrus.failed_tasks ts) as [e|fs0]; [discriminate|].
    intros [= <-]. specialize (IH fs0 eq_refl).
    destruct (st =? "FAILED") eqn:Es.
    + apply String.eqb_eq in Es. subst st.
      split; [|discriminate]. intros _. exists t. split; [left|]; auto.
    + apply String.eqb_neq in Es. split.
      * intros Hne. apply IH in Hne. destruct Hne as (t' & Hin & Ht').
        exists t'. split; [right|]; auto.
      * intros (t' & [<-|Hin] & Ht'); [congruence|].
        apply IH. exists t'. auto.
Qed.

Lemma cirrus_first_completed_spec (pw_instance : string) (build : Build.row)
      (l : list Cirrus.edge) (o : Outcome.t) :
  Cirrus.first_completed pw_instance build l = inr (Some o) ->
  exists pre e n post node_id,
    l = (pre ++ e :: post)%list
    /\ Forall (fun w => exists m st,
                   Cirrus.node_of w = Some m
                   /\ Cirrus.status m = Some st
                   /\ st <> "COMPLETED") pre
    /\ Cirrus.node_of e = Some n
    /\ Cirrus.status n = Some "COMPLETED"
    /\ Cirrus.id n = Some node_id
    /\ Outcome.build_url o = "https://cirrus-ci.com/build/" ++ node_id
    /\ (Outcome.result o = "failed"
        <-> exists t, In t (match Cirrus.tasks n with
                            | Some ts => ts
                            | None => []
                            end)
                      /\ Cirrus.task_status t = Some "FAILED").
Proof.
  induction l as [|e l IH]; cbn [Cirrus.first_completed]; [discriminate|].
  destruct (Cirrus.node_of e) as [n|] eqn:En; [|discriminate].
  destruct (Cirrus.status n) as [st|] eqn:Est; [|discriminate].
  destruct (st =? "COMPLETED") eqn:Ec.
  - apply String.eqb_eq in Ec. subst st.
    destruct (Cirrus.failed_tasks
                match Cirrus.tasks n with
                | Some ts => ts
                | None => []
                end) as [x|fs] eqn:Ef; [discriminate|].
    destruct (Cirrus.id n) as [node_id|] eqn:Ei; [|discriminate].
    intros [= <-]. exists [], e, n, l, node_id.
    split; [reflexivity|]. split; [constructor|].
    split; [exact En|]. split; [exact Est|]. split; [exact Ei|].
    split; [reflexivity|].
    rewrite <- (failed_tasks_spec _ Ef). cbn [Cirrus.outcome_of Outcome.result].
    destruct fs; split; congruence.
  - intros H. destruct (IH H)
      as (pre & e' & n' & post & node_id & -> & Hpre & Hrest).
    exists (e :: pre), e', n', post, node_id.
    split; [reflexivity|]. split; [|exact Hrest].
    constructor; [|exact Hpre]. exists n, st.
    apply String.eqb_neq in Ec. auto.
Qed.

(** What the Cirrus provider yields for one build: at most one outcome,
    made from the first build in the reply whose status is [COMPLETED];
    every build before it has another status; the build URL carries its
    id; and the result is [failed] exactly when one of its tasks has the
    status [FAILED]. *)
Theorem cirrus_first_completed_build
        (be : Cirrus.backend) (pw_instance : string)
        (pw_project : option string) (sync_column : string) (s : unit)
        (build : Build.row) (db : database) (o : Outcome.t) :
  In o (emitted (Cirrus.body be pw_instance pw_project sync_column s build
                             db)) ->
  emitted (Cirrus.body be pw_instance pw_project sync_column s build db)
  = [o]
  /\ exists owner name r pre e n post node_id,
      split "/" (Build.repo_name build) = [owner; name]
      /\ be owner name (Cirrus.branch_of (Build.series_id build)) = Body r
      /\ Cirrus.builds_data r = inr (pre ++ e :: post)%list
      /\ Forall (fun w => exists m st,
                     Cirrus.node_of w = Some m
                     /\ Cirrus.status m = Some st
                     /\ st <> "COMPLETED") pre
      /\ Cirrus.node_of e = Some n
      /\ Cirrus.status n = Some "COMPLETED"
      /\ Cirrus.id n = Some node_id
      /\ Outcome.build_url o = "https://cirrus-ci.com/build/" ++ node_id
      /\ (Outcome.result o = "failed"
          <-> exists t, In t (match Cirrus.tasks n with
                              | Some ts => ts
                              | None => []
                              end)
                        /\ Cirrus.task_status t = Some "FAILED").
Proof.
  unfold Cirrus.body.
  destruct (filtered_out pw_project (Build.patchwork_project build));
    [intros []|].
  destruct (split "/" (Build.repo_name build))
    as [|owner [|name [|x parts]]] eqn:Es; try (intros []).
  destruct (be owner name (Cirrus.branch_of (Build.series_id build)))
    as [|r] eqn:Eb; [intros []|].
  destruct (Cirrus.builds_data r) as [x|l] eqn:El; [intros []|].
  destruct (Cirrus.first_completed pw_instance build l) as [x|[o'|]] eqn:Ef;
    try (intros []).
  assert (Hem : emitted (mark_build s db [o'] pw_instance
                                    (Build.patch_id build) sync_column)
                = [o']).
  { unfold mark_build.
    destruct (set_build_synced db pw_instance (Build.patch_id build)
                               sync_column); reflexivity. }
  rewrite Hem. intros [<-|[]]. split; [reflexivity|].
  destruct (cirrus_first_completed_spec _ _ _ Ef)
    as (pre & e & n & post & node_id & -> & Hrest).
  exists owner, name, r, pre, e, n, post, node_id.
  split; [reflexivity|]. split; [exact Eb|]. split; [exact El|].
  exact Hrest.
Qed.

(** Cirrus reports one completed build, none of whose tasks failed. *)
Lemma cirrus_first_completed_build_witness :
  emitted (Cirrus.body (fun _ _ _ =>
                          Body (Scenario.cirrus_reply
                                  [Scenario.cirrus_completed]))
                       Scenario.instance None "cirrus_sync" tt
                       Scenario.patch_100001 Scenario.queued)
  = [Cirrus.outcome_of Scenario.instance Scenario.patch_100001 "passed"
                       "5000"].
Proof.
  exact (proj1 (@cirrus_first_completed_build
                  (fun _ _ _ =>
                     Body (Scenario.cirrus_reply [Scenario.cirrus_completed]))
                  Scenario.instance None "cirrus_sync" tt
                  Scenario.patch_100001 Scenario.queued
                  (Cirrus.outcome_of Scenario.instance Scenario.patch_100001
                                     "passed" "5000")
                  (or_introl eq_refl))).
Defined.

(** ** Travis: the store after a call *)

(** Clearing the branch of one series leaves the branches of the others
    active. *)
Lemma active_kept_by_clear (db : database) (instance i : string)
      (series_id : Z) (a : branch_row) :
  In a (get_active_branches db instance) ->
  branch_series_id a <> series_id ->
  In a (get_active_branches (clear_series_branch db i series_id) instance).
Proof.
  unfold get_active_branches, clear_series_branch, with_series.
  cbn [series]. intros Ha Hne.
  induction (series db) as [|x l IH]; [destruct Ha|].
  change (update_where (series_matches i series_id)
            (fun r => put_branch (Some "") (Series.series_repo r) r)
            (x :: l))
    with ((if series_matches i series_id x
           then put_branch (Some "") (Series.series_repo x) x else x)
          :: update_where (series_matches i series_id)
               (fun r => put_branch (Some "") (Series.series_repo r) r) l).
  cbn [active_rows] in Ha.
  destruct (series_matches i series_id x) eqn:Em.
  - rewrite active_rows_cleared.
    destruct (Series.series_instance x =? instance); [|exact (IH Ha)].
    destruct (active_branch x) as [b|]; [|exact (IH Ha)].
    destruct Ha as [<-|Ha]; [|exact (IH Ha)].
    apply series_matches_true in Em. destruct Em as [Hid _].
    simpl in Hne. congruence.
  - cbn [active_rows].
    destruct (Series.series_instance x =? instance); [|exact (IH Ha)].
    destruct (active_branch x) as [b|]; [|exact (IH Ha)].
    destruct Ha as [<-|Ha]; [left; reflexivity | right; exact (IH Ha)].
Qed.

Lemma travis_body_after (be : Travis.backend) (pw_instance : string)
      (pw_project : option string) (s : unit) (a : branch_row)
      (db : database) :
  after (Travis.body be pw_instance pw_project s a db)
  = fold_left (fun d o => clear_series_branch d pw_instance
                                              (Outcome.series_id o))
              (emitted (Travis.body be pw_instance pw_project s a db)) db.
Proof.
  pose proof (@travis_body_made_for be pw_instance pw_project s a db) as Hm.
  revert Hm. unfold Travis.body.
  destruct a as [[[[series_id project] series_url] branchname] travis_repo].
  destruct (filtered_out pw_project project); [reflexivity|].
  destruct (Travis._get_builds_for_branch be travis_repo branchname)
    as [|l]; [reflexivity|].
  destruct (Travis.first_finished pw_instance series_id series_url
                                  travis_repo l) as [e|[o|]];
    try reflexivity.
  intros Hm. destruct (Hm o (or_introl eq_refl)) as (_ & _ & _ & Hid & _).
  cbn [proceed after emitted fold_left]. rewrite Hid. reflexivity.
Qed.

Lemma travis_loop_store (be : Travis.backend) (pw_instance : string)
      (pw_project : option string) (units : list branch_row) :
  forall s db,
    store (for_each (Travis.body be pw_instance pw_project) s units db)
    = fold_left (fun d o => clear_series_branch d pw_instance
                                                (Outcome.series_id o))
                (yielded (for_each (Travis.body be pw_instance pw_project)
                                   s units db)) db.
Proof.
  induction units as [|u rest IH]; intros s db; [reflexivity|].
  cbn [for_each].
  destruct (failure (Travis.body be pw_instance pw_project s u db)).
  - cbn [store yielded]. apply travis_body_after.
  - cbn [store yielded]. rewrite fold_left_app, <- travis_body_after.
    apply IH.
Qed.

Lemma cleared_fold_active (pw_instance : string) (os : list Outcome.t) :
  forall db a,
    In a (get_active_branches
            (fold_left (fun d o => clear_series_branch d pw_instance
                                                       (Outcome.series_id o))
                       os db) pw_instance)
    <-> In a (get_active_branches db pw_instance)
        /\ forall o, In o os -> branch_series_id a <> Outcome.series_id o.
Proof.
  induction os as [|o os IH]; intros db a; cbn [fold_left].
  - split; [intros H; split; [exact H | intros ? []] | intros [H _]; exact H].
  - rewrite IH. split.
    + intros [Ha Hos]. apply active_after_clear in Ha.
      destruct Ha as [Ha Hne]. split; [exact Ha|].
      intros o' [<-|Ho']; [apply Hne; reflexivity | apply Hos; exact Ho'].
    + intros [Ha Hos]. split.
      * apply active_kept_by_clear; [exact Ha | apply Hos; left; reflexivity].
      * intros o' Ho'. apply Hos. right. exact Ho'.
Qed.

(** The store a call of the Travis provider leaves is the store it
    found with the branch of every series it yielded for cleared, in
    the order of the yields; so the branches active afterwards are the
    branches that were active before and got no outcome. *)
Theorem travis_clears_what_it_yields
        (be : Travis.backend) (db : database) (pw_instance : string)
        (pw_project : option string) :
  let r := Travis.get_build_results be db pw_instance pw_project in
  store r
  = fold_left (fun d o => clear_series_branch d pw_instance
                                              (Outcome.series_id o))
              (yielded r) db
  /\ forall a,
      In a (get_active_branches (store r) pw_instance)
      <-> In a (get_active_branches db pw_instance)
          /\ forall o, In o (yielded r) ->
                       branch_series_id a <> Outcome.series_id o.
Proof.
  cbv zeta. unfold Travis.get_build_results.
  split; [apply travis_loop_store|].
  intros a. rewrite travis_loop_store. apply cleared_fold_active.
Qed.

(** ** [CIMonitor.get_patch_data] *)

Lemma last_cons_default {A} (ps : list A) (p d : A) :
  last (p :: ps) d = last ps p.
Proof.
  revert p d. induction ps as [|q ps IH]; intros p d; [reflexivity|].
  change (last (p :: q :: ps) d) with (last (q :: ps) d).
  rewrite (IH q d), (IH q p). reflexivity.
Qed.

Lemma by_id_spec (c : Monitor.client) (wanted : Z)
      (l : list Monitor.patch_ref) :
  match CIMonitor.by_id c wanted l with
  | inl _ => True
  | inr (Some d) =>
      exists pre q post u,
        l = (pre ++ q :: post)%list
        /\ Forall (passed_over c wanted) pre
        /\ Monitor.ref_id q = Some wanted
        /\ Monitor.ref_url q = Some u
        /\ Monitor.get_patch c u = Body d
  | inr None => Forall (passed_over c wanted) l
  end.
Proof.
  induction l as [|p l IH]; cbn [CIMonitor.by_id]; [constructor|].
  destruct (Monitor.ref_id p) as [i|] eqn:Ei; [|exact I].
  assert (Hnext :
            passed_over c wanted p ->
            match CIMonitor.by_id c wanted l with
            | inl _ => True
            | inr (Some d) =>
                exists pre q post u,
                  p :: l = (pre ++ q :: post)%list
                  /\ Forall (passed_over c wanted) pre
                  /\ Monitor.ref_id q = Some wanted
                  /\ Monitor.ref_url q = Some u
                  /\ Monitor.get_patch c u = Body d
            | inr None => Forall (passed_over c wanted) (p :: l)
            end).
  { intros Hp. destruct (CIMonitor.by_id c wanted l) as [e|[d|]];
      [exact I | | constructor; assumption].
    destruct IH as (pre & q & post & u & -> & Hpre & Hq).
    exists (p :: pre), q, post, u. split; [reflexivity|].
    split; [constructor; assumption | exact Hq]. }
  destruct (i =? wanted)%Z eqn:Ew.
  - apply Z.eqb_eq in Ew. subst i.
    destruct (Monitor.ref_url p) as [u|] eqn:Eu; [|exact I].
    destruct (Monitor.get_patch c u) as [|d] eqn:Eg.
    + apply Hnext. exists wanted. split; [exact Ei|].
      intros _. exists u. auto.
    + exists [], p, l, u. repeat split; auto.
  - apply Z.eqb_neq in Ew. apply Hnext. exists i. split; [exact Ei|].
    intros ->. congruence.
Qed.

Lemma last_patch_spec (c : Monitor.client) (l : list Monitor.patch_ref)
      (d : Monitor.patch_data) :
  CIMonitor.last_patch c l = inr (Some d) ->
  exists pre q u,
    l = (pre ++ [q])%list
    /\ Monitor.ref_url q = Some u
    /\ Monitor.get_patch c u = Body d.
Proof.
  unfold CIMonitor.last_patch. destruct l as [|p ps]; [discriminate|].
  destruct (Monitor.ref_url (last ps p)) as [u|] eqn:Eu; [|discriminate].
  destruct (Monitor.get_patch c u) as [|d'] eqn:Eg; [discriminate|].
  intros [= <-]. exists (removelast (p :: ps)), (last ps p), u.
  split; [|split; assumption].
  rewrite <- (last_cons_default ps p p).
  apply app_removelast_last. discriminate.
Qed.

(** Where the patch data [get_patch_data] returns comes from.  It is
    the answer to the request for one patch of the series: either the
    first patch with the wanted id whose request succeeds, every patch
    before it having an id and, where that is the wanted one, a failed
    request; or the last patch of the series, and then, if a patch id
    other than 0 was asked for, no patch of the series served it. *)
Theorem get_patch_data_source
        (c : Monitor.client) (series_data : option Monitor.series_data)
        (patch_id : option Z) (d : Monitor.patch_data) :
  CIMonitor.get_patch_data c series_data patch_id = inr (Some d) ->
  exists sd l,
    series_data = Some sd
    /\ Monitor.patches sd = Some l
    /\ ((exists wanted pre q post u,
            patch_id = Some wanted
            /\ wanted <> 0
            /\ l = (pre ++ q :: post)%list
            /\ Forall (passed_over c wanted) pre
            /\ Monitor.ref_id q = Some wanted
            /\ Monitor.ref_url q = Some u
            /\ Monitor.get_patch c u = Body d)
        \/ (exists pre q u,
               l = (pre ++ [q])%list
               /\ Monitor.ref_url q = Some u
               /\ Monitor.get_patch c u = Body d
               /\ forall wanted,
                   patch_id = Some wanted -> wanted <> 0 ->
                   Forall (passed_over c wanted) l)).
Proof.
  unfold CIMonitor.get_patch_data.
  destruct series_data as [sd|]; [|discriminate].
  destruct (Monitor.patches sd) as [l|] eqn:El; [|discriminate].
  intros H. exists sd, l. split; [reflexivity|]. split; [exact El|].
  destruct patch_id as [wanted|].
  - destruct (wanted =? 0)%Z eqn:Ew.
    + apply Z.eqb_eq in Ew. right.
      destruct (last_patch_spec _ _ H) as (pre & q & u & Hl & Hu & Hg).
      exists pre, q, u. repeat split; try assumption.
      intros w [= <-] Hw. contradiction.
    + apply Z.eqb_neq in Ew.
      pose proof (by_id_spec c wanted l) as Hby.
      destruct (CIMonitor.by_id c wanted l) as [e|[d'|]]; [discriminate| |].
      * injection H as <-. left.
        destruct Hby as (pre & q & post & u & Hl & Hpre & Hq).
        exists wanted, pre, q, post, u. repeat split; tauto.
      * right.
        destruct (last_patch_spec _ _ H) as (pre & q & u & Hl & Hu & Hg).
        exists pre, q, u. repeat split; try assumption.
        intros w [= <-] _. exact Hby.
  - right.
    destruct (last_patch_spec _ _ H) as (pre & q & u & Hl & Hu & Hg).
    exists pre, q, u. repeat split; try assumption.
    intros w Hw. discriminate.
Qed.

(** A series with one patch, which the tracker serves. *)
Lemma get_patch_data_source_witness :
  let pd := {| Monitor.id := Some 100001;
               Monitor.url := Some "https://patchwork.example.com/100001/";
               Monitor.state := Some "new";
               Monitor.submitter_email := Some "test@example.com";
               Monitor.email := None;
               Monitor.message_id := None |} in
  let c := {| Monitor.get_series := fun _ => Failed;
              Monitor.get_patch := fun _ => Body pd |} in
  let sd := {| Monitor.patches :=
                 Some [{| Monitor.ref_id := Some 100001;
                          Monitor.ref_url :=
                            Some "https://patchwork.example.com/100001/" |}]
            |} in
  exists sd' l, Some sd = Some sd' /\ Monitor.patches sd' = Some l.
Proof.
  cbv zeta.
  destruct (@get_patch_data_source
              {| Monitor.get_series := fun _ => Failed;
                 Monitor.get_patch :=
                   fun _ =>
                     Body {| Monitor.id := Some 100001;
                             Monitor.url :=
                               Some "https://patchwork.example.com/100001/";
                             Monitor.state := Some "new";
                             Monitor.submitter_email :=
                               Some "test@example.com";
                             Monitor.email := None;
                             Monitor.message_id := None |} |}
              (Some {| Monitor.patches :=
                         Some [{| Monitor.ref_id := Some 100001;
                                  Monitor.ref_url :=
                                    Some "https://patchwork.example.com/100001/"
                               |}] |})
              (Some 100001) _ eq_refl) as (sd' & l & H1 & H2 & _).
  exists sd', l. split; assumption.
Defined.

(** ** Reports *)

(** No outcome of a provider is reported as a warning: the status of
    the report is [SUCCESS] for a [passed] result and [FAILURE] for
    every other result a provider yields. *)
Theorem provider_outcomes_never_warn
        (p : provider) (be : backends) (db : database)
        (pw_instance : string) (pw_project : option string)
        (o : Outcome.t) :
  In o (yielded (get_build_results p be db pw_instance pw_project)) ->
  (Outcome.result o = "passed"
   /\ CIMonitor.status_of (Outcome.result o) = "SUCCESS")
  \/ (Outcome.result o = "failed"
      /\ CIMonitor.status_of (Outcome.result o) = "FAILURE").
Proof.
  intros Ho.
  assert (Hb : binary_result o).
  { destruct p as [api_base| | |]; cbn [get_build_results] in Ho.
    - unfold GitHub.get_build_results in Ho.
      destruct (get_unsynced_builds db pw_instance (sync_column_of "gap"));
        [|destruct Ho].
      destruct (for_each_yielded _ _ _ _ _ Ho) as (s & u & d & _ & He).
      apply github_body_made_for in He. tauto.
    - unfold Travis.get_build_results in Ho.
      destruct (for_each_yielded _ _ _ _ _ Ho) as (s & u & d & _ & He).
      apply travis_body_made_for in He.
      destruct u as [[[[? ?] ?] ?] ?]. tauto.
    - unfold Cirrus.get_build_results in Ho.
      destruct (get_unsynced_builds db pw_instance (sync_column_of "cirrus"));
        [|destruct Ho].
      destruct (for_each_yielded _ _ _ _ _ Ho) as (s & u & d & _ & He).
      apply cirrus_body_made_for in He. tauto.
    - destruct Ho. }
  destruct Hb as [Hr|Hr]; rewrite Hr; [left | right]; split; reflexivity.
Qed.

(** Scenario B: the outcome of GitHub's completed run. *)
Lemma provider_outcomes_never_warn_witness :
  let o := GitHub.outcome_of Scenario.instance Scenario.patch_100001 "Build"
                             "passed"
                             "https://github.com/owner/repo/actions/runs/1" in
  (Outcome.result o = "passed"
   /\ CIMonitor.status_of (Outcome.result o) = "SUCCESS")
  \/ (Outcome.result o = "failed"
      /\ CIMonitor.status_of (Outcome.result o) = "FAILURE").
Proof.
  apply (@provider_outcomes_never_warn
           (GitHubActionsProvider "https://api.github.com")
           (Scenario.with_github
              (Scenario.github_answering
                 [Scenario.completed_run "Build" "success"]))
           Scenario.queued Scenario.instance None _
           (or_introl eq_refl)).
Defined.

Lemma send_email_command_cc (dry_run : bool) (to_addr : string)
      (cc_recipients : option (list string)) (e : string) :
  In ("--cc=" ++ e) (CIMonitor.send_email_command dry_run to_addr
                                                  cc_recipients)
  <-> exists l, cc_recipients = Some l /\ In e l.
Proof.
  unfold CIMonitor.send_email_command.
  assert (Hcc : forall l : list string,
             In ("--cc=" ++ e) (map (fun cc => String.append "--cc=" cc) l)
             <-> In e l).
  { intros l. rewrite in_map_iff. split.
    - intros (x & Hx & Hin). cbn in Hx. injection Hx as ->. exact Hin.
    - intros Hin. exists e. split; [reflexivity | exact Hin]. }
  split.
  - intros H. repeat (apply in_app_or in H; destruct H as [H|H]).
    + cbn in H. destruct H as [H|[H|[]]]; discriminate.
    + destruct dry_run; [destruct H as [H|[]]; discriminate | destruct H].
    + cbn in H. destruct H as [H|[H|[]]]; discriminate.
    + destruct cc_recipients as [l|]; [|destruct H].
      exists l. split; [reflexivity|]. apply Hcc. exact H.
    + destruct H as [H|[]]. discriminate.
  - intros (l & -> & Hin).
    apply in_or_app. right. apply in_or_app. right.
    apply in_or_app. right. apply in_or_app. left.
    apply Hcc. exact Hin.
Qed.

(** Who gets a copy of a report.  When [process_build_result] sends the
    mail of an outcome, the command carries no [--cc] for a [passed]
    result; for any other result it carries exactly one, for the
    e-mail of the patch's submitter, which the patch data must hold. *)
Theorem report_copies_the_submitter
        (from_addr to_addr date : string) (dry_run : bool)
        (log_output : string) (build_result : Outcome.t)
        (patch_data : Monitor.patch_data) (mail : string)
        (cmd : list string) :
  CIMonitor.notification from_addr to_addr date dry_run log_output
                         build_result patch_data
  = inr (mail, cmd) ->
  (Outcome.result build_result = "passed" ->
   forall e, ~ In ("--cc=" ++ e) cmd)
  /\ (Outcome.result build_result <> "passed" ->
      exists e,
        Monitor.submitter_email patch_data = Some e
        /\ forall e', In ("--cc=" ++ e') cmd <-> e' = e).
Proof.
  unfold CIMonitor.notification.
  destruct (Monitor.url patch_data); [|discriminate].
  destruct (Monitor.id patch_data); [|discriminate].
  destruct (Outcome.result build_result =? "passed") eqn:Er;
    cbn [negb].
  - apply String.eqb_eq in Er. intros [= _ <-]. split; [|congruence].
    intros _ e He. apply send_email_command_cc in He.
    destruct He as (l & Hl & _). discriminate.
  - apply String.eqb_neq in Er.
    destruct (Monitor.submitter_email patch_data) as [e|]; [|discriminate].
    intros [= _ <-]. split; [congruence|]. intros _. exists e.
    split; [reflexivity|]. intros e'. rewrite send_email_command_cc. split.
    + intros (l & [= <-] & [->|[]]). reflexivity.
    + intros ->. exists [e]. split; [reflexivity | left; reflexivity].
Qed.

(** A failed outcome of patch 100001: one copy, to the submitter. *)
Lemma report_copies_the_submitter_witness :
  exists e,
    Some "test@example.com" = Some e
    /\ forall e',
        In ("--cc=" ++ e')
           (CIMonitor.send_email_command true "results@example.com"
                                         (Some ["test@example.com"]))
        <-> e' = e.
Proof.
  refine (proj2 (@report_copies_the_submitter
                   "ci@example.com" "results@example.com"
                   "Mon,  1 Jan 2024 00:00:00 " true ""
                   (GitHub.outcome_of
                      Scenario.instance Scenario.patch_100001 "Build"
                      "failed"
                      "https://github.com/owner/repo/actions/runs/1")
                   {| Monitor.id := Some 100001;
                      Monitor.url :=
                        Some "https://patchwork.example.com/100001/";
                      Monitor.state := Some "new";
                      Monitor.submitter_email := Some "test@example.com";
                      Monitor.email := None;
                      Monitor.message_id := None |}
                   _ _ eq_refl) _).
  discriminate.
Defined.

(** ** A full monitoring cycle *)

Lemma completed_by_key (c : Patchwork.client) (instance : string)
      (r r' : Series.row) :
  completed_by c instance r r' -> series_key r' = series_key r.
Proof. intros [->|[-> _]]; reflexivity. Qed.

Lemma released_by_key (c : Monitor.client) (instance : string)
      (r r' : Series.row) :
  released_by c instance r r' -> series_key r' = series_key r.
Proof. intros [->|[-> _]]; reflexivity. Qed.

Lemma Forall2_map_eq {A B} (R : A -> A -> Prop) (f : A -> B)
      (l l' : list A) :
  (forall x y, R x y -> f y = f x) ->
  Forall2 R l l' -> map f l' = map f l.
Proof.
  intros HR. induction 1 as [|x y l l' Hxy _ IH]; [reflexivity|].
  cbn [map]. rewrite (HR _ _ Hxy), IH. reflexivity.
Qed.

Lemma completion_pass_keys (c : Patchwork.client)
      (instance project : string) (db : database) :
  git_builds (Monitor.check_completed_series c instance project db)
  = git_builds db
  /\ map series_key
         (series (Monitor.check_completed_series c instance project db))
     = map series_key (series db).
Proof.
  unfold Monitor.check_completed_series.
  destruct (completed_fold_effect
              c instance (get_uncompleted_series db instance project) db)
    as [Hb Hs].
  split; [exact Hb|].
  refine (@Forall2_map_eq _ _ _ series_key _ _ _ Hs).
  intros x y. apply completed_by_key.
Qed.

Lemma branch_pass_keys (m : Monitor.client) (instance : string)
      (db : database) :
  git_builds (fst (Monitor.check_superseded_series m instance db))
  = git_builds db
  /\ map series_key
         (series (fst (Monitor.check_superseded_series m instance db)))
     = map series_key (series db).
Proof.
  unfold Monitor.check_superseded_series.
  destruct (on_branches_effect m instance (get_active_branches db instance)
                               db) as (Hb & Hs & _).
  split; [exact Hb|].
  refine (@Forall2_map_eq _ _ _ series_key _ _ _ Hs).
  intros x y. apply released_by_key.
Qed.

Lemma discovery_pass_keys (c : Patchwork.client)
      (instance project : string) (db : database) :
  git_builds (fst (Patchwork.check_new_series c instance project db))
  = git_builds db
  /\ (exists added,
         map series_key
             (series (fst (Patchwork.check_new_series c instance project
                                                      db)))
         = (map series_key (series db) ++ map series_key added)%list
         /\ Forall (fun r => Series.series_instance r = instance) added)
  /\ (NoDup (map series_key (series db)) ->
      NoDup (map series_key
                 (series (fst (Patchwork.check_new_series c instance project
                                                          db))))).
Proof.
  assert (H : grown instance project db
                    (fst (Patchwork.check_new_series c instance project db))).
  { unfold Patchwork.check_new_series.
    destruct (Patchwork.get_series_events c project) as [|events];
      [apply grown_refl | apply on_events_grown]. }
  destruct H as (Hb & (added & Hs & Hadded) & Hnd).
  split; [exact Hb|]. split; [|exact Hnd].
  exists added. rewrite Hs, map_app. split; [reflexivity|].
  eapply Forall_impl; [|exact Hadded]. intros r Hr. apply Hr.
Qed.

(** A monitoring cycle never touches the build table and never deletes
    or re-keys a series: the keys of the series table after the cycle
    are the keys before it, in order, followed by the keys of the rows
    added for the instance; and if the keys were distinct before the
    cycle, they are distinct after it. *)
Theorem full_check_keeps_rows
        (c : Patchwork.client) (m : Monitor.client)
        (instance project : string) (db : database) :
  let db' := fst (run_full_check c m instance project db) in
  git_builds db' = git_builds db
  /\ (exists added,
         map series_key (series db')
         = (map series_key (series db) ++ map series_key added)%list
         /\ Forall (fun r => Series.series_instance r = instance) added)
  /\ (NoDup (map series_key (series db)) ->
      NoDup (map series_key (series db'))).
Proof.
  cbv zeta. unfold run_full_check.
  pose proof (discovery_pass_keys c instance project db) as Hd.
  destruct (Patchwork.check_new_series c instance project db)
    as [db1 [e|]]; cbn [fst] in *; [exact Hd|].
  destruct (completion_pass_keys c instance project db1) as [Hb2 Hk2].
  destruct (branch_pass_keys
              m instance
              (Monitor.check_completed_series c instance project db1))
    as [Hb3 Hk3].
  rewrite Hb3, Hb2, Hk3, Hk2. exact Hd.
Qed.

(* ================================================================== *)
(** * The build table as SQLite holds it *)

Lemma cell_eqb_eq (a b : Sqlite.cell) :
  Sqlite.cell_eqb a b = true <-> a = b.
Proof.
  destruct a as [s|x], b as [t|y]; cbn [Sqlite.cell_eqb].
  - rewrite String.eqb_eq. split; [intros ->; reflexivity | intros [= ->]].
    reflexivity.
  - split; discriminate.
  - split; discriminate.
  - rewrite Z.eqb_eq. split; [intros ->; reflexivity | intros [= ->]].
    reflexivity.
Qed.









Lemma map_insert_by {A B} (f : A -> B) (key : A -> Z) (key' : B -> Z)
      (x : A) (l : list A) :
  (forall a, key' (f a) = key a) ->
  map f (insert_by key x l) = insert_by key' (f x) (map f l).
Proof.
  intros Hk. induction l as [|y l IH]; [reflexivity|].
  cbn [insert_by map]. rewrite !Hk.
  destruct (key x <=? key y)%Z; [reflexivity|].
  cbn [map]. rewrite IH. reflexivity.
Qed.

Lemma map_order_by {A B} (f : A -> B) (key : A -> Z) (key' : B -> Z)
      (l : list A) :
  (forall a, key' (f a) = key a) ->
  map f (order_by key l) = order_by key' (map f l).
Proof.
  intros Hk. induction l as [|y l IH]; [reflexivity|].
  cbn [order_by map]. rewrite (map_insert_by f key key' _ _ Hk), IH.
  reflexivity.
Qed.

Lemma order_by_series_id_order_by (l : list Build.row) :
  order_by_series_id l = order_by Build.series_id l.
Proof.
  induction l as [|b l IH]; [reflexivity|].
  cbn [order_by_series_id order_by]. rewrite IH.
  generalize (order_by Build.series_id l). intros m.
  induction m as [|y m IHm]; [reflexivity|].
  cbn [insert_by_series_id insert_by]. rewrite IHm. reflexivity.
Qed.

Lemma filter_map_commute {A B} (f : A -> B) (p : B -> bool) (q : A -> bool)
      (l : list A) :
  (forall a, p (f a) = q a) ->
  filter p (map f l) = map f (filter q l).
Proof.
  intros H. induction l as [|a l IH]; [reflexivity|].
  cbn [map filter]. rewrite H. destruct (q a); cbn [map]; rewrite IH;
    reflexivity.
Qed.

(** ** The store on text: what the model of the engine covers

    On rows whose [STRING] cells hold text, and with text that cannot
    be a number, [insert_build] and [get_unsynced_builds] of the store
    are the functions the engine is modelled with. *)

Lemma insert_build_on_text
      (db : database) (series_id patch_id : Z)
      (patch_url patch_name sha instance project repo_name : string) :
  Sqlite.int64 series_id = true ->
  Sqlite.int64 patch_id = true ->
  Forall (fun s => Sqlite.plain_text s = true)
         [patch_url; patch_name; sha; instance; project; repo_name] ->
  Stored.insert_build (map Stored.of_text (git_builds db)) series_id
                      patch_id patch_url patch_name sha instance project
                      repo_name
  = Sqlite.Answer
      (map Stored.of_text
           (git_builds (insert_build db series_id patch_id patch_url
                                     patch_name sha instance project
                                     repo_name))).
Proof.
  intros Hs Hp Hall. unfold Stored.insert_build. rewrite Hs, Hp.
  cbn [andb negb].
  repeat match goal with
         | H : Forall _ (_ :: _) |- _ => inversion H; subst; clear H
         end.
  unfold Sqlite.numeric_affinity.
  repeat match goal with
         | H : Sqlite.plain_text _ = true |- _ => rewrite H; clear H
         end.
  unfold insert_build. cbn [git_builds with_git_builds].
  rewrite map_app. reflexivity.
Qed.

Lemma get_unsynced_builds_on_text
      (db : database) (instance ci_type : string) :
  Sqlite.plain_text instance = true ->
  Stored.get_unsynced_builds (map Stored.of_text (git_builds db)) instance
                             ci_type
  = match get_unsynced_builds db instance ci_type with
    | Some l => Sqlite.Answer (map Stored.of_text l)
    | None => Sqlite.Raises OperationalError
    end.
Proof.
  intros Hi. unfold Stored.get_unsynced_builds, get_unsynced_builds.
  destruct (column_of_name ci_type) as [c|]; [|reflexivity].
  unfold Sqlite.numeric_affinity. rewrite Hi.
  rewrite order_by_series_id_order_by.
  rewrite (map_order_by Stored.of_text Build.series_id Stored.series_id);
    [|reflexivity].
  rewrite (filter_map_commute Stored.of_text
                              (Stored.unsynced (Sqlite.Text instance) c)
                              (unsynced instance c)); [reflexivity|].
  intros a. unfold Stored.unsynced, unsynced. destruct c; reflexivity.
Qed.

(** ** Round trip of a build *)




(** ** Looking a patch up *)

Lemma found_true (instance : Sqlite.cell) (series : Z) (h : Sqlite.cell)
      (r : Stored.row) :
  Stored.found instance series h r = true
  <-> Stored.patchwork_instance r = instance
      /\ Stored.series_id r = series
      /\ Stored.sha r = h.
Proof.
  unfold Stored.found. rewrite !andb_true_iff, !cell_eqb_eq, Z.eqb_eq.
  tauto.
Qed.

(** [get_patch_id_by_series_and_sha] after [insert_build], for ids that
    fit 64 bits and texts that the columns place.  Looking up the
    series, sha and instance just inserted gives the patch id an
    earlier row already gave for them, if there was one, and the
    inserted patch id otherwise.  A lookup whose series, or whose sha or
    instance as the column holds them, differ from the inserted ones
    gives what it gave before.  An answer is always the patch id of a
    row with that series and with the cells of that sha and instance,
    and there is no answer only when the table holds no such row. *)
Theorem patch_id_lookup_after_insert
        (t : Stored.table) (series_id patch_id : Z)
        (patch_url patch_name sha instance project repo_name : string)
        (u n h i p r : Sqlite.cell) :
  Sqlite.int64 series_id = true ->
  Sqlite.int64 patch_id = true ->
  Sqlite.numeric_affinity patch_url = Some u ->
  Sqlite.numeric_affinity patch_name = Some n ->
  Sqlite.numeric_affinity sha = Some h ->
  Sqlite.numeric_affinity instance = Some i ->
  Sqlite.numeric_affinity project = Some p ->
  Sqlite.numeric_affinity repo_name = Some r ->
  exists t' before,
    Stored.insert_build t series_id patch_id patch_url patch_name sha
                        instance project repo_name
    = Sqlite.Answer t'
    /\ Stored.get_patch_id_by_series_and_sha t series_id sha instance
       = Sqlite.Answer before
    /\ Stored.get_patch_id_by_series_and_sha t' series_id sha instance
       = Sqlite.Answer (match before with
                        | Some found => Some found
                        | None => Some patch_id
                        end)
    /\ (forall s sha' instance' h' i',
           Sqlite.numeric_affinity sha' = Some h' ->
           Sqlite.numeric_affinity instance' = Some i' ->
           (s, h', i') <> (series_id, h, i) ->
           Stored.get_patch_id_by_series_and_sha t' s sha' instance'
           = Stored.get_patch_id_by_series_and_sha t s sha' instance')
    /\ (forall d s sha' instance' h' i' answer,
           Sqlite.numeric_affinity sha' = Some h' ->
           Sqlite.numeric_affinity instance' = Some i' ->
           Stored.get_patch_id_by_series_and_sha d s sha' instance'
           = Sqlite.Answer answer ->
           match answer with
           | Some found =>
               exists b, In b d
                         /\ Stored.patchwork_instance b = i'
                         /\ Stored.series_id b = s
                         /\ Stored.sha b = h'
                         /\ Stored.patch_id b = found
           | None =>
               forall b, In b d ->
                         ~ (Stored.patchwork_instance b = i'
                            /\ Stored.series_id b = s
                            /\ Stored.sha b = h')
           end).
Proof.
  intros Hs Hp Hu Hn Hh Hi Hpr Hr.
  exists (t ++ [Stored.new_row series_id patch_id u n h i p r])%list.
  eexists. split.
  { unfold Stored.insert_build.
    rewrite Hs, Hp, Hu, Hn, Hh, Hi, Hpr, Hr. reflexivity. }
  assert (Hnew : Stored.found i series_id h
                              (Stored.new_row series_id patch_id u n h i p r)
                 = true).
  { apply found_true. repeat split. }
  split; [|split; [|split]].
  - unfold Stored.get_patch_id_by_series_and_sha.
    rewrite Hs, Hi, Hh. reflexivity.
  - unfold Stored.get_patch_id_by_series_and_sha.
    rewrite Hs, Hi, Hh. cbn [negb]. rewrite filter_app.
    cbn [filter]. rewrite Hnew.
    destruct (filter (Stored.found i series_id h) t); reflexivity.
  - intros s sha' instance' h' i' Hh' Hi' Hne.
    unfold Stored.get_patch_id_by_series_and_sha.
    destruct (negb (Sqlite.int64 s)); [reflexivity|].
    rewrite Hi', Hh'. rewrite filter_app. cbn [filter].
    destruct (Stored.found i' s h'
                (Stored.new_row series_id patch_id u n h i p r)) eqn:Ef.
    + apply found_true in Ef. cbn in Ef. destruct Ef as (<- & <- & <-).
      contradiction Hne. reflexivity.
    + rewrite app_nil_r. reflexivity.
  - intros d s sha' instance' h' i' answer Hh' Hi'.
    unfold Stored.get_patch_id_by_series_and_sha.
    destruct (negb (Sqlite.int64 s)); [discriminate|].
    rewrite Hi', Hh'.
    destruct (filter (Stored.found i' s h') d) as [|b rest] eqn:Ef;
      intros [= <-].
    + intros b Hb Hm. apply found_true in Hm.
      assert (Hin : In b (filter (Stored.found i' s h') d)).
      { apply filter_In. split; assumption. }
      rewrite Ef in Hin. destruct Hin.
    + assert (Hin : In b (filter (Stored.found i' s h') d)).
      { rewrite Ef. left. reflexivity. }
      apply filter_In in Hin. destruct Hin as [Hin Hm].
      apply found_true in Hm. exists b. tauto.
Qed.

(** A build inserted with the sha ["0123"] is found under ["123"]. *)
Lemma patch_id_lookup_after_insert_witness :
  exists t',
    Stored.insert_build
      [] 12345 7 "https://patchwork.example.com/api/patches/7/"
      "Test patch" "0123" Scenario.instance Scenario.project "owner/repo"
    = Sqlite.Answer t'
    /\ Stored.get_patch_id_by_series_and_sha t' 12345 "0123"
                                             Scenario.instance
       = Sqlite.Answer (Some 7)
    /\ Stored.get_patch_id_by_series_and_sha t' 12345 "123"
                                             Scenario.instance
       = Sqlite.Answer (Some 7).
Proof.
  destruct (@patch_id_lookup_after_insert
              [] 12345 7 "https://patchwork.example.com/api/patches/7/"
              "Test patch" "0123" Scenario.instance Scenario.project
              "owner/repo" _ _ _ _ _ _
              eq_refl eq_refl eq_refl eq_refl eq_refl eq_refl eq_refl
              eq_refl)
    as (t' & before & Hins & Hbefore & Hafter & _).
  exists t'. split; [exact Hins|].
  injection Hbefore as <-. split; [exact Hafter|].
  injection Hins as <-. reflexivity.
Defined.

(** ** Travis: builds that end a branch and builds that do not *)

(** C3, as stated, fails.  Series 12345 has an active branch and Travis
    lists one build for it, canceled: the call yields nothing and the
    branch stays active, for the provider takes a build only in the
    states [failed], [passed] and [errored].  And with series 12345 and
    12346 both active, a build without [state] on the branch of the
    first ends the call with [KeyError] before the second is asked
    about: nothing is yielded for series 12346, whose branch lists a
    passed build, and both branches stay active. *)
Lemma travis_terminal_build_not_taken :
  let canceled :=
    get_build_results TravisProvider (Scenario.with_travis travis_canceled)
                      Scenario.dispatched Scenario.instance None in
  let cut :=
    get_build_results TravisProvider
                      (Scenario.with_travis travis_stateless_12345)
                      two_dispatched Scenario.instance None in
  (map branch_series_id
       (get_active_branches Scenario.dispatched Scenario.instance)
   = [12345]
   /\ yielded canceled = []
   /\ raised canceled = None
   /\ store canceled = Scenario.dispatched)
  /\ (map branch_series_id
          (get_active_branches two_dispatched Scenario.instance)
      = [12345; 12346]
      /\ Travis._get_builds_for_branch travis_stateless_12345
                                       (Some "owner/repo") "series_12346"
         = Body [Scenario.travis_build "passed" 9 "abc9"]
      /\ yielded cut = []
      /\ raised cut = Some KeyError
      /\ map branch_series_id
             (get_active_branches (store cut) Scenario.instance)
         = [12345; 12346]).
Proof. repeat split. Qed.
